(** * CyberRange Scanner: the nmap output parser and its persistence contract

    A shallow embedding of [parse_and_store_nmap] and of the progress
    extraction of [ScanThread.run] (file [cyberrange_scanner.py]), with the
    SQLite store modelled as two tables of typed rows.

    Text is modelled as [string]: a character is one code point below 256
    (Latin-1), which covers everything nmap prints.  Python's [str] methods
    and the [re] patterns of the source are written out on that alphabet. *)

From Stdlib Require Import String Ascii List ZArith Lia Bool Arith.
Import ListNotations.

Open Scope string_scope.
Open Scope Z_scope.

(** ** Python string primitives *)

Module PyStr.

(** [str.isspace] on one character: TAB..CR, FS..US, SPACE, NEL, NBSP. *)
Definition isspace (c : ascii) : bool :=
  let n := N_of_ascii c in
  ((9 <=? n) && (n <=? 13) || (28 <=? n) && (n <=? 32)
   || (n =? 133) || (n =? 160))%N.

(** Line boundaries of [str.splitlines]: LF, VT, FF, CR, FS, GS, RS, NEL. *)
Definition islinebreak (c : ascii) : bool :=
  let n := N_of_ascii c in
  ((10 <=? n) && (n <=? 13) || (28 <=? n) && (n <=? 30) || (n =? 133))%N.

Definition isdigit (c : ascii) : bool :=
  let n := N_of_ascii c in ((48 <=? n) && (n <=? 57))%N.

Definition digit_val (c : ascii) : Z := Z.of_N (N_of_ascii c) - 48.

(** [str.lower] on the alphabet of this file.  Below code point 256 the
    method maps one character at a time: the capitals A-Z and
    U+00C0-U+00DE, the multiplication sign apart, move up by 32 and every
    other character stays.  Beyond Latin-1 the method is not a map of
    characters (the lower case of a Greek capital sigma depends on its
    place in the word); such text is outside the model. *)
Definition lower_char (c : ascii) : ascii :=
  let n := N_of_ascii c in
  if ((65 <=? n) && (n <=? 90)
      || (192 <=? n) && (n <=? 222) && negb (n =? 215))%N
  then ascii_of_N (n + 32) else c.

Fixpoint lower (s : string) : string :=
  match s with
  | EmptyString => EmptyString
  | String c s' => String (lower_char c) (lower s')
  end.

Definition is_empty (s : string) : bool :=
  match s with EmptyString => true | _ => false end.

(** Membership of a character in a set given as a string. *)
Fixpoint char_in (c : ascii) (set : string) : bool :=
  match set with
  | EmptyString => false
  | String d set' => Ascii.eqb c d || char_in c set'
  end.

Fixpoint lstrip_by (p : ascii -> bool) (s : string) : string :=
  match s with
  | EmptyString => EmptyString
  | String c s' => if p c then lstrip_by p s' else s
  end.

Fixpoint rstrip_by (p : ascii -> bool) (s : string) : string :=
  match s with
  | EmptyString => EmptyString
  | String c s' =>
      let r := rstrip_by p s' in
      if p c && is_empty r then EmptyString else String c r
  end.

(** [s.strip()] and [s.strip(chars)]. *)
Definition strip (s : string) : string :=
  rstrip_by isspace (lstrip_by isspace s).

Definition strip_chars (chars s : string) : string :=
  rstrip_by (fun c => char_in c chars) (lstrip_by (fun c => char_in c chars) s).

(** [needle in hay]. *)
Fixpoint contains (needle hay : string) : bool :=
  match hay with
  | EmptyString => is_empty needle
  | String _ hay' => String.prefix needle hay || contains needle hay'
  end.

Definition startswith (s pre : string) : bool := String.prefix pre s.

(** [s.split()]: the maximal runs of non-whitespace characters. *)
Fixpoint split_go (tok : option string) (s : string) : list string :=
  match s with
  | EmptyString => match tok with Some t => [t] | None => [] end
  | String c s' =>
      if isspace c then
        match tok with
        | Some t => t :: split_go None s'
        | None => split_go None s'
        end
      else
        split_go (Some (match tok with
                        | Some t => t ++ String c EmptyString
                        | None => String c EmptyString
                        end)) s'
  end.

Definition split (s : string) : list string := split_go None s.

(** [s.split(sep)[0]] for a one-character separator: the text before the
    first occurrence of [sep] (all of [s] when there is none). *)
Fixpoint before_char (sep : ascii) (s : string) : string :=
  match s with
  | EmptyString => EmptyString
  | String c s' =>
      if Ascii.eqb c sep then EmptyString else String c (before_char sep s')
  end.

(** [s.splitlines()]: CR LF counts as one boundary and a final boundary
    opens no further line. *)
Fixpoint splitlines_go (cur s : string) : list string :=
  match s with
  | EmptyString => if is_empty cur then [] else [cur]
  | String c s' =>
      if islinebreak c then
        cur :: match s' with
               | String d s'' =>
                   if Ascii.eqb c "013" && Ascii.eqb d "010"
                   then splitlines_go EmptyString s''
                   else splitlines_go EmptyString s'
               | EmptyString => []
               end
      else splitlines_go (cur ++ String c EmptyString) s'
  end.

Definition splitlines (s : string) : list string :=
  splitlines_go EmptyString s.

(** The longest prefix of characters satisfying [p], and what follows. *)
Fixpoint take_while (p : ascii -> bool) (s : string) : string :=
  match s with
  | EmptyString => EmptyString
  | String c s' => if p c then String c (take_while p s') else EmptyString
  end.

Definition drop_while := lstrip_by.

(** The value of a run of decimal digits, most significant first. *)
Fixpoint digits_value (acc : Z) (s : string) : Z :=
  match s with
  | EmptyString => acc
  | String c s' => digits_value (10 * acc + digit_val c) s'
  end.

(** The digit part of an [int] or [float] literal: digits, with single
    underscores allowed between two digits.  [prev] says whether the
    previous character was a digit. *)
Fixpoint int_digits (acc : Z) (prev : bool) (s : string) : option Z :=
  match s with
  | EmptyString => if prev then Some acc else None
  | String c s' =>
      if isdigit c then int_digits (10 * acc + digit_val c) true s'
      else if Ascii.eqb c "_" && prev then int_digits acc false s'
      else None
  end.

(** [int(s)] in base 10; [None] stands for [ValueError].  The bound that
    recent interpreters put on the number of digits is not modelled. *)
Definition py_int (s : string) : option Z :=
  match strip s with
  | String "+" s' => int_digits 0 false s'
  | String "-" s' => option_map Z.opp (int_digits 0 false s')
  | s' => int_digits 0 false s'
  end.

End PyStr.

(** ** The regular expressions of the parser

    Each pattern is only ever used through [search], so each is written as
    the search it performs: the leftmost position at which the pattern
    matches, and the groups it captures there. *)

Module Re.
Import PyStr.

Fixpoint drop (n : nat) (s : string) : string :=
  match n, s with
  | O, _ => s
  | S n', String _ s' => drop n' s'
  | S _, EmptyString => EmptyString
  end.

(** Exactly [n] characters of the class [p]: the text taken and the rest. *)
Fixpoint take_exactly (n : nat) (p : ascii -> bool) (s : string)
  : option (string * string) :=
  match n, s with
  | O, _ => Some (EmptyString, s)
  | S n', String c s' =>
      if p c then
        match take_exactly n' p s' with
        | Some (t, r) => Some (String c t, r)
        | None => None
        end
      else None
  | S _, EmptyString => None
  end.

(** The class [[0-9A-Fa-f:]]. *)
Definition is_mac_char (c : ascii) : bool :=
  let n := N_of_ascii c in
  (isdigit c || (65 <=? n) && (n <=? 70) || (97 <=? n) && (n <=? 102)
   || (n =? 58))%N.

Definition is_newline (c : ascii) : bool := Ascii.eqb c "010".

(** [(.*?)\)]: the text up to the first closing parenthesis; the dot does
    not cross a newline. *)
Fixpoint lazy_to_paren (s : string) : option string :=
  match s with
  | EmptyString => None
  | String c s' =>
      if Ascii.eqb c ")" then Some EmptyString
      else if is_newline c then None
      else option_map (String c) (lazy_to_paren s')
  end.

(** The optional tail [(?:\s+\((.*?)\))?] of the MAC pattern: group 2 when
    the tail matches, [None] when it is skipped. *)
Definition vendor_group (rest : string) : option string :=
  match rest with
  | String c _ =>
      if isspace c then
        match drop_while isspace rest with
        | String "(" r => lazy_to_paren r
        | _ => None
        end
      else None
  | EmptyString => None
  end.

Definition mac_at (s : string) : option (string * option string) :=
  if String.prefix "MAC Address: " s then
    match take_exactly 17 is_mac_char (drop 13 s) with
    | Some (m, rest) => Some (m, vendor_group rest)
    | None => None
    end
  else None.

(** [mac_pattern.search(s)], with
    [mac_pattern = MAC Address: ([0-9A-Fa-f:]{17})(?:\s+\((.*?)\))?];
    the result is (group 1, group 2). *)
Fixpoint mac_search (s : string) : option (string * option string) :=
  match s with
  | EmptyString => None
  | String _ s' =>
      match mac_at s with
      | Some g => Some g
      | None => mac_search s'
      end
  end.

(** [(.*?)$]: the rest of the text, a single final newline apart. *)
Fixpoint lazy_to_end (s : string) : option string :=
  match s with
  | EmptyString => Some EmptyString
  | String c s' =>
      if is_newline c then (if is_empty s' then Some EmptyString else None)
      else option_map (String c) (lazy_to_end s')
  end.

(** A literal matched under [re.IGNORECASE]. *)
Definition prefix_ci (lit s : string) : bool :=
  String.prefix (lower lit) (lower s).

Definition os_at (s : string) : option (option string * option string) :=
  match (if prefix_ci "Running: " s then lazy_to_end (drop 9 s) else None) with
  | Some g => Some (Some g, None)
  | None =>
      match (if prefix_ci "OS details: " s then lazy_to_end (drop 12 s)
             else None) with
      | Some g => Some (None, Some g)
      | None => None
      end
  end.

(** [os_pattern.search(s)], with
    [os_pattern = Running: (.*?)$|OS details: (.*?)$] under IGNORECASE;
    the result is (group 1, group 2). *)
Fixpoint os_search (s : string) : option (option string * option string) :=
  match s with
  | EmptyString => None
  | String _ s' =>
      match os_at s with
      | Some g => Some g
      | None => os_search s'
      end
  end.

(** [re.search(r'(\d+)/tcp', s)]: group 1. *)
Fixpoint port_search (s : string) : option string :=
  match s with
  | EmptyString => None
  | String c s' =>
      if isdigit c && String.prefix "/tcp" (drop_while isdigit s)
      then Some (take_while isdigit s)
      else port_search s'
  end.

Definition service_at (s : string) : option (string * string) :=
  let r := drop_while isdigit s in
  if String.prefix "/tcp" r then
    match drop 4 r with
    | String c r1 =>
        if isspace c then
          let tok := take_while (fun x => negb (isspace x))
                                (drop_while isspace r1) in
          if is_empty tok then None else Some (take_while isdigit s, tok)
        else None
    | EmptyString => None
    end
  else None.

(** [re.search(r'(\d+)/tcp\s+(\S+)', s)]: (group 1, group 2). *)
Fixpoint service_search (s : string) : option (string * string) :=
  match s with
  | EmptyString => None
  | String c s' =>
      match (if isdigit c then service_at s else None) with
      | Some g => Some g
      | None => service_search s'
      end
  end.

End Re.

(** ** The store

    The tables [devices] and [vulnerabilities] of [init_db], with the column
    types the parser writes.  A table is the list of its rows in rowid order,
    the order in which SQLite scans it, together with the counter that
    AUTOINCREMENT keeps in [sqlite_sequence].  The table [scans] is written
    by [save_scan_results] only and is left out. *)

Module Store.

Record device := mkDevice {
  d_id : Z;
  d_ip : string;
  d_mac : option string;
  d_vendor : option string;
  d_os : option string;
  d_status : option string;
  d_last_seen : option string
}.

Record vuln := mkVuln {
  v_id : Z;
  v_device_ip : string;
  v_port : Z;
  v_service : string;
  v_script_output : string;
  v_severity : string;
  v_timestamp : string
}.

Record db := mkDb {
  devices : list device;
  devices_seq : Z;
  vulnerabilities : list vuln;
  vulnerabilities_seq : Z
}.

Definition empty_db : db := mkDb [] 0 [] 0.

(** The rowid AUTOINCREMENT gives to a new row: one more than every rowid
    the table holds or ever held. *)
Definition next_rowid (seq : Z) (ids : list Z) : Z :=
  fold_right Z.max seq ids + 1.

(** [INSERT OR IGNORE INTO devices (ip) VALUES (?)]: column [ip] is UNIQUE.
    SQLite draws the rowid before it checks the constraint, and records it
    in [sqlite_sequence] even when the row is then ignored: the counter
    advances on every execution, the table only when the ip is new. *)
Definition insert_or_ignore_device (ip : string) (d : db) : db :=
  let id := next_rowid (devices_seq d) (map d_id (devices d)) in
  if existsb (fun r => String.eqb (d_ip r) ip) (devices d)
  then mkDb (devices d) id (vulnerabilities d) (vulnerabilities_seq d)
  else
    mkDb (devices d ++ [mkDevice id ip None None None None None]) id
         (vulnerabilities d) (vulnerabilities_seq d).

Definition set_device (ts : string) (mac vendor os : option string)
           (r : device) : device :=
  mkDevice (d_id r) (d_ip r) mac vendor os (Some "up") (Some ts).

(** [UPDATE devices SET status = 'up', last_seen = ?, mac = ?, vendor = ?,
    os = ? WHERE ip = ?]. *)
Definition update_device (ts : string) (mac vendor os : option string)
           (ip : string) (d : db) : db :=
  mkDb (map (fun r => if String.eqb (d_ip r) ip
                      then set_device ts mac vendor os r else r)
            (devices d))
       (devices_seq d) (vulnerabilities d) (vulnerabilities_seq d).

Definition has_key (ip : string) (port : Z) (service : string) (r : vuln)
  : bool :=
  String.eqb (v_device_ip r) ip && (v_port r =? port)
  && String.eqb (v_service r) service.

(** [SELECT id FROM vulnerabilities WHERE device_ip = ? AND port = ? AND
    service = ?] followed by [fetchone()]. *)
Definition select_vuln_id (ip : string) (port : Z) (service : string)
           (d : db) : option Z :=
  option_map v_id (find (has_key ip port service) (vulnerabilities d)).

(** [INSERT INTO vulnerabilities (device_ip, port, service, script_output,
    severity, timestamp) VALUES (?, ?, ?, ?, ?, ?)]. *)
Definition insert_vuln (ip : string) (port : Z)
           (service script_output severity ts : string) (d : db) : db :=
  let id := next_rowid (vulnerabilities_seq d)
                       (map v_id (vulnerabilities d)) in
  mkDb (devices d) (devices_seq d)
       (vulnerabilities d
          ++ [mkVuln id ip port service script_output severity ts])
       id.

Definition set_vuln (script_output severity ts : string) (r : vuln) : vuln :=
  mkVuln (v_id r) (v_device_ip r) (v_port r) (v_service r)
         script_output severity ts.

(** [UPDATE vulnerabilities SET script_output = ?, severity = ?,
    timestamp = ? WHERE id = ?]. *)
Definition update_vuln (script_output severity ts : string) (id : Z)
           (d : db) : db :=
  mkDb (devices d) (devices_seq d)
       (map (fun r => if v_id r =? id
                      then set_vuln script_output severity ts r else r)
            (vulnerabilities d))
       (vulnerabilities_seq d).

(** What the schema guarantees of a stored database: [devices.ip] is
    UNIQUE and [vulnerabilities.id] is the primary key. *)
Definition wf_db (d : db) : Prop :=
  NoDup (map d_ip (devices d)) /\ NoDup (map v_id (vulnerabilities d)).

(** The integers SQLite stores: a Python [int] outside this range cannot be
    bound to a statement parameter. *)
Definition sqlite_int64 (n : Z) : bool :=
  (- 2 ^ 63 <=? n) && (n <? 2 ^ 63).

End Store.

(** ** The connection: statements that can raise

    [cur.execute] raises [sqlite3.Error] when the storage layer refuses a
    statement, and [OverflowError] when an integer parameter does not fit in
    64 bits.  Which statements the storage layer refuses is not decided by
    the program: it is given by a fault plan, one flag per executed
    statement in execution order ([true]: this statement raises), no flag
    left meaning no further fault.

    Statements run inside the implicit transaction of the [sqlite3] module:
    before an INSERT or an UPDATE the module opens a transaction when none
    is open (before it binds the parameters; a SELECT opens none), the
    statements change the working copy, [conn.commit()] makes it durable,
    and a connection dropped by an escaping exception leaves the last
    committed state.  [conn.commit()] does nothing when no transaction is
    open; otherwise it executes COMMIT, which the storage layer can refuse
    like any other statement, and a refused COMMIT leaves the transaction
    open with its changes (as SQLite does for a busy database). *)

Module Conn.
Import Store.

Inductive exn := SqliteError | OverflowError.

Inductive result (A : Type) :=
| Ok (a : A)
| Raise (e : exn).
Arguments Ok {A} a.
Arguments Raise {A} e.

Record conn := mkConn {
  committed : db;
  working : db;
  in_transaction : bool;
  faults : list bool
}.

Definition M (A : Type) : Type := conn -> result A * conn.

Definition ret {A} (a : A) : M A := fun c => (Ok a, c).

Definition bind {A B} (m : M A) (k : A -> M B) : M B :=
  fun c =>
    match m c with
    | (Ok a, c') => k a c'
    | (Raise e, c') => (Raise e, c')
    end.

Definition raise {A} (e : exn) : M A := fun c => (Raise e, c).

(** [try: body except sqlite3.Error: handler]. *)
Definition try_except_sqlite {A} (body handler : M A) : M A :=
  fun c =>
    match body c with
    | (Raise SqliteError, c') => handler c'
    | r => r
    end.

(** The storage layer accepts or refuses the statement about to run. *)
Definition step_fault : M unit :=
  fun c =>
    match faults c with
    | [] => (Ok tt, c)
    | false :: fs =>
        (Ok tt, mkConn (committed c) (working c) (in_transaction c) fs)
    | true :: fs =>
        (Raise SqliteError,
         mkConn (committed c) (working c) (in_transaction c) fs)
    end.

Definition bind_int (n : Z) : M unit :=
  if sqlite_int64 n then ret tt else raise OverflowError.

(** The implicit BEGIN before an INSERT or an UPDATE; it takes no lock and
    is taken to succeed. *)
Definition begin : M unit :=
  fun c => (Ok tt, mkConn (committed c) (working c) true (faults c)).

Definition write (f : db -> db) : M unit :=
  fun c =>
    (Ok tt,
     mkConn (committed c) (f (working c)) (in_transaction c) (faults c)).

Definition read {A} (f : db -> A) : M A :=
  fun c => (Ok (f (working c)), c).

(** [conn.commit()]. *)
Definition commit : M unit :=
  fun c =>
    if in_transaction c then
      bind step_fault
           (fun _ c' => (Ok tt, mkConn (working c') (working c') false
                                       (faults c'))) c
    else (Ok tt, c).

End Conn.

Declare Scope conn_scope.
Delimit Scope conn_scope with conn.
Notation "x <- m ;; k" := (Conn.bind m (fun x => k))
  (at level 61, m at next level, right associativity) : conn_scope.
Notation "m ;; k" := (Conn.bind m (fun _ => k))
  (at level 61, right associativity) : conn_scope.

(** ** [parse_and_store_nmap]

    The timestamp [ts] is read from the clock once per call and is a
    parameter here.  Calls of [log_message] do not touch the store and are
    left out. *)

Module Parser.
Import PyStr Re Store Conn.
Local Open Scope conn_scope.

(** The variables the loop carries from one line to the next. *)
Record pstate := mkPstate {
  current_ip : option string;
  current_mac : option string;
  current_vendor : option string;
  current_os : option string;
  parsing_ports_section : bool;
  parsing_host_script_results : bool
}.

Definition initial_pstate : pstate :=
  mkPstate None None None None false false.

(** Truth value of an optional string: [None] and [''] are false. *)
Definition truthy (o : option string) : option string :=
  match o with
  | Some s => if is_empty s then None else Some s
  | None => None
  end.

Definition host_marker : string := "Nmap scan report for".
Definition ports_marker : string := "PORT      STATE SERVICE".
Definition script_marker : string := "Host script results:".

(** [line.split()[-1].strip('()')] of a host header. *)
Definition header_ip (line : string) : string :=
  strip_chars "()" (last (split line) EmptyString).

Definition is_noise (line : string) : bool :=
  startswith line "Discovered open port" || startswith line "Initiating "
  || startswith line "Completed ".

Definition is_port_state (s : string) : bool :=
  String.eqb s "open" || String.eqb s "closed" || String.eqb s "filtered".

(** The test [len(parts) >= 3 and '/' in parts[0] and parts[1] in [...]]. *)
Definition is_port_row (parts : list string) : bool :=
  match parts with
  | p0 :: p1 :: _ :: _ => contains "/" p0 && is_port_state p1
  | _ => false
  end.

Definition is_script_line (line : string) : bool :=
  startswith line "|_" || startswith line "| ".

Definition is_vulnerable (script_output : string) : bool :=
  let lo := lower script_output in
  (contains "vulnerable" lo || contains "vulnerability" lo)
  && (negb (contains "false" lo)
      && negb (contains "could not negotiate" lo)
      && negb (contains "error" lo)).

Definition script_port (script_output : string) : Z :=
  match port_search script_output with
  | Some ds => match py_int ds with Some n => n | None => 0 end
  | None => 0
  end.

Definition script_service (script_output : string) : string :=
  match service_search script_output with
  | Some (_, tok) => tok
  | None =>
      if contains "smb-vuln" script_output then "smb"
      else if contains "http-vuln" script_output then "http"
      else "host_level_service"
  end.

(** The statements of the connection. *)
Definition exec_insert_or_ignore_device (ip : string) : M unit :=
  begin ;; step_fault ;; write (insert_or_ignore_device ip).

Definition exec_update_device (ts : string) (mac vendor os : option string)
           (ip : string) : M unit :=
  begin ;; step_fault ;; write (update_device ts mac vendor os ip).

Definition exec_select_vuln_id (ip : string) (port : Z) (service : string)
  : M (option Z) :=
  bind_int port ;; step_fault ;; read (select_vuln_id ip port service).

Definition exec_insert_vuln (ip : string) (port : Z)
           (service script_output severity ts : string) : M unit :=
  begin ;; bind_int port ;; step_fault ;;
  write (insert_vuln ip port service script_output severity ts).

Definition exec_update_vuln (script_output severity ts : string) (id : Z)
  : M unit :=
  begin ;; step_fault ;; write (update_vuln script_output severity ts id).

(** The two statements that save the host held in the accumulator. *)
Definition save_device (ts : string) (st : pstate) (ip : string) : M unit :=
  exec_insert_or_ignore_device ip ;;
  exec_update_device ts (current_mac st) (current_vendor st)
                     (current_os st) ip.

(** The rule of the ports section, for a line that reached it. *)
Definition ports_rule (ts : string) (st : pstate) (ip line : string)
  : M pstate :=
  let parts := split line in
  if is_port_row parts then
    match py_int (before_char "/" (nth 0 parts EmptyString)) with
    | Some port_num =>
        let service := nth 2 parts EmptyString in
        (if String.eqb (nth 1 parts EmptyString) "open" then
           existing_vuln <- exec_select_vuln_id ip port_num service ;;
           match existing_vuln with
           | None =>
               exec_insert_vuln ip port_num service "Open port detected"
                                "Informational" ts
           | Some _ => ret tt
           end
         else ret tt) ;;
        ret st
    | None => ret st
    end
  else if is_empty (strip line) then
    ret (mkPstate (current_ip st) (current_mac st) (current_vendor st)
                  (current_os st) false (parsing_host_script_results st))
  else ret st.

(** The rule of the host-script section, for a line that reached it. *)
Definition script_rule (ts : string) (st : pstate) (ip line : string)
  : M pstate :=
  if is_script_line line then
    let script_output := strip line in
    (if is_vulnerable script_output then
       let port := script_port script_output in
       let service := script_service script_output in
       try_except_sqlite
         (existing_vuln <- exec_select_vuln_id ip port service ;;
          match existing_vuln with
          | Some id => exec_update_vuln script_output "High" ts id
          | None =>
              exec_insert_vuln ip port service script_output "High" ts
          end ;;
          commit)
         (ret tt)
     else ret tt) ;;
    ret st
  else if is_empty (strip line) then
    ret (mkPstate (current_ip st) (current_mac st) (current_vendor st)
                  (current_os st) (parsing_ports_section st) false)
  else ret st.

(** One iteration of the loop over [nmap_output.splitlines()]. *)
Definition parse_line (ts : string) (st : pstate) (raw : string)
  : M pstate :=
  let line := strip raw in
  if is_empty line then ret st
  else if contains host_marker line then
    match truthy (current_ip st) with
    | Some ip => try_except_sqlite (save_device ts st ip ;; commit) (ret tt)
    | None => ret tt
    end ;;
    ret (mkPstate (Some (header_ip line)) None None None false false)
  else
    match mac_search line with
    | Some (mac, vendor) =>
        ret (mkPstate (current_ip st) (Some mac) vendor (current_os st)
                      (parsing_ports_section st)
                      (parsing_host_script_results st))
    | None =>
    match os_search line with
    | Some (g1, g2) =>
        let os := match truthy g1 with
                  | Some o => Some o
                  | None => match truthy g2 with
                            | Some o => Some o
                            | None => current_os st
                            end
                  end in
        ret (mkPstate (current_ip st) (current_mac st) (current_vendor st)
                      os (parsing_ports_section st)
                      (parsing_host_script_results st))
    | None =>
    if startswith line ports_marker then
      ret (mkPstate (current_ip st) (current_mac st) (current_vendor st)
                    (current_os st) true false)
    else if startswith line script_marker then
      ret (mkPstate (current_ip st) (current_mac st) (current_vendor st)
                    (current_os st) false true)
    else if is_noise line then ret st
    else
      match (if parsing_ports_section st then truthy (current_ip st)
             else None) with
      | Some ip => ports_rule ts st ip line
      | None =>
      match (if parsing_host_script_results st then truthy (current_ip st)
             else None) with
      | Some ip => script_rule ts st ip line
      | None => ret st
      end
      end
    end
    end.

Fixpoint parse_lines (ts : string) (st : pstate) (lines : list string)
  : M pstate :=
  match lines with
  | [] => ret st
  | raw :: rest => st' <- parse_line ts st raw ;; parse_lines ts st' rest
  end.

Definition parse_and_store_nmap (nmap_output ts : string) : M unit :=
  st <- parse_lines ts initial_pstate (splitlines nmap_output) ;;
  match truthy (current_ip st) with
  | Some ip => save_device ts st ip
  | None => ret tt
  end ;;
  commit.

(** One call against the stored database [d] under the fault plan [fs]:
    how the call ends and the database it leaves on disk. *)
Definition run (fs : list bool) (d : db) (nmap_output ts : string)
  : result unit * db :=
  let (r, c) := parse_and_store_nmap nmap_output ts (mkConn d d false fs) in
  (r, committed c).

End Parser.


(** ** [ScanThread.run]: the progress percentage

    The loop over the lines the scanner prints, as the list of signals it
    emits.  Launching the process is left out: the lines are given, each
    with its line end as [readline] returns it. *)

Module Scan.
Import PyStr.

(** A parsed [float]: a finite double is [m * 2 ^ e], sign apart. *)
Inductive pyfloat :=
| Finite (negative : bool) (m e : Z)
| Infinity (negative : bool)
| NaN.

(** A run of digits with single underscores between digits: the value
    accumulated on [acc], the number of digits read, and the rest. *)
Fixpoint read_digits (acc : Z) (n : nat) (s : string) : Z * nat * string :=
  match s with
  | EmptyString => (acc, n, s)
  | String c s' =>
      if isdigit c then read_digits (10 * acc + digit_val c) (S n) s'
      else if Ascii.eqb c "_" && negb (Nat.eqb n 0) then
        match s' with
        | String d _ => if isdigit d then read_digits acc n s'
                        else (acc, n, s)
        | EmptyString => (acc, n, s)
        end
      else (acc, n, s)
  end.

(** The optional exponent of a decimal literal; [None]: malformed. *)
Definition read_exponent (s : string) : option Z :=
  match s with
  | EmptyString => Some 0
  | String c s' =>
      if Ascii.eqb c "e" || Ascii.eqb c "E" then
        let '(neg, s'') :=
          match s' with
          | String "+" t => (false, t)
          | String "-" t => (true, t)
          | _ => (false, s')
          end in
        match read_digits 0 0 s'' with
        | (v, S _, EmptyString) => Some (if neg then - v else v)
        | _ => None
        end
      else None
  end.

(** A decimal literal [digits[.digits][e[+-]digits]] with at least one
    digit in the mantissa: the value is [mant * 10 ^ exp10]. *)
Definition read_decimal (s : string) : option (Z * Z) :=
  let '(ip, n1, r1) := read_digits 0 0 s in
  let '(mant, n2, r2) :=
    match r1 with
    | String "." t => read_digits ip 0 t
    | _ => (ip, O, r1)
    end in
  if Nat.eqb (n1 + n2) 0 then None
  else
    match read_exponent r2 with
    | Some ex => Some (mant, ex - Z.of_nat n2)
    | None => None
    end.

(** The double nearest to [num / den] (ties to even) as [(m, e)] with
    value [m * 2 ^ e]; [None] when it is beyond the largest double. *)
Definition round_to_double (num den : Z) : option (Z * Z) :=
  if num =? 0 then Some (0, 0)
  else
    let scaled e := if 0 <=? e then (num, den * 2 ^ e)
                    else (num * 2 ^ (- e), den) in
    let e0 := Z.max (Z.log2 num - Z.log2 den - 52) (- 1074) in
    let '(n0, d0) := scaled e0 in
    let e := if (n0 / d0 <? 2 ^ 52) && (- 1074 <? e0) then e0 - 1 else e0 in
    let '(n, d) := scaled e in
    let q := n / d in
    let r := n mod d in
    let q' := if (d <? 2 * r) || ((d =? 2 * r) && Z.odd q) then q + 1
              else q in
    if (971 <? e) || ((e =? 971) && (q' =? 2 ^ 53)) then None
    else Some (q', e).

Definition decimal_to_float (negative : bool) (mant exp10 : Z) : pyfloat :=
  match (if 0 <=? exp10 then round_to_double (mant * 10 ^ exp10) 1
         else round_to_double mant (10 ^ (- exp10))) with
  | Some (m, e) => Finite negative m e
  | None => Infinity negative
  end.

(** [float(s)]; [None] stands for [ValueError]. *)
Definition py_float (s : string) : option pyfloat :=
  let t := strip s in
  let '(negative, body) :=
    match t with
    | String "+" r => (false, r)
    | String "-" r => (true, r)
    | _ => (false, t)
    end in
  let lo := lower body in
  if String.eqb lo "inf" || String.eqb lo "infinity" then
    Some (Infinity negative)
  else if String.eqb lo "nan" then Some NaN
  else
    match read_decimal body with
    | Some (mant, exp10) => Some (decimal_to_float negative mant exp10)
    | None => None
    end.

(** How [int(float(token))] ends. *)
Inductive percent_result :=
| Percent (n : Z)
| Swallowed          (* ValueError or IndexError: caught, nothing emitted *)
| Overflow.          (* OverflowError: not caught by the inner handler *)

(** [int(x)] of a float: truncation toward zero. *)
Definition int_of_float (x : pyfloat) : percent_result :=
  match x with
  | Finite negative m e =>
      let a := if 0 <=? e then m * 2 ^ e else m / 2 ^ (- e) in
      Percent (if negative then - a else a)
  | Infinity _ => Overflow
  | NaN => Swallowed
  end.

(** [line.split('%')[0].split()[-1]]; [None] stands for [IndexError]. *)
Definition percent_token (line : string) : option string :=
  match rev (split (before_char "%" line)) with
  | tok :: _ => Some tok
  | [] => None
  end.

Definition percent_of (line : string) : percent_result :=
  match percent_token line with
  | Some tok =>
      match py_float tok with
      | Some x => int_of_float x
      | None => Swallowed
      end
  | None => Swallowed
  end.

(** The signals of the thread. *)
Inductive signal :=
| progress (line : string)
| scan_percent (percent : Z)
| finished (output : string).

(** The text that the handler [except Exception as e] emits with
    [finished], [text] being [str(e)]. *)
Definition error_message (text : string) : string :=
  "An error occurred during Nmap scan: " ++ text.

Definition overflow_message : string :=
  "An error occurred during Nmap scan: cannot convert float infinity to integer".

(** The integers that [scan_percent = Signal(int)] carries: the signal is
    declared with the C++ type [int], and the emit of a Python integer
    outside its 32 bits raises OverflowError. *)
Definition c_int (n : Z) : bool := (- 2 ^ 31 <=? n) && (n <? 2 ^ 31).

Section Worker.

(** [str(e)] of the OverflowError raised by the emit of an integer outside
    the C++ [int]: the wording is the binding's, not the program's. *)
Variable emit_error_text : Z -> string.

(** The loop of [run] over the lines read, [output] being the text
    gathered so far, and what follows the loop. *)
Fixpoint run_lines (output : string) (lines : list string) : list signal :=
  match lines with
  | [] => [finished output]
  | line :: rest =>
      if contains "Unknown property" line then run_lines output rest
      else
        progress (strip line) ::
        (if contains "% done" line then
           match percent_of line with
           | Percent n =>
               if c_int n
               then scan_percent n :: run_lines (output ++ line) rest
               else [finished (error_message (emit_error_text n))]
           | Swallowed => run_lines (output ++ line) rest
           | Overflow => [finished overflow_message]
           end
         else run_lines (output ++ line) rest)
  end.

End Worker.

End Scan.

(** ** The writes of a parse pass, as data

    When the storage layer refuses nothing, what a line does to the store
    depends on the store only through the writes below; which write a line
    asks for, and the next state of the loop, depend on the text alone. *)

Module Trace.
Import PyStr Re Store Conn Parser.

Inductive op :=
| SaveDevice (ip : string) (mac vendor os : option string)
| OpenPort (ip : string) (port : Z) (service : string)
| ScriptFinding (ip : string) (port : Z) (service evidence : string).

(** The section rule a line reaches, if any: the host it is read for. *)
Definition in_ports (st : pstate) : option string :=
  if parsing_ports_section st then truthy (current_ip st) else None.

Definition in_script (st : pstate) : option string :=
  if parsing_host_script_results st then truthy (current_ip st) else None.

(** A line that none of the classifier's own rules takes: it is left to
    the rule of the active section. *)
Definition is_content (line : string) : bool :=
  negb (is_empty line) && negb (contains host_marker line)
  && match mac_search line with Some _ => false | None => true end
  && match os_search line with Some _ => false | None => true end
  && negb (startswith line ports_marker)
  && negb (startswith line script_marker)
  && negb (is_noise line).

Definition line_op (st : pstate) (raw : string) : option op :=
  let line := strip raw in
  if is_empty line then None
  else if contains host_marker line then
    match truthy (current_ip st) with
    | Some ip =>
        Some (SaveDevice ip (current_mac st) (current_vendor st)
                         (current_os st))
    | None => None
    end
  else if is_content line then
    match in_ports st with
    | Some ip =>
        let parts := split line in
        if is_port_row parts
           && String.eqb (nth 1 parts EmptyString) "open" then
          match py_int (before_char "/" (nth 0 parts EmptyString)) with
          | Some port_num =>
              Some (OpenPort ip port_num (nth 2 parts EmptyString))
          | None => None
          end
        else None
    | None =>
        match in_script st with
        | Some ip =>
            if is_script_line line && is_vulnerable (strip line) then
              Some (ScriptFinding ip (script_port (strip line))
                                  (script_service (strip line)) (strip line))
            else None
        | None => None
        end
    end
  else None.

Definition next_pstate (st : pstate) (raw : string) : pstate :=
  let line := strip raw in
  if is_empty line then st
  else if contains host_marker line then
    mkPstate (Some (header_ip line)) None None None false false
  else
    match mac_search line with
    | Some (mac, vendor) =>
        mkPstate (current_ip st) (Some mac) vendor (current_os st)
                 (parsing_ports_section st) (parsing_host_script_results st)
    | None =>
    match os_search line with
    | Some (g1, g2) =>
        mkPstate (current_ip st) (current_mac st) (current_vendor st)
                 (match truthy g1 with
                  | Some o => Some o
                  | None => match truthy g2 with
                            | Some o => Some o
                            | None => current_os st
                            end
                  end)
                 (parsing_ports_section st) (parsing_host_script_results st)
    | None =>
    if startswith line ports_marker then
      mkPstate (current_ip st) (current_mac st) (current_vendor st)
               (current_os st) true false
    else if startswith line script_marker then
      mkPstate (current_ip st) (current_mac st) (current_vendor st)
               (current_os st) false true
    else if is_noise line then st
    else
      match in_ports st with
      | Some _ =>
          if negb (is_port_row (split line)) && is_empty (strip line) then
            mkPstate (current_ip st) (current_mac st) (current_vendor st)
                     (current_os st) false (parsing_host_script_results st)
          else st
      | None =>
          match in_script st with
          | Some _ =>
              if negb (is_script_line line) && is_empty (strip line) then
                mkPstate (current_ip st) (current_mac st) (current_vendor st)
                         (current_os st) (parsing_ports_section st) false
              else st
          | None => st
          end
      end
    end
    end.

(** The writes of the loop over [lines] started in state [st], in order,
    and the state in which the loop ends. *)
Fixpoint loop_ops (st : pstate) (lines : list string) : list op :=
  match lines with
  | [] => []
  | raw :: rest =>
      match line_op st raw with
      | Some o => o :: loop_ops (next_pstate st raw) rest
      | None => loop_ops (next_pstate st raw) rest
      end
  end.

Fixpoint loop_end (st : pstate) (lines : list string) : pstate :=
  match lines with
  | [] => st
  | raw :: rest => loop_end (next_pstate st raw) rest
  end.

(** The accumulator when the stream ends, and the final save. *)
Definition final_pstate (nmap_output : string) : pstate :=
  loop_end initial_pstate (splitlines nmap_output).

Definition final_op (st : pstate) : list op :=
  match truthy (current_ip st) with
  | Some ip =>
      [SaveDevice ip (current_mac st) (current_vendor st) (current_os st)]
  | None => []
  end.

Definition ops_of (nmap_output : string) : list op :=
  loop_ops initial_pstate (splitlines nmap_output)
  ++ final_op (final_pstate nmap_output).

(** What a write does to the store; [None] when its port cannot be bound. *)
Definition apply_op (ts : string) (o : op) (d : db) : option db :=
  match o with
  | SaveDevice ip mac vendor os =>
      Some (update_device ts mac vendor os ip (insert_or_ignore_device ip d))
  | OpenPort ip port service =>
      if sqlite_int64 port then
        Some (match select_vuln_id ip port service d with
              | None => insert_vuln ip port service "Open port detected"
                                    "Informational" ts d
              | Some _ => d
              end)
      else None
  | ScriptFinding ip port service evidence =>
      if sqlite_int64 port then
        Some (match select_vuln_id ip port service d with
              | Some id => update_vuln evidence "High" ts id d
              | None => insert_vuln ip port service evidence "High" ts d
              end)
      else None
  end.

Fixpoint apply_ops (ts : string) (ops : list op) (d : db) : option db :=
  match ops with
  | [] => Some d
  | o :: rest =>
      match apply_op ts o d with
      | Some d' => apply_ops ts rest d'
      | None => None
      end
  end.

(** The writes after which the loop commits. *)
Definition commits (o : op) : bool :=
  match o with
  | SaveDevice _ _ _ _ => true
  | OpenPort _ _ _ => false
  | ScriptFinding _ _ _ _ => true
  end.

(** Outside a transaction the working copy is the committed one. *)
Definition settled (c : conn) : Prop :=
  in_transaction c = false -> committed c = working c.

(** The connection after the write [o] has produced the working copy [w],
    when nothing is refused: a save and a script finding are committed; an
    open port is not, and opens a transaction only when it inserts. *)
Definition op_conn (o : op) (c : conn) (w : db) : conn :=
  match o with
  | OpenPort ip port service =>
      mkConn (committed c) w
             (match select_vuln_id ip port service (working c) with
              | None => true
              | Some _ => in_transaction c
              end) []
  | _ => mkConn w w false []
  end.

End Trace.

(** ** Summaries of a pass

    What the proofs say about a pass as a whole: the hosts it saves, and the
    rows it leaves, which are the rows it found and the rows it inserted,
    each rewritten by the last write that names it: a devices row by the
    last save of its ip, the first vulnerabilities row of a key by the last
    script finding of that key. *)

Module Summary.
Import PyStr Re Store Conn Parser Trace.

Definition ips (d : db) : list string := map d_ip (devices d).

Definition saves (H : string) (ops : list op) : Prop :=
  exists mac vendor os, In (SaveDevice H mac vendor os) ops.

(** A write whose integer parameter SQLite can store. *)
Definition op_fits (o : op) : bool :=
  match o with
  | SaveDevice _ _ _ _ => true
  | OpenPort _ port _ => sqlite_int64 port
  | ScriptFinding _ port _ _ => sqlite_int64 port
  end.

Definition key : Type := (string * Z * string)%type.

Definition key_of (r : vuln) : key := (v_device_ip r, v_port r, v_service r).

Definition key_eqb (k1 k2 : key) : bool :=
  let '(i1, p1, s1) := k1 in
  let '(i2, p2, s2) := k2 in
  String.eqb i1 i2 && (p1 =? p2) && String.eqb s1 s2.

Definition op_key (o : op) : option key :=
  match o with
  | SaveDevice _ _ _ _ => None
  | OpenPort ip port service => Some (ip, port, service)
  | ScriptFinding ip port service _ => Some (ip, port, service)
  end.

(** What the script rule stores for the key (ip, port, service): the first
    row with the key is rewritten, or a row is appended. *)
Definition escalate (ts ip : string) (port : Z) (service evidence : string)
           (d : db) : db :=
  match find (has_key ip port service) (vulnerabilities d) with
  | Some r => update_vuln evidence "High" ts (v_id r) d
  | None => insert_vuln ip port service evidence "High" ts d
  end.

(** The evidence of the last script finding of the pass for the key [k]. *)
Fixpoint last_script (ops : list op) (k : key) : option string :=
  match ops with
  | [] => None
  | o :: rest =>
      match last_script rest k with
      | Some ev => Some ev
      | None =>
          match o with
          | ScriptFinding ip port service ev =>
              if key_eqb (ip, port, service) k then Some ev else None
          | _ => None
          end
      end
  end.

Definition final_row (ts : string) (ops : list op) (r : vuln) : vuln :=
  match last_script ops (key_of r) with
  | Some ev => set_vuln ev "High" ts r
  | None => r
  end.

Definition seen_key (seen : list key) (r : vuln) : bool :=
  existsb (key_eqb (key_of r)) seen.

(** [g] applied to the first row of each key that is not in [seen]. *)
Fixpoint map_firsts (g : vuln -> vuln) (seen : list key) (vs : list vuln)
  : list vuln :=
  match vs with
  | [] => []
  | r :: vs' =>
      (if seen_key seen r then r else g r)
        :: map_firsts g (key_of r :: seen) vs'
  end.

(** [f] applied to the first row with the key [k]. *)
Fixpoint upd_first (k : key) (f : vuln -> vuln) (vs : list vuln) : list vuln :=
  match vs with
  | [] => []
  | r :: vs' =>
      if key_eqb (key_of r) k then f r :: vs' else r :: upd_first k f vs'
  end.

(** The values of the last save of the pass for the address [ip]. *)
Fixpoint last_save (ops : list op) (ip : string)
  : option (option string * option string * option string) :=
  match ops with
  | [] => None
  | o :: rest =>
      match last_save rest ip with
      | Some x => Some x
      | None =>
          match o with
          | SaveDevice ip' mac vendor os =>
              if String.eqb ip' ip then Some (mac, vendor, os) else None
          | _ => None
          end
      end
  end.

Definition final_device (ts : string) (ops : list op) (r : device) : device :=
  match last_save ops (d_ip r) with
  | Some (mac, vendor, os) => set_device ts mac vendor os r
  | None => r
  end.

(** The summary of a pass on the vulnerabilities table: [news] are the rows
    the pass inserted, as they were inserted. *)
Definition vulns_summary (ts : string) (ops : list op) (d d' : db)
           (news : list vuln) : Prop :=
  vulnerabilities d'
  = map_firsts (final_row ts ops) [] (vulnerabilities d ++ news)
  /\ NoDup (map v_id (vulnerabilities d ++ news))
  /\ (forall o k, In o ops -> op_key o = Some k ->
                  In k (map key_of (vulnerabilities d ++ news)))
  /\ (forall r, In r news ->
                ~ In (key_of r) (map key_of (vulnerabilities d))
                /\ exists o, In o ops /\ op_key o = Some (key_of r))
  /\ (news = [] -> vulnerabilities_seq d' = vulnerabilities_seq d).

Definition devices_summary (ts : string) (ops : list op) (d d' : db)
           (news : list device) : Prop :=
  devices d' = map (final_device ts ops) (devices d ++ news)
  /\ (forall H, saves H ops -> In H (map d_ip (devices d ++ news)))
  /\ (forall r, In r news -> ~ In (d_ip r) (ips d) /\ saves (d_ip r) ops)
  /\ devices_seq d <= devices_seq d'.

(** The lines of one report: those before the next host header. *)
Fixpoint report_body (lines : list string) : list string :=
  match lines with
  | [] => []
  | l :: rest =>
      if contains host_marker l then [] else l :: report_body rest
  end.

(** The accumulator as a header for the host [H] leaves it. *)
Definition fresh_pstate (H : string) : pstate :=
  mkPstate (Some H) None None None false false.

Definition same_but_last_seen (r1 r2 : device) : Prop :=
  r2 = mkDevice (d_id r1) (d_ip r1) (d_mac r1) (d_vendor r1) (d_os r1)
                (d_status r1) (d_last_seen r2).

Definition same_but_timestamp (r1 r2 : vuln) : Prop :=
  r2 = mkVuln (v_id r1) (v_device_ip r1) (v_port r1) (v_service r1)
              (v_script_output r1) (v_severity r1) (v_timestamp r2).

Fixpoint all_chars (q : ascii -> bool) (s : string) : bool :=
  match s with
  | EmptyString => true
  | String c s' => q c && all_chars q s'
  end.

(** Whether [m] is not empty and ends with a character outside [p]. *)
Fixpoint ends_outside (p : ascii -> bool) (m : string) : bool :=
  match m with
  | EmptyString => false
  | String a EmptyString => negb (p a)
  | String _ m' => ends_outside p m'
  end.

(** Whether [s] is not empty and ends with a character of the class [p]. *)
Fixpoint ends_in (p : ascii -> bool) (s : string) : bool :=
  match s with
  | EmptyString => false
  | String a EmptyString => p a
  | String _ s' => ends_in p s'
  end.

(** The characters of [\d] and of [\s] on the alphabet of this file. *)
Definition digit_chars : list ascii := list_ascii_of_string "0123456789".

Definition space_chars : list ascii :=
  map ascii_of_nat [9; 10; 11; 12; 13; 28; 29; 30; 31; 32; 133; 160]%nat.

(** No character of [cs] stands just before an occurrence of [t] in [s]. *)
Definition none_before (cs : list ascii) (t s : string) : bool :=
  forallb (fun c => negb (contains (String c t) s)) cs.

(** No digit stands in [s] just before '/tcp' followed by white space. *)
Definition no_service_pattern (s : string) : bool :=
  forallb (fun w => none_before digit_chars ("/tcp" ++ String w EmptyString) s)
          space_chars.

End Summary.

(** ** The inputs of the scenarios *)

Module Scenario.
Import Store Parser.

Definition LF : string := String "010" EmptyString.

Definition c10_output : string :=
  "PORT      STATE SERVICE" ++ String "010" "80/tcp open http"
  ++ String "010" "MAC Address: AA:BB:CC:DD:EE:FF (Acme Corp)"
  ++ String "010" "Host script results:"
  ++ String "010" "|_smb-vuln-ms17-010: VULNERABLE".

Definition c6_db : db :=
  mkDb [mkDevice 1 "10.0.0.5" (Some "AA:BB:CC:DD:EE:FF") (Some "Acme Corp")
                 (Some "Linux 5.4") (Some "up") (Some "2026-01-01T00:00:00")]
       1 [] 0.

Definition c6_output : string := "Nmap scan report for 10.0.0.5".

Definition c7_output : string :=
  "Nmap scan report for 10.0.0.5" ++ LF
  ++ "MAC Address: AA:BB:CC:DD:EE:FF (Acme Corp)" ++ LF
  ++ "PORT      STATE SERVICE" ++ LF
  ++ "80/tcp    open  http" ++ LF
  ++ LF.

Definition c5_output : string :=
  "Nmap scan report for 10.0.0.5" ++ LF
  ++ "PORT      STATE SERVICE" ++ LF
  ++ LF
  ++ "80/tcp open http" ++ LF.

Definition c9_output : string :=
  "Nmap scan report for 10.0.0.5" ++ LF
  ++ "PORT      STATE SERVICE" ++ LF
  ++ "80/tcp open http" ++ LF
  ++ "Nmap scan report for 10.0.0.6" ++ LF
  ++ "PORT      STATE SERVICE" ++ LF
  ++ "22/tcp open ssh" ++ LF.

Definition c4_state : pstate :=
  mkPstate (Some "10.0.0.5") None None None true false.

Definition c3_state : pstate :=
  mkPstate (Some "10.0.0.5") None None None false true.

Definition c1_db : db :=
  mkDb [] 0
       [mkVuln 1 "10.0.0.5" 445 "microsoft-ds" "Open port detected"
               "Informational" "2026-01-01T00:00:00"] 1.

Definition c1_output : string :=
  "Nmap scan report for 10.0.0.5" ++ LF
  ++ "PORT      STATE SERVICE" ++ LF
  ++ "80/tcp    open  http" ++ LF
  ++ "Host script results:" ++ LF
  ++ "| smb-vuln-ms17-010: VULNERABLE on 445/tcp microsoft-ds" ++ LF.

Definition c1_after_first : db :=
  mkDb [mkDevice 1 "10.0.0.5" None None None (Some "up")
                 (Some "2026-01-02T00:00:00")] 1
       [mkVuln 1 "10.0.0.5" 445 "microsoft-ds"
               "| smb-vuln-ms17-010: VULNERABLE on 445/tcp microsoft-ds"
               "High" "2026-01-02T00:00:00";
        mkVuln 2 "10.0.0.5" 80 "http" "Open port detected" "Informational"
               "2026-01-02T00:00:00"] 2.

Definition c8_line : string := "About 42.50% done; ETC: ..." ++ LF.

End Scenario.

(** ** Further inputs *)

Module Cases.
Import Store Parser.

(** A store that already holds a High finding for (10.0.0.5, 80, http). *)
Definition high_finding_db : db :=
  mkDb [] 0
       [mkVuln 1 "10.0.0.5" 80 "http" "|_http-vuln-cve2021-41773: VULNERABLE"
               "High" "2026-01-01T00:00:00"] 1.

(** The host a finding is filed under ([None] for a device save). *)
Definition finding_ip (o : Trace.op) : option string :=
  match o with
  | Trace.SaveDevice _ _ _ _ => None
  | Trace.OpenPort ip _ _ => Some ip
  | Trace.ScriptFinding ip _ _ _ => Some ip
  end.

End Cases.

(** ** Reading the signals of a run *)

Module Signals.
Import PyStr Scan.

(** The lines the loop keeps: those without 'Unknown property'. *)
Definition kept (lines : list string) : list string :=
  filter (fun line => negb (contains "Unknown property" line)) lines.

(** The texts of the progress signals, in order. *)
Fixpoint progress_texts (sigs : list signal) : list string :=
  match sigs with
  | [] => []
  | progress line :: rest => line :: progress_texts rest
  | _ :: rest => progress_texts rest
  end.

Definition is_finished (s : signal) : bool :=
  match s with finished _ => true | _ => false end.

(** A '% done' line on which [int(float(...))] raises OverflowError. *)
Definition overflows (line : string) : bool :=
  contains "% done" line
  && match percent_of line with Overflow => true | _ => false end.

(** A '% done' line that ends the loop: its percentage is infinite, or it
    is finite and outside the C++ [int] of the signal. *)
Definition aborts (line : string) : bool :=
  contains "% done" line
  && match percent_of line with
     | Overflow => true
     | Percent n => negb (c_int n)
     | Swallowed => false
     end.

(** The text that [finished] carries when the line ends the loop. *)
Definition abort_text (emit_error_text : Z -> string) (line : string)
  : option string :=
  if contains "% done" line then
    match percent_of line with
    | Overflow => Some overflow_message
    | Percent n =>
        if c_int n then None
        else Some (error_message (emit_error_text n))
    | Swallowed => None
    end
  else None.

(** The decimal digit [n] and the decimal writing of a number below 1000. *)
Definition digit_char (n : nat) : string :=
  String (ascii_of_nat (48 + n)) EmptyString.

Definition decimal (n : nat) : string :=
  if Nat.ltb n 10 then digit_char n
  else if Nat.ltb n 100
       then digit_char (Nat.div n 10) ++ digit_char (Nat.modulo n 10)
       else digit_char (Nat.div n 100)
            ++ digit_char (Nat.modulo (Nat.div n 10) 10)
            ++ digit_char (Nat.modulo n 10).

(** The statistics line nmap prints for [p.ab] percent. *)
Definition stats_line (p a b : nat) : string :=
  "Stats: 0:00:12 elapsed; About " ++ decimal p ++ "." ++ digit_char a
  ++ digit_char b ++ "% done; ETC: 12:00 (0:00:10 remaining)"
  ++ String "010" EmptyString.

End Signals.

(** ** [build_exe.py]: the arguments given to PyInstaller

    The paths of the script depend on where it lies: [root_file name] is the
    text of [project_root / name], and [pathsep] is [os.pathsep]. *)

Module BuildExe.

Definition APP_NAME : string := "CyberRangeScanner".
Definition SCRIPT_FILE : string := "cyberrange_scanner.py".
Definition ICON_FILE : string := "icon.ico".
Definition DATA_FILES : list (string * string) :=
  [("icons", "icons"); ("icon.ico", ".")].

Definition icon_arg (root_file : string -> string) : string :=
  "--icon=" ++ root_file ICON_FILE.

(** The list [pyinstaller_args] as the module builds it when it is loaded. *)
Definition pyinstaller_args (root_file : string -> string) (pathsep : string)
  : list string :=
  (["--name"; APP_NAME; "--onefile"; "--noconsole"; icon_arg root_file;
    "--distpath"; root_file "dist"]
   ++ flat_map (fun df : string * string =>
                  ["--add-data";
                   (root_file (fst df) ++ pathsep ++ snd df)%string])
               DATA_FILES
   ++ [root_file SCRIPT_FILE])%list.

(** [l.index(x)]; [None] stands for [ValueError]. *)
Fixpoint index (x : string) (l : list string) : option Z :=
  match l with
  | [] => None
  | y :: l' =>
      if String.eqb y x then Some 0
      else option_map Z.succ (index x l')
  end.

(** [l.pop(i)]: the list without its element [i], a negative [i] counting
    from the end; [None] stands for [IndexError]. *)
Definition pop (i : Z) (l : list string) : option (list string) :=
  let n := Z.of_nat (length l) in
  let j := if i <? 0 then i + n else i in
  if (0 <=? j) && (j <? n)
  then Some (firstn (Z.to_nat j) l ++ skipn (S (Z.to_nat j)) l)%list
  else None.

Inductive outcome :=
| Runs (args : list string)   (* PyInstaller is run with these arguments *)
| Exits                       (* exit(1): the main script is missing *)
| Fails.                      (* an IndexError leaves the script *)

(** The main block, given whether the script and the icon exist. *)
Definition main (root_file : string -> string) (pathsep : string)
           (script_exists icon_exists : bool) : outcome :=
  let args := pyinstaller_args root_file pathsep in
  if negb script_exists then Exits
  else if negb icon_exists then
    match index (icon_arg root_file) args with
    | Some icon_index =>
        match pop icon_index args with
        | Some args1 =>
            match pop (icon_index - 1) args1 with
            | Some args2 => Runs args2
            | None => Fails
            end
        | None => Fails
        end
    | None => Runs args
    end
  else Runs args.

End BuildExe.

(** ** [NetworkScanPage.start_scan]: the command of a scan

    The widgets are read once; their contents are the fields of the form.
    [reports_file name] is the text of [REPORTS / name], and the time stamp
    of the output files is read from the clock. *)

Module StartScan.
Import PyStr.

(** [s.split(sep)] for a separator of one character: every occurrence
    splits, and empty pieces are kept. *)
Fixpoint split_on_go (sep : ascii) (cur s : string) : list string :=
  match s with
  | EmptyString => [cur]
  | String c s' =>
      if Ascii.eqb c sep then cur :: split_on_go sep EmptyString s'
      else split_on_go sep (cur ++ String c EmptyString) s'
  end.

Definition split_on (sep : ascii) (s : string) : list string :=
  split_on_go sep EmptyString s.

Record scan_form := mkForm {
  target_input : string;
  exclude_input : string;
  scan_type : string;
  os_detection : bool;
  version_intensity : string;
  output_xml : bool;
  output_greppable : bool
}.

(** [templates.get(name, [])]. *)
Fixpoint template_flags (templates : list (string * list string))
         (name : string) : list string :=
  match templates with
  | [] => []
  | (n, flags) :: rest =>
      if String.eqb n name then flags else template_flags rest name
  end.

(** The flag read from the text of the version-intensity box.  The text
    contains 'Version Intensity: ' where its third piece is taken, so the
    piece exists. *)
Definition version_flags (text : string) : list string :=
  if contains "Default" text then []
  else if contains "Version Intensity: " text then
    ["--version-intensity " ++ nth 2 (split_on " " text) EmptyString]
  else if contains "-sV" text then ["-sV"]
  else [].

(** [[t.strip() for t in pieces if t.strip()]]. *)
Definition stripped_pieces (pieces : list string) : list string :=
  map strip (filter (fun t => negb (is_empty (strip t))) pieces).

Definition parse_targets (target_text : string) : list string :=
  if contains "," target_text then stripped_pieces (split_on "," target_text)
  else if contains " " target_text
       then stripped_pieces (split_on " " target_text)
       else [target_text].

Definition scan_flags (templates : list (string * list string))
           (reports_file : string -> string) (timestamp : string)
           (f : scan_form) : list string :=
  (template_flags templates (scan_type f)
   ++ (if os_detection f then ["-O"] else [])
   ++ version_flags (version_intensity f)
   ++ (if is_empty (strip (exclude_input f)) then []
       else ["--exclude"; strip (exclude_input f)])
   ++ (if output_xml f
       then [("-oX " ++ reports_file ("scan_" ++ timestamp ++ ".xml"))%string]
       else [])
   ++ (if output_greppable f
       then [("-oG "
              ++ reports_file ("scan_" ++ timestamp ++ ".gnmap"))%string]
       else []))%list.

(** What [start_scan] hands to the scan thread: target, scan type and
    flags; [None] when the target is empty and only a warning is shown. *)
Definition start_scan (templates : list (string * list string))
           (reports_file : string -> string) (timestamp : string)
           (f : scan_form) : option (string * string * list string) :=
  let target_text := strip (target_input f) in
  if is_empty target_text then None
  else Some (target_text, scan_type f,
             (parse_targets target_text
              ++ scan_flags templates reports_file timestamp f)%list).

(** The command [ScanThread.run] executes for a target and flags. *)
Definition scan_command (target : string) (flags : list string)
  : list string :=
  (["nmap"; "-v"; "--stats-every"; "1s"; target] ++ flags)%list.

(** A form with blank pieces in its target list. *)
Definition two_targets_form : scan_form :=
  mkForm " 10.0.0.5, 10.0.0.6 ,," "" "Quick Scan" true
         "Version Intensity: 9 (--version-intensity 9)" false false.

End StartScan.

(** ** [BaseTablePage.filter_table]: the rows a search hides

    A table is the list of its rows, a row the texts of its cells. *)

Module TablePage.
Import PyStr.

(** [any(text.lower() in cell.lower() for each cell of the row)]. *)
Definition row_matches (text : string) (cells : list string) : bool :=
  existsb (fun cell => contains (lower text) (lower cell)) cells.

(** The rows [filter_table] hides: one flag per row. *)
Definition filter_table (text : string) (rows : list (list string))
  : list bool :=
  map (fun cells => negb (row_matches text cells)) rows.

End TablePage.

(** ** [NetworkScanPage.finish_scan] and what the pages show

    The slot that receives the worker's output, with the slots it calls in
    turn: [save_scan_results], then (through the signal scan_completed)
    [MainWindow.handle_scan_completion], which refreshes the dashboard and
    reloads the three table pages, then [parse_and_store_nmap], then
    [update_dashboard].  The table [scans] joins the two tables of the
    store; each function opens its own connection. *)

Module App.
Import PyStr Store Conn Parser.

Record scan_row := mkScan {
  s_id : Z;
  s_target : string;
  s_scan_type : string;
  s_timestamp : string;
  s_results : string
}.

Record app := mkApp {
  scans : list scan_row;
  scans_seq : Z;
  store : db
}.

(** [save_scan_results]: one INSERT and a commit; any exception is logged
    and swallowed.  [refused] says whether the storage layer refuses the
    INSERT or the COMMIT: either way nothing is stored. *)
Definition save_scan_results (refused : bool)
           (target scan_type now results : string) (a : app) : app :=
  if refused then a
  else
    let id := next_rowid (scans_seq a) (map s_id (scans a)) in
    mkApp (scans a ++ [mkScan id target scan_type now results]) id (store a).

(** The four counters of [update_dashboard]. *)
Record stats := mkStats {
  total_scans : nat;
  discovered_devices : nat;
  live_hosts : nat;
  vulnerabilities_found : nat
}.

Definition is_up (r : device) : bool :=
  match d_status r with
  | Some s => String.eqb s "up"
  | None => false
  end.

Definition update_dashboard (a : app) : stats :=
  mkStats (length (scans a)) (length (devices (store a)))
          (length (filter is_up (devices (store a))))
          (length (vulnerabilities (store a))).

(** The rows that the [load_data] of each page selects. *)
Definition devices_page (a : app) :=
  map (fun r => (d_ip r, d_mac r, d_vendor r, d_os r, d_status r,
                 d_last_seen r))
      (devices (store a)).

Definition vulnerabilities_page (a : app) :=
  map (fun r => (v_device_ip r, v_port r, v_service r, v_script_output r,
                 v_severity r, v_timestamp r))
      (vulnerabilities (store a)).

(** [SELECT id, target, scan_type, timestamp FROM scans ORDER BY id DESC]. *)
Definition reports_page (a : app) :=
  rev (map (fun r => (s_id r, s_target r, s_scan_type r, s_timestamp r))
           (scans a)).

(** The verdict of [finish_scan] on the output: [true] for 'completed
    successfully'. *)
Definition scan_succeeded (output : string) : bool :=
  contains "Nmap done: 1 IP address (1 host up)" output
  || contains "Nmap done: 1 IP address (0 hosts up)" output.

(** What [finish_scan] leaves: the verdict it reports, the state of the
    application, what the three pages and the dashboard show, and how the
    parse ended. *)
Record finished_scan := mkFinished {
  verdict : bool;
  after : app;
  shown_devices : list (string * option string * option string
                        * option string * option string * option string);
  shown_vulnerabilities : list (string * Z * string * string * string
                                * string);
  shown_reports : list (Z * string * string * string);
  shown_stats : stats;
  parse_outcome : result unit
}.

Definition finish_scan (save_refused : bool) (fs : list bool)
           (target scan_type now ts : string) (a : app) (output : string)
  : finished_scan :=
  let a1 := save_scan_results save_refused target scan_type now output a in
  (* scan_completed: handle_scan_completion *)
  let stats1 := update_dashboard a1 in
  let dev := devices_page a1 in
  let vul := vulnerabilities_page a1 in
  let rep := reports_page a1 in
  (* parse_and_store_nmap, then update_dashboard when it returns *)
  let (r, d') := run fs (store a1) output ts in
  let a2 := mkApp (scans a1) (scans_seq a1) d' in
  mkFinished (scan_succeeded output) a2 dev vul rep
             (match r with
              | Ok _ => update_dashboard a2
              | Raise _ => stats1
              end)
             r.

End App.

(** ** Properties of the store that hold on both copies of a connection *)

Module Invariant.
Import Store Conn Summary.

Definition conn_holds (P : db -> Prop) (c : conn) : Prop :=
  P (committed c) /\ P (working c).

(** The rows of [d0] are still in [d], at their place, with their ids and
    keys. *)
Definition rows_kept (d0 d : db) : Prop :=
  (exists added,
      map (fun r => (d_id r, d_ip r)) (devices d)
      = (map (fun r => (d_id r, d_ip r)) (devices d0) ++ added)%list)
  /\ exists added,
       map (fun r => (v_id r, v_device_ip r, v_port r, v_service r))
           (vulnerabilities d)
       = (map (fun r => (v_id r, v_device_ip r, v_port r, v_service r))
              (vulnerabilities d0) ++ added)%list.

(** No two findings share (device_ip, port, service). *)
Definition natural_key_unique (d : db) : Prop :=
  NoDup (map (fun r => (v_device_ip r, v_port r, v_service r))
             (vulnerabilities d)).

(** The row [r] is still in [d], under its id and key, as it was or raised
    to 'High' at the time [ts]. *)
Definition never_lowered (ts : string) (r : vuln) (d : db) : Prop :=
  exists r',
    In r' (vulnerabilities d)
    /\ v_id r' = v_id r /\ key_of r' = key_of r
    /\ (r' = r \/ (v_severity r' = "High" /\ v_timestamp r' = ts))
    /\ (v_severity r = "High" -> v_severity r' = "High").

End Invariant.

(** * Proofs *)

Import PyStr Re Store Conn Parser Trace Summary Scenario.

(** ** The string primitives on examples *)

Example split_ex : PyStr.split "  80/tcp    open  http " = ["80/tcp"; "open"; "http"].
Proof. reflexivity. Qed.
Example mac_ex : Re.mac_search "MAC Address: AA:BB:CC:DD:EE:FF (Acme Corp)" = Some ("AA:BB:CC:DD:EE:FF", Some "Acme Corp").
Proof. reflexivity. Qed.
Example os_ex : Re.os_search "xx os DETAILS: Linux 5" = Some (None, Some "Linux 5").
Proof. reflexivity. Qed.
Example svc_ex : Re.service_search "| 1/tcpx  445/tcp   open" = Some ("445", "open").
Proof. reflexivity. Qed.
Example port_ex : Re.port_search "| 1/tcx  445/tcp" = Some "445".
Proof. reflexivity. Qed.

(** ** A pass without faults performs its writes in order *)

Lemma parse_line_pure ts st raw c :
  faults c = [] ->
  parse_line ts st raw c =
  match line_op st raw with
  | None => (Ok (next_pstate st raw), c)
  | Some o =>
      match apply_op ts o (working c) with
      | Some w => (Ok (next_pstate st raw), op_conn o c w)
      | None => (Raise OverflowError, c)
      end
  end.
Proof.
  intros Hf. destruct c as [cm w t fs]. simpl in Hf. subst fs.
  unfold parse_line, line_op, next_pstate, is_content.
  destruct (is_empty (strip raw)) eqn:He; [reflexivity|].
  destruct (contains host_marker (strip raw)) eqn:Hh.
  { destruct (truthy (current_ip st)); reflexivity. }
  destruct (mac_search (strip raw)) as [[m v]|] eqn:Hm; [reflexivity|].
  destruct (os_search (strip raw)) as [[g1 g2]|] eqn:Ho; [reflexivity|].
  destruct (startswith (strip raw) ports_marker) eqn:Hp; [reflexivity|].
  destruct (startswith (strip raw) script_marker) eqn:Hs; [reflexivity|].
  destruct (is_noise (strip raw)) eqn:Hn; [reflexivity|].
  cbn [negb andb].
  unfold in_ports, in_script.
  destruct (if parsing_ports_section st then truthy (current_ip st) else None)
    as [ip|] eqn:Hip.
  { unfold ports_rule.
    destruct (is_port_row (split (strip raw))) eqn:Hr; cbn [negb andb].
    - destruct (py_int _) as [n|] eqn:Hi.
      + destruct (String.eqb (nth 1 (split (strip raw)) "") "open") eqn:Hopen.
        * unfold apply_op, op_conn, exec_select_vuln_id, exec_insert_vuln,
            bind_int.
          destruct (sqlite_int64 n) eqn:Hfit; [|reflexivity].
          unfold bind, ret, step_fault, read, write, begin; cbn.
          destruct (select_vuln_id ip n _ w) eqn:Hsel; cbn;
            rewrite ?Hfit; reflexivity.
        * destruct (String.eqb _ _); reflexivity.
      + destruct (String.eqb _ _); reflexivity.
    - destruct (is_empty (strip (strip raw))); reflexivity. }
  destruct (if parsing_host_script_results st then truthy (current_ip st) else None)
    as [ip|] eqn:Hip2; [|reflexivity].
  unfold script_rule.
  destruct (is_script_line (strip raw)) eqn:Hsl; cbn [negb andb].
  - destruct (is_vulnerable (strip (strip raw))) eqn:Hv; [|reflexivity].
    unfold apply_op, op_conn, exec_select_vuln_id, exec_insert_vuln,
      exec_update_vuln, bind_int.
    destruct (sqlite_int64 _) eqn:Hfit; [|reflexivity].
    unfold bind, ret, step_fault, read, write, begin, try_except_sqlite,
      commit; cbn.
    destruct (select_vuln_id ip _ _ w) eqn:Hsel; cbn; rewrite ?Hfit;
      reflexivity.
  - destruct (is_empty (strip (strip raw))); reflexivity.
Qed.

Lemma apply_ops_app ts ops1 ops2 d :
  apply_ops ts (ops1 ++ ops2) d =
  match apply_ops ts ops1 d with
  | Some d' => apply_ops ts ops2 d'
  | None => None
  end.
Proof.
  revert d. induction ops1 as [|o ops1 IH]; intros d; simpl; [reflexivity|].
  destruct (apply_op ts o d); [apply IH | reflexivity].
Qed.

Lemma op_conn_settled ts o c w :
  settled c -> apply_op ts o (working c) = Some w -> settled (op_conn o c w).
Proof.
  unfold settled. destruct o as [ip m v os | ip p s | ip p s ev]; simpl;
    try reflexivity.
  intros Hc. destruct (sqlite_int64 p); [|discriminate].
  destruct (select_vuln_id ip p s (working c)); [|discriminate].
  intros E Ht. injection E as <-. now apply Hc.
Qed.

Lemma parse_lines_pure ts lines : forall st c,
  faults c = [] -> settled c ->
  match apply_ops ts (loop_ops st lines) (working c) with
  | Some w =>
      exists cm t, parse_lines ts st lines c
                   = (Ok (loop_end st lines), mkConn cm w t [])
                   /\ settled (mkConn cm w t [])
  | None => exists c', parse_lines ts st lines c = (Raise OverflowError, c')
  end.
Proof.
  induction lines as [|raw rest IH]; intros st c Hf Hc.
  - simpl. exists (committed c), (in_transaction c).
    destruct c; simpl in *; subst; split; [reflexivity | exact Hc].
  - simpl. unfold bind. rewrite (parse_line_pure ts st raw c Hf).
    destruct (line_op st raw) as [o|].
    + simpl. destruct (apply_op ts o (working c)) as [w|] eqn:E.
      * assert (Hw : working (op_conn o c w) = w) by (destruct o; reflexivity).
        assert (Hf' : faults (op_conn o c w) = []) by (destruct o; reflexivity).
        pose proof (IH (next_pstate st raw) (op_conn o c w) Hf'
                       (op_conn_settled ts o c w Hc E)) as H.
        now rewrite Hw in H.
      * eexists; reflexivity.
    + apply IH; assumption.
Qed.

Lemma save_device_pure ts st ip cm w t :
  save_device ts st ip (mkConn cm w t [])
  = (Ok tt, mkConn cm (update_device ts (current_mac st) (current_vendor st)
                                     (current_os st) ip
                                     (insert_or_ignore_device ip w)) true []).
Proof. reflexivity. Qed.

(** Without faults, a call ends normally exactly when all its writes can be
    bound, and then leaves the store its writes produce. *)
Lemma run_pure d nmap_output ts :
  match apply_ops ts (ops_of nmap_output) d with
  | Some d' => run [] d nmap_output ts = (Ok tt, d')
  | None => fst (run [] d nmap_output ts) = Raise OverflowError
  end.
Proof.
  unfold run, parse_and_store_nmap, ops_of, final_pstate, bind.
  rewrite apply_ops_app.
  pose proof (parse_lines_pure ts (splitlines nmap_output) initial_pstate
                               (mkConn d d false []) eq_refl
                               (fun _ => eq_refl)) as H.
  simpl working in H.
  destruct (apply_ops ts (loop_ops initial_pstate (splitlines nmap_output)) d)
    as [w|].
  - destruct H as (cm & t & H & Hs). rewrite H. unfold final_op.
    destruct (truthy (current_ip _)) as [ip|] eqn:Hip.
    + rewrite save_device_pure. reflexivity.
    + unfold ret, commit. simpl. destruct t; [reflexivity|].
      simpl. f_equal. exact (Hs eq_refl).
  - destruct H as [c' H]. rewrite H. reflexivity.
Qed.

Lemma run_ok_iff d nmap_output ts d' :
  run [] d nmap_output ts = (Ok tt, d')
  <-> apply_ops ts (ops_of nmap_output) d = Some d'.
Proof.
  pose proof (run_pure d nmap_output ts) as H.
  destruct (apply_ops ts (ops_of nmap_output) d) as [d''|].
  - rewrite H. split; intros E; inversion E; reflexivity.
  - split; intros E; [|discriminate]. rewrite E in H. discriminate.
Qed.

Lemma apply_ops_fits ts ops : forall d,
  forallb op_fits ops = true -> exists d', apply_ops ts ops d = Some d'.
Proof.
  induction ops as [|o ops IH]; intros d Hfit; [now exists d|].
  simpl in *. apply andb_true_iff in Hfit. destruct Hfit as [Ho Hops].
  assert (Hop : exists d1, apply_op ts o d = Some d1).
  { destruct o as [ip m v os | ip p s | ip p s ev]; simpl in *;
      rewrite ?Ho; eexists; reflexivity. }
  destruct Hop as (d1 & ->). apply IH, Hops.
Qed.

(** A pass without faults always ends; it ends normally when every port it
    has to store fits in 64 bits. *)
Lemma run_completes d nmap_output ts :
  forallb op_fits (ops_of nmap_output) = true ->
  exists d', run [] d nmap_output ts = (Ok tt, d').
Proof.
  intros Hfit.
  destruct (apply_ops_fits ts _ d Hfit) as (d' & Hrun).
  exists d'. now apply run_ok_iff.
Qed.

(** ** Hosts: every header is saved *)

Lemma is_empty_true s : is_empty s = true -> s = EmptyString.
Proof. destruct s; [reflexivity | discriminate]. Qed.

Lemma truthy_some o s : truthy o = Some s -> o = Some s /\ s <> EmptyString.
Proof.
  destruct o as [t|]; simpl; [|discriminate].
  destruct t; simpl; [discriminate|].
  intros E; inversion E; subst. split; [reflexivity | discriminate].
Qed.

Lemma truthy_of_nonempty s : s <> EmptyString -> truthy (Some s) = Some s.
Proof. destruct s; [congruence | reflexivity]. Qed.

Lemma next_pstate_ip st raw :
  contains host_marker (strip raw) = false ->
  current_ip (next_pstate st raw) = current_ip st.
Proof.
  intros Hh. unfold next_pstate. rewrite Hh.
  destruct (is_empty (strip raw)); [reflexivity|].
  destruct (mac_search (strip raw)) as [[m v]|]; [reflexivity|].
  destruct (os_search (strip raw)) as [[g1 g2]|]; [reflexivity|].
  destruct (startswith (strip raw) ports_marker); [reflexivity|].
  destruct (startswith (strip raw) script_marker); [reflexivity|].
  destruct (is_noise (strip raw)); [reflexivity|].
  destruct (in_ports st).
  - destruct (_ && _); reflexivity.
  - destruct (in_script st); [|reflexivity].
    destruct (_ && _); reflexivity.
Qed.

Lemma saves_cons H o ops : saves H ops -> saves H (o :: ops).
Proof. intros (m & v & os & Hin). exists m, v, os. now right. Qed.

Lemma saves_app_l H ops1 ops2 : saves H ops1 -> saves H (ops1 ++ ops2).
Proof.
  intros (m & v & os & Hin). exists m, v, os. apply in_or_app. now left.
Qed.

Lemma loop_ops_skip H st raw rest :
  saves H (loop_ops (next_pstate st raw) rest) ->
  saves H (loop_ops st (raw :: rest)).
Proof.
  intros Hs. simpl. destruct (line_op st raw); [apply saves_cons|]; exact Hs.
Qed.

(** A host held in the accumulator is saved by a later header, or is still
    held when the loop ends. *)
Lemma pending_saved lines : forall st H,
  truthy (current_ip st) = Some H ->
  saves H (loop_ops st lines)
  \/ truthy (current_ip (loop_end st lines)) = Some H.
Proof.
  induction lines as [|raw rest IH]; intros st H Hp; [now right|].
  destruct (contains host_marker (strip raw)) eqn:Hh.
  - left. simpl. unfold line_op. rewrite Hh, Hp.
    destruct (is_empty (strip raw)) eqn:He.
    + apply is_empty_true in He. rewrite He in Hh. discriminate.
    + exists (current_mac st), (current_vendor st), (current_os st). now left.
  - destruct (IH (next_pstate st raw) H) as [Hs | He].
    + rewrite next_pstate_ip; assumption.
    + left. apply loop_ops_skip, Hs.
    + right. exact He.
Qed.

Lemma header_pending lines : forall st raw H,
  In raw lines ->
  contains host_marker (strip raw) = true ->
  header_ip (strip raw) = H -> H <> EmptyString ->
  saves H (loop_ops st lines)
  \/ truthy (current_ip (loop_end st lines)) = Some H.
Proof.
  induction lines as [|l rest IH]; intros st raw H Hin Hh Hip Hne; [easy|].
  destruct Hin as [-> | Hin].
  - destruct (pending_saved rest (next_pstate st raw) H) as [Hs | He].
    + unfold next_pstate. rewrite Hh.
      destruct (is_empty (strip raw)) eqn:He.
      * apply is_empty_true in He. rewrite He in Hh. discriminate.
      * simpl. rewrite Hip. apply truthy_of_nonempty, Hne.
    + left. apply loop_ops_skip, Hs.
    + right. exact He.
  - destruct (IH (next_pstate st l) raw H Hin Hh Hip Hne) as [Hs | He].
    + left. apply loop_ops_skip, Hs.
    + right. exact He.
Qed.

Lemma header_saved nmap_output raw H :
  In raw (splitlines nmap_output) ->
  contains host_marker (strip raw) = true ->
  header_ip (strip raw) = H -> H <> EmptyString ->
  saves H (ops_of nmap_output).
Proof.
  intros Hin Hh Hip Hne. unfold ops_of.
  destruct (header_pending _ initial_pstate raw H Hin Hh Hip Hne) as [Hs | He].
  - apply saves_app_l, Hs.
  - unfold final_op, final_pstate. rewrite He.
    exists (current_mac (loop_end initial_pstate (splitlines nmap_output))),
           (current_vendor (loop_end initial_pstate (splitlines nmap_output))),
           (current_os (loop_end initial_pstate (splitlines nmap_output))).
    apply in_or_app. right. now left.
Qed.

(** The store side: the ip column. *)

Lemma ips_update_device ts mac vendor os ip d :
  ips (update_device ts mac vendor os ip d) = ips d.
Proof.
  unfold ips, update_device; simpl. rewrite map_map. apply map_ext.
  intros r. destruct (String.eqb (d_ip r) ip); reflexivity.
Qed.

Lemma existsb_ip ip d :
  existsb (fun r => String.eqb (d_ip r) ip) (devices d) = true
  <-> In ip (ips d).
Proof.
  unfold ips. rewrite existsb_exists, in_map_iff. split.
  - intros (r & Hin & E). apply String.eqb_eq in E. now exists r.
  - intros (r & E & Hin). exists r. split; [assumption|].
    now apply String.eqb_eq.
Qed.

Lemma ips_insert_or_ignore ip d :
  ips (insert_or_ignore_device ip d)
  = if existsb (fun r => String.eqb (d_ip r) ip) (devices d)
    then ips d else (ips d ++ [ip])%list.
Proof.
  unfold insert_or_ignore_device.
  destruct (existsb _ _); [reflexivity|].
  unfold ips; simpl. now rewrite map_app.
Qed.

Lemma apply_op_devices ts o d d' :
  apply_op ts o d = Some d' ->
  match o with
  | SaveDevice ip mac vendor os =>
      d' = update_device ts mac vendor os ip (insert_or_ignore_device ip d)
  | _ => devices d' = devices d /\ devices_seq d' = devices_seq d
  end.
Proof.
  destruct o as [ip m v os | ip p s | ip p s ev]; simpl.
  - intros E; inversion E; reflexivity.
  - destruct (sqlite_int64 p); [|discriminate]. intros E; inversion E.
    destruct (select_vuln_id ip p s d); split; reflexivity.
  - destruct (sqlite_int64 p); [|discriminate]. intros E; inversion E.
    destruct (select_vuln_id ip p s d); split; reflexivity.
Qed.

Lemma apply_op_ips ts o d d' :
  apply_op ts o d = Some d' ->
  (forall ip, In ip (ips d) -> In ip (ips d'))
  /\ (NoDup (ips d) -> NoDup (ips d'))
  /\ (forall H, saves H [o] -> In H (ips d')).
Proof.
  intros E. pose proof (apply_op_devices ts o d d' E) as Hd.
  destruct o as [ip m v os | ip p s | ip p s ev].
  - subst d'. rewrite ips_update_device, ips_insert_or_ignore.
    destruct (existsb _ _) eqn:Hex.
    + repeat split; auto.
      intros H (m' & v' & os' & [Heq | []]). inversion Heq; subst.
      now apply existsb_ip.
    + repeat split.
      * intros x Hx. apply in_or_app. now left.
      * intros Hnd. apply NoDup_app; [assumption | repeat constructor; easy|].
        intros x Hx [<- | []]. apply existsb_ip in Hx. congruence.
      * intros H (m' & v' & os' & [Heq | []]). inversion Heq; subst.
        apply in_or_app. right. now left.
  - destruct Hd as [Hd _]. unfold ips. rewrite Hd. repeat split; auto.
    intros H (m' & v' & os' & [Heq | []]). discriminate.
  - destruct Hd as [Hd _]. unfold ips. rewrite Hd. repeat split; auto.
    intros H (m' & v' & os' & [Heq | []]). discriminate.
Qed.

Lemma apply_ops_ips ts ops : forall d d',
  apply_ops ts ops d = Some d' ->
  (forall ip, In ip (ips d) -> In ip (ips d'))
  /\ (NoDup (ips d) -> NoDup (ips d'))
  /\ (forall H, saves H ops -> In H (ips d')).
Proof.
  induction ops as [|o ops IH]; intros d d' E; simpl in E.
  - inversion E; subst. repeat split; auto.
    intros H (m & v & os & []).
  - destruct (apply_op ts o d) as [d1|] eqn:E1; [|discriminate].
    destruct (apply_op_ips ts o d d1 E1) as (Hin1 & Hnd1 & Hs1).
    destruct (IH d1 d' E) as (Hin & Hnd & Hs).
    repeat split; auto.
    intros H (m & v & os & [Heq | Hin']).
    + apply Hin, Hs1. exists m, v, os. now left.
    + apply Hs. now exists m, v, os.
Qed.

Lemma unique_row (ip : string) (l : list device) :
  NoDup (map d_ip l) -> In ip (map d_ip l) ->
  length (filter (fun r => String.eqb (d_ip r) ip) l) = 1%nat.
Proof.
  induction l as [|r l IH]; intros Hnd Hin; [easy|].
  simpl in *. inversion Hnd as [|x xs Hnotin Hnd']; subst.
  destruct (String.eqb (d_ip r) ip) eqn:E.
  - apply String.eqb_eq in E. subst ip. simpl. f_equal.
    assert (Hnone : forall l', ~ In (d_ip r) (map d_ip l') ->
              filter (fun r0 => String.eqb (d_ip r0) (d_ip r)) l' = []).
    { induction l' as [|r' l' IH']; intros Hn; [reflexivity|].
      simpl in *. destruct (String.eqb (d_ip r') (d_ip r)) eqn:E'.
      - apply String.eqb_eq in E'. exfalso. apply Hn. now left.
      - apply IH'. intros Hc. apply Hn. now right. }
    now rewrite Hnone.
  - apply String.eqb_neq in E. destruct Hin as [Heq | Hin]; [congruence|].
    now apply IH.
Qed.

(** ** Stripping a line does not hide or create a marker *)

Section StripContains.
Variable p : ascii -> bool.

Lemma contains_lstrip_by a m s :
  p a = false ->
  contains (String a m) (lstrip_by p s) = contains (String a m) s.
Proof.
  intros Ha. induction s as [|c s IH]; [reflexivity|].
  simpl lstrip_by. destruct (p c) eqn:Hc; [|reflexivity].
  rewrite IH. simpl. destruct (ascii_dec a c); [congruence | reflexivity].
Qed.

Lemma prefix_rstrip_by s : forall m,
  ends_outside p m = true ->
  String.prefix m (rstrip_by p s) = String.prefix m s.
Proof.
  induction s as [|c s IH]; intros m Hm; [reflexivity|].
  destruct m as [|a m]; [discriminate|].
  simpl rstrip_by.
  destruct (p c && is_empty (rstrip_by p s)) eqn:E.
  - apply andb_true_iff in E. destruct E as [Hc He].
    apply is_empty_true in He. simpl.
    destruct (ascii_dec a c) as [->|]; [|reflexivity].
    destruct m as [|b m].
    + simpl in Hm. rewrite Hc in Hm. discriminate.
    + rewrite <- IH by exact Hm. rewrite He. reflexivity.
  - simpl. destruct (ascii_dec a c); [|reflexivity].
    destruct m as [|b m].
    + destruct (rstrip_by p s), s; reflexivity.
    + apply IH. exact Hm.
Qed.

Lemma contains_rstrip_by m s :
  ends_outside p m = true ->
  contains m (rstrip_by p s) = contains m s.
Proof.
  intros Hm. induction s as [|c s IH]; [reflexivity|].
  change (contains m (String c s))
    with (String.prefix m (String c s) || contains m s).
  rewrite <- (prefix_rstrip_by (String c s) m Hm), <- IH.
  simpl rstrip_by.
  destruct (p c && is_empty (rstrip_by p s)) eqn:E.
  - apply andb_true_iff in E. destruct E as [_ He].
    apply is_empty_true in He. rewrite He.
    destruct m; [discriminate | reflexivity].
  - reflexivity.
Qed.
End StripContains.

Lemma contains_host_marker_strip raw :
  contains host_marker (strip raw) = contains host_marker raw.
Proof.
  unfold strip.
  rewrite (contains_rstrip_by isspace host_marker _ eq_refl).
  apply (contains_lstrip_by isspace). reflexivity.
Qed.

(** ** A stream without host header *)

Lemma parse_line_no_ip ts st raw c :
  current_ip st = None ->
  contains host_marker (strip raw) = false ->
  parse_line ts st raw c = (Ok (next_pstate st raw), c).
Proof.
  intros Hip Hh. unfold parse_line, next_pstate, in_ports, in_script.
  rewrite Hh, Hip.
  destruct (is_empty (strip raw)); [reflexivity|].
  destruct (mac_search (strip raw)) as [[m v]|]; [reflexivity|].
  destruct (os_search (strip raw)) as [[g1 g2]|]; [reflexivity|].
  destruct (startswith (strip raw) ports_marker); [reflexivity|].
  destruct (startswith (strip raw) script_marker); [reflexivity|].
  destruct (is_noise (strip raw)); [reflexivity|].
  destruct (parsing_ports_section st), (parsing_host_script_results st);
    reflexivity.
Qed.

Lemma parse_lines_no_ip ts lines : forall st c,
  current_ip st = None ->
  (forall raw, In raw lines -> contains host_marker raw = false) ->
  parse_lines ts st lines c = (Ok (loop_end st lines), c)
  /\ current_ip (loop_end st lines) = None.
Proof.
  induction lines as [|raw rest IH]; intros st c Hip Hno; [now split|].
  assert (Hh : contains host_marker (strip raw) = false).
  { rewrite contains_host_marker_strip. apply Hno. now left. }
  simpl. unfold bind. rewrite parse_line_no_ip by assumption.
  apply IH.
  - rewrite next_pstate_ip; assumption.
  - intros l Hl. apply Hno. now right.
Qed.

(** C10. If no line of the input contains 'Nmap scan report for', then
    parse_and_store_nmap leaves the devices and vulnerabilities tables
    unchanged (and ends normally), whatever port rows, MAC lines, OS lines,
    section markers or script lines the input holds, and whatever the
    storage layer would have refused: no statement is executed at all. *)
Theorem no_header_leaves_store_unchanged fs d nmap_output ts :
  (forall raw, In raw (splitlines nmap_output) ->
               contains host_marker raw = false) ->
  run fs d nmap_output ts = (Ok tt, d).
Proof.
  intros Hno. unfold run, parse_and_store_nmap, bind.
  destruct (parse_lines_no_ip ts (splitlines nmap_output) initial_pstate
                              (mkConn d d false fs) eq_refl Hno) as [Hrun Hip].
  rewrite Hrun, Hip. reflexivity.
Qed.

Lemma no_header_leaves_store_unchanged_witness :
  (forall raw, In raw (splitlines c10_output) ->
               contains host_marker raw = false)
  /\ run [true; false] empty_db c10_output "2026-01-01T00:00:00"
     = (Ok tt, empty_db).
Proof.
  assert (H : forall raw, In raw (splitlines c10_output) ->
                          contains host_marker raw = false).
  { intros raw Hin. vm_compute in Hin.
    repeat (destruct Hin as [<- | Hin]; [reflexivity|]). destruct Hin. }
  split; [exact H|].
  apply (no_header_leaves_store_unchanged [true; false] empty_db c10_output
           "2026-01-01T00:00:00" H).
Defined.

(** ** Every header host ends with one row *)

(** C2. For every line of the input that contains 'Nmap scan report for'
    and names a host H (the last token, parentheses stripped, non-empty),
    exactly one devices row has ip = H after parse_and_store_nmap has
    completed on a store that respects the UNIQUE constraint on ip; neither
    port nor script data after the header, nor a trailing blank line or a
    further header, is needed: the last host is saved by the flush at the end
    of the stream. *)
Theorem every_header_host_has_one_row d nmap_output ts d' raw :
  wf_db d ->
  run [] d nmap_output ts = (Ok tt, d') ->
  In raw (splitlines nmap_output) ->
  contains host_marker raw = true ->
  header_ip (strip raw) <> EmptyString ->
  length (filter (fun r => String.eqb (d_ip r) (header_ip (strip raw)))
                 (devices d')) = 1%nat.
Proof.
  intros [Hwf _] Hrun Hin Hh Hne.
  apply run_ok_iff in Hrun.
  destruct (apply_ops_ips ts _ _ _ Hrun) as (_ & Hnd & Hs).
  apply unique_row.
  - apply Hnd, Hwf.
  - apply Hs. eapply header_saved; eauto.
    now rewrite contains_host_marker_strip.
Qed.

Lemma every_header_host_has_one_row_witness :
  length (filter (fun r => String.eqb (d_ip r) "10.0.0.7")
                 (devices (snd (run [] empty_db
                                    "Nmap scan report for gw (10.0.0.7)"
                                    "2026-01-01T00:00:00")))) = 1%nat.
Proof.
  apply (every_header_host_has_one_row empty_db
           "Nmap scan report for gw (10.0.0.7)" "2026-01-01T00:00:00"
           (snd (run [] empty_db "Nmap scan report for gw (10.0.0.7)"
                     "2026-01-01T00:00:00"))
           "Nmap scan report for gw (10.0.0.7)").
  - split; constructor.
  - reflexivity.
  - left. reflexivity.
  - reflexivity.
  - discriminate.
Defined.

(** ** Concrete passes *)

(** C7. On an empty store, the input 'Nmap scan report for 10.0.0.5',
    'MAC Address: AA:BB:CC:DD:EE:FF (Acme Corp)', 'PORT      STATE SERVICE',
    '80/tcp    open  http' and a blank line ends with the devices row
    (10.0.0.5, AA:BB:CC:DD:EE:FF, Acme Corp, status up) and exactly one
    vulnerability row, Informational, for (10.0.0.5, 80, http): the MAC and
    the vendor in parentheses are captured from the link-layer line. *)
Theorem scenario_host_mac_open_port ts :
  run [] empty_db c7_output ts
  = (Ok tt,
     mkDb [mkDevice 1 "10.0.0.5" (Some "AA:BB:CC:DD:EE:FF") (Some "Acme Corp")
                    None (Some "up") (Some ts)] 1
          [mkVuln 1 "10.0.0.5" 80 "http" "Open port detected" "Informational"
                  ts] 1)
  /\ mac_search "MAC Address: AA:BB:CC:DD:EE:FF (Acme Corp)"
     = Some ("AA:BB:CC:DD:EE:FF", Some "Acme Corp").
Proof. split; reflexivity. Qed.

(** C5 fails on the code. A blank line is skipped before any rule sees it,
    so it leaves the section flags as they are: in the ports section, the
    port row after the blank line is still read as a port row and writes its
    finding. *)
Theorem blank_line_does_not_end_section ts :
  parse_line ts (mkPstate (Some "10.0.0.5") None None None true false)
             EmptyString (mkConn empty_db empty_db false [])
  = (Ok (mkPstate (Some "10.0.0.5") None None None true false),
     mkConn empty_db empty_db false [])
  /\ vulnerabilities (snd (run [] empty_db c5_output ts))
     = [mkVuln 1 "10.0.0.5" 80 "http" "Open port detected" "Informational" ts].
Proof. split; reflexivity. Qed.

(** C9 fails on the code. When the storage layer refuses the INSERT of the
    informational open-port row (the second statement of this pass, after
    the SELECT), the error leaves [parse_and_store_nmap]: no later line is
    read and neither host is stored.  The same refusal on the save of a
    device inside the loop is caught, and the pass goes on. *)
Theorem open_port_insert_failure_aborts_pass ts :
  run [false; true] empty_db c9_output ts = (Raise SqliteError, empty_db)
  /\ run [false; false; true] empty_db c9_output ts
     = (Ok tt,
        mkDb [mkDevice 1 "10.0.0.6" None None None (Some "up") (Some ts)] 1
             [mkVuln 1 "10.0.0.5" 80 "http" "Open port detected"
                     "Informational" ts;
              mkVuln 2 "10.0.0.6" 22 "ssh" "Open port detected"
                     "Informational" ts] 2).
Proof. split; reflexivity. Qed.

(** ** The section rules, line by line *)

Lemma is_content_true line :
  is_content line = true ->
  is_empty line = false /\ contains host_marker line = false
  /\ mac_search line = None /\ os_search line = None
  /\ startswith line ports_marker = false
  /\ startswith line script_marker = false
  /\ is_noise line = false.
Proof.
  unfold is_content. intros H.
  repeat (apply andb_true_iff in H; destruct H as [H ?]).
  destruct (mac_search line); [discriminate|].
  destruct (os_search line); [discriminate|].
  repeat match goal with
         | H : negb _ = true |- _ => apply negb_true_iff in H
         end.
  repeat split; assumption.
Qed.

Lemma content_line_step ts st raw c :
  is_content (strip raw) = true ->
  parse_line ts st raw c =
  match in_ports st with
  | Some ip => ports_rule ts st ip (strip raw) c
  | None =>
      match in_script st with
      | Some ip => script_rule ts st ip (strip raw) c
      | None => (Ok st, c)
      end
  end.
Proof.
  intros H. apply is_content_true in H.
  destruct H as (He & Hh & Hm & Ho & Hp & Hs & Hn).
  unfold parse_line, in_ports, in_script.
  rewrite He, Hh, Hm, Ho, Hp, Hs, Hn.
  destruct (if parsing_ports_section st then truthy (current_ip st) else None);
    [reflexivity|].
  destruct (if parsing_host_script_results st then truthy (current_ip st)
            else None); reflexivity.
Qed.

Lemma select_vuln_id_none ip port service d :
  select_vuln_id ip port service d = None
  <-> forall r, In r (vulnerabilities d) -> has_key ip port service r = false.
Proof.
  unfold select_vuln_id. split.
  - destruct (find _ _) eqn:E; [discriminate|]. intros _ r Hin.
    apply (find_none _ _ E r Hin).
  - intros H. destruct (find _ _) as [r|] eqn:E; [|reflexivity].
    apply find_some in E. destruct E as [Hin Hk].
    rewrite (H r Hin) in Hk. discriminate.
Qed.

(** C4. In the ports section with a current host ip, a content line whose
    fields are p0 p1 service ..., with '/' in p0, the text of p0 before the
    '/' a port number and p1 one of open, closed, filtered, writes a
    vulnerability row exactly when p1 is 'open' and no row has the key
    (ip, port, service) yet; the row written is appended with severity
    'Informational' and evidence 'Open port detected'.  When a row with that
    key exists, and when p1 is 'closed' or 'filtered', the store is left as
    it is: the ports rule never modifies a row.  The loop state is unchanged
    and nothing is committed by this rule. *)
Theorem ports_rule_open_port
        ts st raw c ip p0 p1 service rest port :
  faults c = [] ->
  is_content (strip raw) = true ->
  parsing_ports_section st = true ->
  truthy (current_ip st) = Some ip ->
  split (strip raw) = p0 :: p1 :: service :: rest ->
  contains "/" p0 = true ->
  In p1 ["open"; "closed"; "filtered"] ->
  py_int (before_char "/" p0) = Some port ->
  sqlite_int64 port = true ->
  exists w' t',
    parse_line ts st raw c = (Ok st, mkConn (committed c) w' t' [])
    /\ ((p1 = "open"
         /\ (forall r, In r (vulnerabilities (working c)) ->
                       has_key ip port service r = false)
         /\ w' = insert_vuln ip port service "Open port detected"
                             "Informational" ts (working c)
         /\ t' = true
         /\ vulnerabilities w'
            = (vulnerabilities (working c)
                ++ [mkVuln (next_rowid (vulnerabilities_seq (working c))
                                       (map v_id (vulnerabilities (working c))))
                           ip port service "Open port detected"
                           "Informational" ts])%list)
        \/ ((p1 <> "open"
             \/ exists r, In r (vulnerabilities (working c))
                          /\ has_key ip port service r = true)
            /\ w' = working c /\ t' = in_transaction c)).
Proof.
  intros Hf Hc Hps Hip Hsplit Hslash Hstate Hport Hfit.
  rewrite (content_line_step ts st raw c Hc).
  unfold in_ports. rewrite Hps, Hip. unfold ports_rule.
  rewrite Hsplit. cbn [is_port_row nth]. rewrite Hslash.
  assert (Hst : is_port_state p1 = true).
  { destruct Hstate as [<- | [<- | [<- | []]]]; reflexivity. }
  rewrite Hst. cbn [andb]. rewrite Hport.
  destruct c as [cm w t fs]. simpl in Hf. subst fs. simpl committed.
  simpl working. simpl in_transaction.
  destruct (String.eqb p1 "open") eqn:Hopen.
  - apply String.eqb_eq in Hopen.
    unfold exec_select_vuln_id, exec_insert_vuln, bind_int. rewrite Hfit.
    unfold bind, ret, step_fault, read, write, begin. cbn.
    destruct (select_vuln_id ip port service w) as [id|] eqn:Hsel; cbn.
    + exists w, t. split; [reflexivity|]. right. split; [|now split].
      right. unfold select_vuln_id in Hsel.
      destruct (find _ _) as [r|] eqn:E; [|discriminate].
      apply find_some in E. now exists r.
    + rewrite ?Hfit. cbn. eexists. exists true. split; [reflexivity|]. left.
      repeat split; try assumption.
      now apply select_vuln_id_none.
  - apply String.eqb_neq in Hopen. exists w, t. split; [reflexivity|].
    right. split; [now left | now split].
Qed.

Lemma ports_rule_open_port_witness :
  exists w',
    parse_line "2026-01-01T00:00:00" c4_state "135/tcp  open  msrpc"
               (mkConn empty_db empty_db false [])
    = (Ok c4_state, mkConn empty_db w' true [])
    /\ vulnerabilities w'
       = [mkVuln 1 "10.0.0.5" 135 "msrpc" "Open port detected" "Informational"
                 "2026-01-01T00:00:00"].
Proof.
  destruct (ports_rule_open_port
              "2026-01-01T00:00:00" c4_state "135/tcp  open  msrpc"
              (mkConn empty_db empty_db false []) "10.0.0.5"
              "135/tcp" "open" "msrpc" [] 135)
    as (w' & t' & Hrun & Hcases).
  - reflexivity.
  - reflexivity.
  - reflexivity.
  - reflexivity.
  - reflexivity.
  - reflexivity.
  - left. reflexivity.
  - reflexivity.
  - reflexivity.
  - exists w'.
    destruct Hcases as [(_ & _ & _ & Ht & Hrows) | [[Hne | (r & [] & _)] _]].
    + rewrite Ht in Hrun. split; [exact Hrun | exact Hrows].
    + exfalso. apply Hne. reflexivity.
Defined.

(** Stripping twice is stripping once. *)

Lemma rstrip_by_idem p s : rstrip_by p (rstrip_by p s) = rstrip_by p s.
Proof.
  induction s as [|c s IH]; [reflexivity|].
  simpl. destruct (p c && is_empty (rstrip_by p s)) eqn:E; [reflexivity|].
  simpl. rewrite IH, E. reflexivity.
Qed.

Lemma lstrip_by_head p s :
  match lstrip_by p s with
  | EmptyString => True
  | String c _ => p c = false
  end.
Proof.
  induction s as [|c s IH]; [exact I|].
  simpl. destruct (p c) eqn:E; [exact IH | exact E].
Qed.

Lemma strip_idem s : strip (strip s) = strip s.
Proof.
  unfold strip. pose proof (lstrip_by_head isspace s) as H.
  destruct (lstrip_by isspace s) as [|c t]; [reflexivity|].
  assert (E : rstrip_by isspace (String c t)
              = String c (rstrip_by isspace t)).
  { simpl. rewrite H. reflexivity. }
  rewrite E. cbn [lstrip_by]. rewrite H, <- E. apply rstrip_by_idem.
Qed.

(** The digits that [port_search] captures always convert. *)

Lemma take_while_all q s : all_chars q (take_while q s) = true.
Proof.
  induction s as [|c s IH]; [reflexivity|].
  simpl. destruct (q c) eqn:E; [|reflexivity]. simpl. now rewrite E.
Qed.

Lemma isdigit_not_space c : isdigit c = true -> isspace c = false.
Proof.
  destruct c as [[] [] [] [] [] [] [] []]; intros H;
    first [reflexivity | discriminate H].
Qed.

Lemma rstrip_by_outside p q s :
  (forall c, q c = true -> p c = false) ->
  all_chars q s = true -> rstrip_by p s = s.
Proof.
  intros Hpq. induction s as [|c s IH]; [reflexivity|].
  simpl. intros H. apply andb_true_iff in H. destruct H as [Hc Hs].
  rewrite (Hpq c Hc), (IH Hs). reflexivity.
Qed.

Lemma strip_digits s : all_chars isdigit s = true -> strip s = s.
Proof.
  intros H. unfold strip.
  assert (E : lstrip_by isspace s = s).
  { destruct s as [|c s]; [reflexivity|]. simpl in *.
    apply andb_true_iff in H. destruct H as [Hc _].
    now rewrite (isdigit_not_space c Hc). }
  rewrite E. apply (rstrip_by_outside isspace isdigit s isdigit_not_space H).
Qed.

Lemma int_digits_all s : forall acc prev,
  all_chars isdigit s = true ->
  s <> EmptyString \/ prev = true ->
  int_digits acc prev s = Some (digits_value acc s).
Proof.
  induction s as [|c s IH]; intros acc prev Hall Hne.
  - destruct Hne as [Hne | ->]; [congruence | reflexivity].
  - simpl in *. apply andb_true_iff in Hall. destruct Hall as [Hc Hs].
    rewrite Hc. apply IH; [exact Hs | now right].
Qed.

Lemma py_int_digits s :
  all_chars isdigit s = true -> s <> EmptyString ->
  py_int s = Some (digits_value 0 s).
Proof.
  intros Hall Hne. unfold py_int. rewrite (strip_digits s Hall).
  rewrite <- (int_digits_all s 0 false Hall (or_introl Hne)).
  destruct s as [|c s]; [congruence|].
  simpl in Hall. apply andb_true_iff in Hall. destruct Hall as [Hc _].
  destruct c as [[] [] [] [] [] [] [] []];
    first [discriminate Hc | reflexivity].
Qed.

Lemma port_search_digits s ds :
  port_search s = Some ds ->
  all_chars isdigit ds = true /\ ds <> EmptyString.
Proof.
  induction s as [|c s IH]; [discriminate|].
  change (port_search (String c s))
    with (if isdigit c
             && String.prefix "/tcp" (drop_while isdigit (String c s))
          then Some (take_while isdigit (String c s)) else port_search s).
  destruct (isdigit c && String.prefix "/tcp" (drop_while isdigit (String c s)))
    eqn:E; [|exact IH].
  intros H. injection H as <-. apply andb_true_iff in E.
  destruct E as [Hc _].
  split; [exact (take_while_all isdigit (String c s))|].
  simpl. rewrite Hc. discriminate.
Qed.

Lemma script_port_value s :
  script_port s = match port_search s with
                  | Some ds => digits_value 0 ds
                  | None => 0
                  end.
Proof.
  unfold script_port. destruct (port_search s) as [ds|] eqn:E; [|reflexivity].
  destruct (port_search_digits s ds E) as [Hall Hne].
  now rewrite (py_int_digits ds Hall Hne).
Qed.

Lemma has_key_refl id ip port service out sev ts :
  has_key ip port service (mkVuln id ip port service out sev ts) = true.
Proof.
  unfold has_key; simpl.
  now rewrite !String.eqb_refl, Z.eqb_refl.
Qed.

Lemma has_key_set_vuln ip port service out sev ts r :
  has_key ip port service (set_vuln out sev ts r) = has_key ip port service r.
Proof. reflexivity. Qed.

Lemma escalate_has_high_row ts ip port service evidence d :
  exists r, In r (vulnerabilities (escalate ts ip port service evidence d))
            /\ has_key ip port service r = true
            /\ v_severity r = "High" /\ v_script_output r = evidence
            /\ v_timestamp r = ts.
Proof.
  unfold escalate. destruct (find _ _) as [r0|] eqn:E.
  - apply find_some in E. destruct E as [Hin Hk].
    exists (set_vuln evidence "High" ts r0). split.
    + unfold update_vuln; simpl. apply in_map_iff. exists r0.
      now rewrite Z.eqb_refl.
    + now rewrite has_key_set_vuln.
  - exists (mkVuln (next_rowid (vulnerabilities_seq d)
                               (map v_id (vulnerabilities d)))
                   ip port service evidence "High" ts). split.
    + unfold insert_vuln; simpl. apply in_or_app. right. now left.
    + now rewrite has_key_refl.
Qed.

(** What the two searches of the script rule find. *)

Lemma isdigit_in c : isdigit c = true -> In c digit_chars.
Proof.
  destruct c as [[] [] [] [] [] [] [] []]; intros H;
    first [discriminate H
          | (unfold digit_chars; simpl;
             repeat (first [left; reflexivity | right]))].
Qed.

Lemma isspace_in c : isspace c = true -> In c space_chars.
Proof.
  destruct c as [[] [] [] [] [] [] [] []]; intros H;
    first [discriminate H
          | (unfold space_chars; simpl;
             repeat (first [left; reflexivity | right]))].
Qed.

Lemma none_before_digit t s d :
  none_before digit_chars t s = true -> isdigit d = true ->
  contains (String d t) s = false.
Proof.
  unfold none_before. rewrite forallb_forall. intros H Hd.
  apply negb_true_iff, H, isdigit_in, Hd.
Qed.

Lemma contains_cons n c s :
  contains n s = true -> contains n (String c s) = true.
Proof.
  intros H. change (contains n (String c s))
    with (String.prefix n (String c s) || contains n s).
  rewrite H. apply orb_true_r.
Qed.

Lemma none_before_tail cs t c s :
  none_before cs t (String c s) = true -> none_before cs t s = true.
Proof.
  unfold none_before. rewrite !forallb_forall. intros H x Hx.
  specialize (H x Hx). apply negb_true_iff in H. apply negb_true_iff.
  destruct (contains (String x t) s) eqn:E; [|reflexivity].
  now rewrite (contains_cons _ c _ E) in H.
Qed.

Lemma no_service_pattern_tail c s :
  no_service_pattern (String c s) = true -> no_service_pattern s = true.
Proof.
  unfold no_service_pattern. rewrite !forallb_forall. intros H w Hw.
  eapply none_before_tail, H, Hw.
Qed.

Lemma no_service_pattern_digit s d w :
  no_service_pattern s = true -> isdigit d = true -> isspace w = true ->
  contains (String d ("/tcp" ++ String w EmptyString)) s = false.
Proof.
  unfold no_service_pattern. rewrite forallb_forall. intros H Hd Hw.
  apply none_before_digit; [|exact Hd]. apply H, isspace_in, Hw.
Qed.

Lemma prefix_cons c t s :
  String.prefix (String c t) (String c s) = String.prefix t s.
Proof. simpl. destruct (ascii_dec c c); [reflexivity | congruence]. Qed.

(** A run of digits that is followed by [t] holds a digit just before an
    occurrence of [t]. *)
Lemma run_before t s : forall c,
  isdigit c = true ->
  String.prefix t (drop_while isdigit (String c s)) = true ->
  exists d, isdigit d = true /\ contains (String d t) (String c s) = true.
Proof.
  induction s as [|c2 s2 IH]; intros c Hc Hp.
  - exists c. split; [exact Hc|]. unfold drop_while in Hp.
    cbn [lstrip_by] in Hp. rewrite Hc in Hp.
    change (contains (String c t) (String c ""))
      with (String.prefix (String c t) (String c "")
            || is_empty (String c t)).
    now rewrite prefix_cons, Hp.
  - unfold drop_while in *. cbn [lstrip_by] in Hp. rewrite Hc in Hp.
    destruct (isdigit c2) eqn:Hc2.
    + destruct (IH c2 Hc2) as (d & Hd & Hin).
      { cbn [lstrip_by]. now rewrite Hc2. }
      exists d. split; [exact Hd | now apply contains_cons].
    + exists c. split; [exact Hc|].
      change (contains (String c t) (String c (String c2 s2)))
        with (String.prefix (String c t) (String c (String c2 s2))
              || contains (String c t) (String c2 s2)).
      now rewrite prefix_cons, Hp.
Qed.

(** A text without digits that begins [a ++ x], where [x] begins with a
    digit, begins [a]. *)
Lemma prefix_before_digit t : forall a x x',
  all_chars (fun c => negb (isdigit c)) t = true ->
  isdigit x = true ->
  String.prefix t (a ++ String x x') = true -> String.prefix t a = true.
Proof.
  induction t as [|u t IH]; intros a x x' Ht Hx Hp.
  - now destruct a.
  - simpl in Ht. apply andb_true_iff in Ht. destruct Ht as [Hu Ht].
    destruct a as [|b a]; simpl in *.
    + destruct (ascii_dec u x) as [->|]; [|discriminate].
      rewrite Hx in Hu. discriminate.
    + destruct (ascii_dec u b); [|discriminate]. eapply IH; eassumption.
Qed.

Lemma run_before_digit t x x' s : forall c,
  all_chars (fun c => negb (isdigit c)) t = true ->
  isdigit x = true -> isdigit c = true ->
  String.prefix t (drop_while isdigit (String c (s ++ String x x'))) = true ->
  all_chars isdigit s = true
  \/ exists d, isdigit d = true /\ contains (String d t) (String c s) = true.
Proof.
  induction s as [|c2 s2 IH]; intros c Ht Hx Hc Hp; [now left|].
  unfold drop_while in *. cbn [lstrip_by append] in Hp. rewrite Hc in Hp.
  destruct (isdigit c2) eqn:Hc2.
  - destruct (IH c2 Ht Hx Hc2) as [Hall | (d & Hd & Hin)].
    + cbn [lstrip_by append]. now rewrite Hc2.
    + left. simpl. now rewrite Hc2.
    + right. exists d. split; [exact Hd | now apply contains_cons].
  - right. exists c. split; [exact Hc|].
    change (String c2 (s2 ++ String x x')) with (String c2 s2 ++ String x x')
      in Hp.
    apply (prefix_before_digit t _ x x' Ht Hx) in Hp.
    change (contains (String c t) (String c (String c2 s2)))
      with (String.prefix (String c t) (String c (String c2 s2))
            || contains (String c t) (String c2 s2)).
    now rewrite prefix_cons, Hp.
Qed.

Lemma ends_in_all p s :
  all_chars p s = true -> s <> EmptyString -> ends_in p s = true.
Proof.
  induction s as [|a s IH]; intros Hall Hne; [congruence|].
  simpl in Hall. apply andb_true_iff in Hall. destruct Hall as [Ha Hs].
  destruct s as [|b s]; [exact Ha|].
  change (ends_in p (String a (String b s))) with (ends_in p (String b s)).
  apply IH; [exact Hs | discriminate].
Qed.

Lemma ends_in_tail p a s :
  ends_in p (String a s) = false -> ends_in p s = false.
Proof. destruct s; [reflexivity | exact (fun H => H)]. Qed.

Lemma drop_while_run p s x :
  all_chars p s = true -> drop_while p (s ++ x) = drop_while p x.
Proof.
  unfold drop_while. induction s as [|c s IH]; [reflexivity|].
  simpl. intros H. apply andb_true_iff in H. destruct H as [Hc Hs].
  rewrite Hc. now apply IH.
Qed.

Lemma take_while_run p s x :
  all_chars p s = true ->
  match x with EmptyString => true | String c _ => negb (p c) end = true ->
  take_while p (s ++ x) = s.
Proof.
  intros Hs Hx. induction s as [|c s IH].
  - destruct x as [|c x]; [reflexivity|]. simpl.
    apply negb_true_iff in Hx. now rewrite Hx.
  - simpl in *. apply andb_true_iff in Hs. destruct Hs as [Hc Hs].
    rewrite Hc. now rewrite IH.
Qed.

Lemma port_search_none s :
  none_before digit_chars "/tcp" s = true -> port_search s = None.
Proof.
  induction s as [|c s IH]; intros H; [reflexivity|].
  change (port_search (String c s))
    with (if isdigit c
             && String.prefix "/tcp" (drop_while isdigit (String c s))
          then Some (take_while isdigit (String c s)) else port_search s).
  destruct (isdigit c && String.prefix "/tcp" (drop_while isdigit (String c s)))
    eqn:E.
  - apply andb_true_iff in E. destruct E as [Hc Hp].
    destruct (run_before "/tcp" s c Hc Hp) as (d & Hd & Hin).
    now rewrite (none_before_digit _ _ d H Hd) in Hin.
  - apply IH. eapply none_before_tail, H.
Qed.

Lemma port_search_found pre : forall ds rest,
  ds <> EmptyString -> all_chars isdigit ds = true ->
  ends_in isdigit pre = false ->
  none_before digit_chars "/tcp" pre = true ->
  port_search (pre ++ ds ++ "/tcp" ++ rest) = Some ds.
Proof.
  induction pre as [|a pre IH]; intros ds rest Hne Hds Hend Hno.
  - destruct ds as [|c ds]; [congruence|].
    change (port_search ("" ++ String c ds ++ "/tcp" ++ rest))
      with (if isdigit c
               && String.prefix "/tcp"
                    (drop_while isdigit (String c ds ++ "/tcp" ++ rest))
            then Some (take_while isdigit (String c ds ++ "/tcp" ++ rest))
            else port_search (ds ++ "/tcp" ++ rest)).
    rewrite (drop_while_run isdigit _ _ Hds), (take_while_run isdigit _ _ Hds)
      by reflexivity.
    simpl in Hds. apply andb_true_iff in Hds. destruct Hds as [-> _].
    cbn. now destruct rest.
  - change (port_search (String a pre ++ ds ++ "/tcp" ++ rest))
      with (if isdigit a
               && String.prefix "/tcp"
                    (drop_while isdigit
                       (String a (pre ++ ds ++ "/tcp" ++ rest)))
            then Some (take_while isdigit
                         (String a (pre ++ ds ++ "/tcp" ++ rest)))
            else port_search (pre ++ ds ++ "/tcp" ++ rest)).
    destruct (isdigit a && _) eqn:E.
    + exfalso. apply andb_true_iff in E. destruct E as [Ha Hp].
      destruct ds as [|x ds]; [congruence|].
      assert (Hx : isdigit x = true).
      { simpl in Hds. now apply andb_true_iff in Hds. }
      destruct (run_before_digit "/tcp" x (ds ++ "/tcp" ++ rest) pre a
                  eq_refl Hx Ha Hp) as [Hall | (d & Hd & Hin)].
      * assert (Hall' : all_chars isdigit (String a pre) = true)
          by (simpl; now rewrite Ha).
        rewrite (ends_in_all _ _ Hall') in Hend by discriminate.
        discriminate.
      * now rewrite (none_before_digit _ _ d Hno Hd) in Hin.
    + apply IH; try assumption.
      * eapply ends_in_tail, Hend.
      * eapply none_before_tail, Hno.
Qed.

Lemma prefix_cons_inv a t b s :
  String.prefix (String a t) (String b s) = true ->
  a = b /\ String.prefix t s = true.
Proof.
  cbn [String.prefix]. destruct (ascii_dec a b); [now split | discriminate].
Qed.

Lemma service_at_pattern s g :
  service_at s = Some g ->
  exists w, isspace w = true
            /\ String.prefix ("/tcp" ++ String w EmptyString)
                             (drop_while isdigit s) = true.
Proof.
  unfold service_at. cbv zeta. generalize (drop_while isdigit s). intros r.
  destruct (String.prefix "/tcp" r) eqn:Hp; [|discriminate].
  destruct r as [|c1 r]; [discriminate Hp|].
  apply prefix_cons_inv in Hp. destruct Hp as [<- Hp].
  destruct r as [|c2 r]; [discriminate Hp|].
  apply prefix_cons_inv in Hp. destruct Hp as [<- Hp].
  destruct r as [|c3 r]; [discriminate Hp|].
  apply prefix_cons_inv in Hp. destruct Hp as [<- Hp].
  destruct r as [|c4 r]; [discriminate Hp|].
  apply prefix_cons_inv in Hp. destruct Hp as [<- _].
  cbn [drop]. destruct r as [|w r1]; [discriminate|].
  destruct (isspace w) eqn:Hw; [|discriminate].
  intros _. exists w. split; [exact Hw|].
  cbn [append]. rewrite !prefix_cons. now destruct r1.
Qed.

Lemma space_not_digit w : isspace w = true -> isdigit w = false.
Proof.
  intros Hw. destruct (isdigit w) eqn:E; [|reflexivity].
  apply isdigit_not_space in E. congruence.
Qed.

Lemma service_search_none s :
  no_service_pattern s = true -> service_search s = None.
Proof.
  induction s as [|c s IH]; intros H; [reflexivity|].
  change (service_search (String c s))
    with (match (if isdigit c then service_at (String c s) else None) with
          | Some g => Some g
          | None => service_search s
          end).
  destruct (isdigit c) eqn:Hc.
  - destruct (service_at (String c s)) as [g|] eqn:E.
    + destruct (service_at_pattern _ g E) as (w & Hw & Hp).
      destruct (run_before _ s c Hc Hp) as (d & Hd & Hin).
      now rewrite (no_service_pattern_digit _ d w H Hd Hw) in Hin.
    + apply IH. eapply no_service_pattern_tail, H.
  - apply IH. eapply no_service_pattern_tail, H.
Qed.

Lemma service_at_found ds ws tok rest :
  ds <> EmptyString -> all_chars isdigit ds = true ->
  ws <> EmptyString -> all_chars isspace ws = true ->
  tok <> EmptyString -> all_chars (fun c => negb (isspace c)) tok = true ->
  match rest with EmptyString => true | String c _ => isspace c end = true ->
  service_at (ds ++ "/tcp" ++ ws ++ tok ++ rest) = Some (ds, tok).
Proof.
  intros Hne Hds Hwne Hws Htne Htok Hrest. unfold service_at. cbv zeta.
  rewrite (drop_while_run isdigit _ _ Hds), (take_while_run isdigit _ _ Hds)
    by reflexivity.
  destruct ws as [|w ws]; [congruence|].
  simpl in Hws. apply andb_true_iff in Hws. destruct Hws as [Hw Hws].
  replace (drop_while isdigit ("/tcp" ++ String w ws ++ tok ++ rest))
    with (String "/" (String "t" (String "c" (String "p"
            (String w (ws ++ tok ++ rest)))))) by reflexivity.
  rewrite !prefix_cons.
  replace (String.prefix "" (String w (ws ++ tok ++ rest))) with true
    by reflexivity.
  cbn [drop]. rewrite Hw, (drop_while_run isspace _ _ Hws).
  destruct tok as [|t tok]; [congruence|].
  assert (Ht : isspace t = false).
  { simpl in Htok. apply andb_true_iff in Htok. destruct Htok as [Ht _].
    now apply negb_true_iff in Ht. }
  unfold drop_while. cbn [append lstrip_by]. rewrite Ht.
  change (String t (tok ++ rest)) with (String t tok ++ rest).
  rewrite (take_while_run (fun x => negb (isspace x)) _ _ Htok).
  - reflexivity.
  - destruct rest as [|r rest]; [reflexivity|]. now rewrite Hrest.
Qed.

Lemma service_search_found pre : forall ds ws tok rest,
  ds <> EmptyString -> all_chars isdigit ds = true ->
  ws <> EmptyString -> all_chars isspace ws = true ->
  tok <> EmptyString -> all_chars (fun c => negb (isspace c)) tok = true ->
  match rest with EmptyString => true | String c _ => isspace c end = true ->
  ends_in isdigit pre = false ->
  no_service_pattern pre = true ->
  service_search (pre ++ ds ++ "/tcp" ++ ws ++ tok ++ rest) = Some (ds, tok).
Proof.
  induction pre as [|a pre IH];
    intros ds ws tok rest Hne Hds Hwne Hws Htne Htok Hrest Hend Hno.
  - pose proof (service_at_found ds ws tok rest Hne Hds Hwne Hws Htne Htok
                                 Hrest) as Hat.
    destruct ds as [|c ds]; [congruence|].
    change (service_search ("" ++ String c ds ++ "/tcp" ++ ws ++ tok ++ rest))
      with (match (if isdigit c
                   then service_at (String c ds ++ "/tcp" ++ ws ++ tok ++ rest)
                   else None) with
            | Some g => Some g
            | None => service_search (ds ++ "/tcp" ++ ws ++ tok ++ rest)
            end).
    simpl in Hds. apply andb_true_iff in Hds. destruct Hds as [-> _].
    now rewrite Hat.
  - change (service_search
              (String a pre ++ ds ++ "/tcp" ++ ws ++ tok ++ rest))
      with (match (if isdigit a
                   then service_at
                          (String a (pre ++ ds ++ "/tcp" ++ ws ++ tok ++ rest))
                   else None) with
            | Some g => Some g
            | None => service_search (pre ++ ds ++ "/tcp" ++ ws ++ tok ++ rest)
            end).
    assert (Hnone : (if isdigit a
                     then service_at
                            (String a (pre ++ ds ++ "/tcp" ++ ws ++ tok ++ rest))
                     else None) = None).
    { destruct (isdigit a) eqn:Ha; [|reflexivity].
      destruct (service_at _) as [g|] eqn:E; [|reflexivity].
      exfalso. destruct (service_at_pattern _ g E) as (w & Hw & Hp).
      destruct ds as [|x ds]; [congruence|].
      assert (Hx : isdigit x = true).
      { simpl in Hds. now apply andb_true_iff in Hds. }
      assert (Ht : all_chars (fun c => negb (isdigit c))
                             ("/tcp" ++ String w EmptyString) = true).
      { simpl. now rewrite (space_not_digit w Hw). }
      destruct (run_before_digit _ x (ds ++ "/tcp" ++ ws ++ tok ++ rest) pre a
                  Ht Hx Ha Hp) as [Hall | (d & Hd & Hin)].
      - assert (Hall' : all_chars isdigit (String a pre) = true)
          by (simpl; now rewrite Ha).
        rewrite (ends_in_all _ _ Hall') in Hend by discriminate.
        discriminate.
      - now rewrite (no_service_pattern_digit _ d w Hno Hd Hw) in Hin. }
    rewrite Hnone. apply IH; try assumption.
    + eapply ends_in_tail, Hend.
    + eapply no_service_pattern_tail, Hno.
Qed.

(** C3. In the host-script section with a current host ip, a content line
    that begins with '|_' or '| ' stores a High finding if and only if its
    lower-cased text contains 'vulnerable' or 'vulnerability' and none of
    'false', 'could not negotiate', 'error'.  The finding then has the key
    (ip, port, service), its evidence is the line, its severity 'High', and
    it is committed; otherwise (so in particular when the line contains
    'could not negotiate') nothing is stored.  The port is 0 when no digit
    stands before a '/tcp' in the line, and else the decimal value of the
    digits before the first such '/tcp'.  The service is the word after the
    first digits '/tcp' that white space follows; when the line has no such
    place it is 'smb' if the line contains 'smb-vuln', else 'http' if it
    contains 'http-vuln', else 'host_level_service'. *)
Theorem script_rule_high_finding ts st raw c ip :
  let line := strip raw in
  let lo := lower line in
  let port := match port_search line with
              | Some ds => digits_value 0 ds
              | None => 0
              end in
  let service := match service_search line with
                 | Some (_, tok) => tok
                 | None =>
                     if contains "smb-vuln" line then "smb"
                     else if contains "http-vuln" line then "http"
                     else "host_level_service"
                 end in
  faults c = [] ->
  is_content line = true ->
  parsing_ports_section st = false ->
  parsing_host_script_results st = true ->
  truthy (current_ip st) = Some ip ->
  startswith line "|_" = true \/ startswith line "| " = true ->
  sqlite_int64 port = true ->
  (exists c',
    parse_line ts st raw c = (Ok st, c')
    /\ (((contains "vulnerable" lo || contains "vulnerability" lo) = true
         /\ contains "false" lo = false
         /\ contains "could not negotiate" lo = false
         /\ contains "error" lo = false
         /\ c' = mkConn (escalate ts ip port service line (working c))
                        (escalate ts ip port service line (working c))
                        false []
         /\ exists r, In r (vulnerabilities (working c'))
                      /\ has_key ip port service r = true
                      /\ v_severity r = "High" /\ v_script_output r = line
                      /\ v_timestamp r = ts)
        \/ (((contains "vulnerable" lo || contains "vulnerability" lo) = false
             \/ contains "false" lo = true
             \/ contains "could not negotiate" lo = true
             \/ contains "error" lo = true)
            /\ c' = c)))
  /\ (none_before digit_chars "/tcp" line = true -> port = 0)
  /\ (forall pre ds rest,
        line = pre ++ ds ++ "/tcp" ++ rest ->
        ds <> EmptyString -> all_chars isdigit ds = true ->
        ends_in isdigit pre = false ->
        none_before digit_chars "/tcp" pre = true ->
        port = digits_value 0 ds)
  /\ (no_service_pattern line = true ->
      service = if contains "smb-vuln" line then "smb"
                else if contains "http-vuln" line then "http"
                else "host_level_service")
  /\ (forall pre ds ws tok rest,
        line = pre ++ ds ++ "/tcp" ++ ws ++ tok ++ rest ->
        ds <> EmptyString -> all_chars isdigit ds = true ->
        ws <> EmptyString -> all_chars isspace ws = true ->
        tok <> EmptyString ->
        all_chars (fun c => negb (isspace c)) tok = true ->
        match rest with EmptyString => true | String c _ => isspace c end
        = true ->
        ends_in isdigit pre = false ->
        no_service_pattern pre = true ->
        service = tok).
Proof.
  intros line lo port service Hf Hc Hps Hss Hip Hpre Hfit.
  split; [|split; [|split; [|split]]].
  2:{ intros Hno. unfold port. now rewrite (port_search_none line Hno). }
  2:{ intros pre ds rest -> Hne Hds Hend Hno. unfold port.
      now rewrite (port_search_found pre ds rest Hne Hds Hend Hno). }
  2:{ intros Hno. unfold service.
      now rewrite (service_search_none line Hno). }
  2:{ intros pre ds ws tok rest -> Hne Hds Hwne Hws Htne Htok Hrest Hend Hno.
      unfold service.
      now rewrite (service_search_found pre ds ws tok rest Hne Hds Hwne Hws
                                        Htne Htok Hrest Hend Hno). }
  rewrite (content_line_step ts st raw c Hc).
  unfold in_ports, in_script. rewrite Hps, Hss, Hip. unfold script_rule.
  assert (Hsl : is_script_line (strip raw) = true).
  { unfold is_script_line. apply orb_true_iff. exact Hpre. }
  rewrite Hsl, strip_idem. fold line.
  assert (Hport : script_port line = port) by apply script_port_value.
  assert (Hserv : script_service line = service) by reflexivity.
  rewrite Hport, Hserv.
  unfold is_vulnerable. fold lo.
  destruct (contains "vulnerable" lo || contains "vulnerability" lo) eqn:Hv;
    cbn [andb].
  2:{ exists c. split; [reflexivity|]. right. split; [now left | reflexivity]. }
  destruct (contains "false" lo) eqn:H1; cbn [negb andb].
  { exists c. split; [reflexivity|]. right. split; [|reflexivity].
    right. now left. }
  destruct (contains "could not negotiate" lo) eqn:H2; cbn [negb andb].
  { exists c. split; [reflexivity|]. right. split; [|reflexivity].
    right. right. now left. }
  destruct (contains "error" lo) eqn:H3; cbn [negb andb].
  { exists c. split; [reflexivity|]. right. split; [|reflexivity].
    right. right. now right. }
  destruct c as [cm w t fs]. simpl in Hf. subst fs. simpl working.
  exists (mkConn (escalate ts ip port service line w)
                 (escalate ts ip port service line w) false []).
  split.
  - unfold exec_select_vuln_id, exec_insert_vuln, exec_update_vuln, bind_int.
    rewrite Hfit.
    unfold bind, ret, step_fault, read, write, begin, try_except_sqlite,
      commit.
    cbn. unfold escalate, select_vuln_id.
    destruct (find (has_key ip port service) (vulnerabilities w)); cbn;
      rewrite ?Hfit; reflexivity.
  - left. repeat split; try reflexivity.
    apply escalate_has_high_row.
Qed.

Lemma script_rule_high_finding_witness :
  (exists c',
    parse_line "2026-01-01T00:00:00" c3_state
               "|_smb-vuln-ms17-010: VULNERABLE on 445/tcp  microsoft-ds now"
               (mkConn empty_db empty_db false [])
    = (Ok c3_state, c')
    /\ vulnerabilities (committed c')
       = [mkVuln 1 "10.0.0.5" 445 "microsoft-ds"
                 "|_smb-vuln-ms17-010: VULNERABLE on 445/tcp  microsoft-ds now"
                 "High" "2026-01-01T00:00:00"])
  /\ script_port "|_smb-vuln-ms17-010: VULNERABLE on 445/tcp  microsoft-ds now"
     = digits_value 0 "445"
  /\ script_service
       "|_smb-vuln-ms17-010: VULNERABLE on 445/tcp  microsoft-ds now"
     = "microsoft-ds".
Proof.
  destruct (script_rule_high_finding
              "2026-01-01T00:00:00" c3_state
              "|_smb-vuln-ms17-010: VULNERABLE on 445/tcp  microsoft-ds now"
              (mkConn empty_db empty_db false []) "10.0.0.5")
    as ((c' & Hrun & Hcases) & _ & Hport & _ & Hserv).
  - reflexivity.
  - reflexivity.
  - reflexivity.
  - reflexivity.
  - reflexivity.
  - left. reflexivity.
  - reflexivity.
  - split; [|split].
    + exists c'. split; [exact Hrun|].
      destruct Hcases as [(_ & _ & _ & _ & -> & _) | [[H | [H | [H | H]]] _]];
        [reflexivity | discriminate H ..].
    + rewrite script_port_value.
      apply (Hport "|_smb-vuln-ms17-010: VULNERABLE on " "445"
                   "  microsoft-ds now");
        [reflexivity | discriminate | reflexivity ..].
    + apply (Hserv "|_smb-vuln-ms17-010: VULNERABLE on " "445" "  "
                   "microsoft-ds" " now");
        [reflexivity | discriminate | reflexivity | discriminate
        | reflexivity | discriminate | reflexivity ..].
Defined.

(** ** What a pass leaves in the tables

    The rows a pass leaves are the rows it found and the rows it inserted,
    each rewritten by the last write that names it: a devices row by the
    last save of its ip, the first vulnerabilities row of a key by the last
    script finding of that key. *)

Arguments key_eqb : simpl never.
Arguments key_of : simpl never.

Lemma key_eqb_eq k1 k2 : key_eqb k1 k2 = true <-> k1 = k2.
Proof.
  destruct k1 as [[i1 p1] s1], k2 as [[i2 p2] s2]. unfold key_eqb.
  rewrite !andb_true_iff, !String.eqb_eq, Z.eqb_eq. split.
  - intros [[-> ->] ->]. reflexivity.
  - intros E; inversion E; auto.
Qed.

Lemma key_eqb_refl k : key_eqb k k = true.
Proof. now apply key_eqb_eq. Qed.

Lemma key_eqb_neq k1 k2 : key_eqb k1 k2 = false <-> k1 <> k2.
Proof.
  split.
  - intros E Heq. apply key_eqb_eq in Heq. congruence.
  - intros Hne. destruct (key_eqb k1 k2) eqn:E; [|reflexivity].
    apply key_eqb_eq in E. contradiction.
Qed.

Lemma seen_key_iff seen r :
  seen_key seen r = true <-> In (key_of r) seen.
Proof.
  unfold seen_key. rewrite existsb_exists. split.
  - intros (k & Hin & E). apply key_eqb_eq in E. now subst.
  - intros Hin. exists (key_of r). split; [assumption | apply key_eqb_refl].
Qed.

Lemma seen_key_same_key seen r r' :
  key_of r' = key_of r -> seen_key seen r' = seen_key seen r.
Proof. unfold seen_key. now intros ->. Qed.

Lemma last_script_snoc ops o k :
  last_script (ops ++ [o]) k =
  match o with
  | ScriptFinding ip port service ev =>
      if key_eqb (ip, port, service) k then Some ev else last_script ops k
  | _ => last_script ops k
  end.
Proof.
  induction ops as [|o' ops IH]; cbn [last_script app].
  - destruct o as [| |ip p s ev]; try reflexivity;
      try (destruct (key_eqb _ _); reflexivity).
  - rewrite IH. destruct o as [| |ip p s ev]; try reflexivity;
      try (destruct (key_eqb (ip, p, s) k); reflexivity).
Qed.

Lemma last_script_some ops k ev :
  last_script ops k = Some ev ->
  exists o, In o ops /\ op_key o = Some k.
Proof.
  revert ev. induction ops as [|o ops IH]; intros ev;
    cbn [last_script]; [discriminate|].
  destruct (last_script ops k) as [ev'|].
  - intros _. destruct (IH ev' eq_refl) as (o' & Hin & Hk).
    exists o'. split; [now right | assumption].
  - destruct o as [| |ip p s ev']; try discriminate.
    destruct (key_eqb (ip, p, s) k) eqn:E; [|discriminate].
    intros _. apply key_eqb_eq in E. exists (ScriptFinding ip p s ev').
    split; [now left | simpl; now rewrite E].
Qed.

Lemma last_save_snoc ops o ip :
  last_save (ops ++ [o]) ip =
  match o with
  | SaveDevice ip' mac vendor os =>
      if String.eqb ip' ip then Some (mac, vendor, os) else last_save ops ip
  | _ => last_save ops ip
  end.
Proof.
  induction ops as [|o' ops IH]; cbn [last_save app].
  - destruct o as [ip' m v os| |]; try reflexivity;
      try (destruct (String.eqb _ _); reflexivity).
  - rewrite IH. destruct o as [ip' m v os| |]; try reflexivity;
      try (destruct (String.eqb ip' ip); reflexivity).
Qed.

Section MapFirsts.
Variable g : vuln -> vuln.
Hypothesis g_id : forall r, v_id (g r) = v_id r.
Hypothesis g_key : forall r, key_of (g r) = key_of r.

Lemma map_firsts_ids vs : forall seen,
  map v_id (map_firsts g seen vs) = map v_id vs.
Proof.
  induction vs as [|r vs IH]; intros seen; [reflexivity|].
  simpl. rewrite IH. destruct (seen_key seen r); now rewrite ?g_id.
Qed.

Lemma map_firsts_keys vs : forall seen,
  map key_of (map_firsts g seen vs) = map key_of vs.
Proof.
  induction vs as [|r vs IH]; intros seen; [reflexivity|].
  simpl. rewrite IH. destruct (seen_key seen r); now rewrite ?g_key.
Qed.

Lemma map_firsts_ext g' vs : forall seen,
  (forall r, In r vs -> seen_key seen r = false -> g r = g' r) ->
  map_firsts g seen vs = map_firsts g' seen vs.
Proof.
  induction vs as [|r vs IH]; intros seen Hext; [reflexivity|].
  simpl. f_equal.
  - destruct (seen_key seen r) eqn:E; [reflexivity|].
    apply Hext; [now left | exact E].
  - apply IH. intros r' Hin Hs. apply Hext; [now right|].
    unfold seen_key in *. simpl in Hs. apply orb_false_iff in Hs. tauto.
Qed.

Lemma map_firsts_snoc_new row vs : forall seen,
  ~ In (key_of row) (map key_of vs) ->
  seen_key seen row = false ->
  map_firsts g seen (vs ++ [row]) = (map_firsts g seen vs ++ [g row])%list.
Proof.
  induction vs as [|r vs IH]; intros seen Hnew Hs.
  - simpl. now rewrite Hs.
  - simpl. f_equal. apply IH.
    + intros Hin. apply Hnew. now right.
    + unfold seen_key in *. simpl. rewrite Hs, orb_false_r.
      apply key_eqb_neq. intros E. apply Hnew. left. now symmetry.
Qed.

(** Rewriting the first row of the key [k] after [map_firsts] is
    [map_firsts] with the rewriting built in. *)
Lemma upd_first_map_firsts k f g' vs : forall seen,
  ~ In k seen ->
  (forall r, key_of r = k -> g' r = f (g r)) ->
  (forall r, key_of r <> k -> g' r = g r) ->
  upd_first k f (map_firsts g seen vs) = map_firsts g' seen vs.
Proof.
  intros seen Hk Hsame Hother. revert seen Hk.
  induction vs as [|r vs IH]; intros seen Hk; [reflexivity|].
  simpl. destruct (seen_key seen r) eqn:Hs.
  - assert (Hne : key_of r <> k).
    { intros E. apply seen_key_iff in Hs. congruence. }
    rewrite (proj2 (key_eqb_neq _ _) Hne). f_equal.
    apply IH. intros [E | Hin]; [congruence | contradiction].
  - rewrite g_key. destruct (key_eqb (key_of r) k) eqn:E.
    + apply key_eqb_eq in E. rewrite (Hsame r E). f_equal.
      apply map_firsts_ext. intros r' _ Hs'.
      symmetry. apply Hother. intros E'.
      unfold seen_key in Hs'. simpl in Hs'. apply orb_false_iff in Hs'.
      destruct Hs' as [Hs' _]. apply key_eqb_neq in Hs'. congruence.
    + apply key_eqb_neq in E. rewrite (Hother r E). f_equal.
      apply IH. intros [E' | Hin]; [congruence | contradiction].
Qed.

Lemma find_map_firsts k vs : forall seen,
  ~ In k seen ->
  find (fun r => key_eqb (key_of r) k) (map_firsts g seen vs)
  = option_map g (find (fun r => key_eqb (key_of r) k) vs).
Proof.
  induction vs as [|r vs IH]; intros seen Hk; [reflexivity|].
  simpl. destruct (seen_key seen r) eqn:Hs.
  - assert (Hne : key_of r <> k).
    { intros E. apply seen_key_iff in Hs. congruence. }
    rewrite (proj2 (key_eqb_neq _ _) Hne).
    apply IH. intros [E | Hin]; [congruence | contradiction].
  - rewrite g_key. destruct (key_eqb (key_of r) k) eqn:E; [reflexivity|].
    apply key_eqb_neq in E.
    apply IH. intros [E' | Hin]; [congruence | contradiction].
Qed.
End MapFirsts.

Lemma final_row_id ts ops r : v_id (final_row ts ops r) = v_id r.
Proof. unfold final_row. destruct (last_script ops (key_of r)); reflexivity. Qed.

Lemma final_row_key ts ops r : key_of (final_row ts ops r) = key_of r.
Proof. unfold final_row. destruct (last_script ops (key_of r)); reflexivity. Qed.

(** With a primary key, the UPDATE by the id of the first row of a key
    rewrites that row and no other. *)
Lemma update_by_id_is_upd_first k f vs r0 :
  NoDup (map v_id vs) ->
  find (fun r => key_eqb (key_of r) k) vs = Some r0 ->
  map (fun r => if v_id r =? v_id r0 then f r else r) vs = upd_first k f vs.
Proof.
  induction vs as [|r vs IH]; intros Hnd Hfind; [discriminate|].
  simpl in *. inversion Hnd as [|x xs Hnotin Hnd']; subst.
  destruct (key_eqb (key_of r) k) eqn:E.
  - injection Hfind as <-. rewrite Z.eqb_refl. f_equal.
    rewrite <- (map_id vs) at 2. apply map_ext_in. intros r' Hin.
    destruct (v_id r' =? v_id r) eqn:E'; [|reflexivity].
    apply Z.eqb_eq in E'. exfalso. apply Hnotin. rewrite <- E'.
    now apply in_map.
  - assert (Hin : In r0 vs) by (apply find_some in Hfind; tauto).
    destruct (v_id r =? v_id r0) eqn:E'.
    + apply Z.eqb_eq in E'. exfalso. apply Hnotin. rewrite E'.
      now apply in_map.
    + f_equal. now apply IH.
Qed.

Lemma next_rowid_fresh seq ids : ~ In (next_rowid seq ids) ids.
Proof.
  unfold next_rowid.
  assert (H : forall x, In x ids -> x <= fold_right Z.max seq ids).
  { induction ids as [|y ids IH]; intros x Hin; [easy|].
    simpl. destruct Hin as [-> | Hin]; [lia|].
    specialize (IH x Hin). lia. }
  intros Hin. specialize (H _ Hin). lia.
Qed.

Lemma map_firsts_id g vs : forall seen,
  (forall r, g r = r) -> map_firsts g seen vs = vs.
Proof.
  induction vs as [|r vs IH]; intros seen Hg; [reflexivity|].
  simpl. rewrite IH by assumption. now destruct (seen_key seen r); rewrite ?Hg.
Qed.

Lemma final_row_snoc ts ops o r :
  final_row ts (ops ++ [o]) r =
  match o with
  | ScriptFinding ip port service ev =>
      if key_eqb (ip, port, service) (key_of r)
      then set_vuln ev "High" ts r else final_row ts ops r
  | _ => final_row ts ops r
  end.
Proof.
  unfold final_row. rewrite last_script_snoc.
  destruct o as [| |ip p s ev]; try reflexivity.
  destruct (key_eqb (ip, p, s) (key_of r)); reflexivity.
Qed.

Lemma apply_ops_snoc ts ops o d d' :
  apply_ops ts (ops ++ [o]) d = Some d' ->
  exists d1, apply_ops ts ops d = Some d1 /\ apply_op ts o d1 = Some d'.
Proof.
  rewrite apply_ops_app. destruct (apply_ops ts ops d) as [d1|]; [|discriminate].
  simpl. destruct (apply_op ts o d1) as [d2|] eqn:E; [|discriminate].
  intros H; injection H as <-. now exists d1.
Qed.

Lemma find_key_none k vs :
  find (fun r => key_eqb (key_of r) k) vs = None ->
  ~ In k (map key_of vs).
Proof.
  intros Hf Hin. apply in_map_iff in Hin. destruct Hin as (r & E & Hin).
  pose proof (find_none _ _ Hf r Hin) as H. simpl in H.
  rewrite E, key_eqb_refl in H. discriminate.
Qed.

Lemma find_key_some k vs r :
  find (fun r => key_eqb (key_of r) k) vs = Some r ->
  In k (map key_of vs).
Proof.
  intros Hf. apply find_some in Hf. destruct Hf as [Hin E].
  apply key_eqb_eq in E. subst k. now apply in_map.
Qed.

(** The effect of one write on the vulnerabilities table. *)
Lemma apply_op_vulns ts o d d' :
  apply_op ts o d = Some d' ->
  match o with
  | SaveDevice _ _ _ _ =>
      vulnerabilities d' = vulnerabilities d
      /\ vulnerabilities_seq d' = vulnerabilities_seq d
  | OpenPort ip port service =>
      match find (fun r => key_eqb (key_of r) (ip, port, service))
                 (vulnerabilities d) with
      | Some _ =>
          vulnerabilities d' = vulnerabilities d
          /\ vulnerabilities_seq d' = vulnerabilities_seq d
      | None =>
          vulnerabilities d'
          = (vulnerabilities d
              ++ [mkVuln (next_rowid (vulnerabilities_seq d)
                                     (map v_id (vulnerabilities d)))
                         ip port service "Open port detected" "Informational"
                         ts])%list
      end
  | ScriptFinding ip port service ev =>
      match find (fun r => key_eqb (key_of r) (ip, port, service))
                 (vulnerabilities d) with
      | Some r0 =>
          vulnerabilities d'
          = map (fun r => if v_id r =? v_id r0
                          then set_vuln ev "High" ts r else r)
                (vulnerabilities d)
          /\ vulnerabilities_seq d' = vulnerabilities_seq d
      | None =>
          vulnerabilities d'
          = (vulnerabilities d
              ++ [mkVuln (next_rowid (vulnerabilities_seq d)
                                     (map v_id (vulnerabilities d)))
                         ip port service ev "High" ts])%list
      end
  end.
Proof.
  destruct o as [ip m v os | ip p s | ip p s ev]; simpl.
  - intros E; injection E as <-. unfold insert_or_ignore_device.
    destruct (existsb _ _); split; reflexivity.
  - destruct (sqlite_int64 p); [|discriminate]. intros E; injection E as <-.
    unfold select_vuln_id.
    change (has_key ip p s) with (fun r => key_eqb (key_of r) (ip, p, s)).
    destruct (find _ _); simpl; [split|]; reflexivity.
  - destruct (sqlite_int64 p); [|discriminate]. intros E; injection E as <-.
    unfold select_vuln_id.
    change (has_key ip p s) with (fun r => key_eqb (key_of r) (ip, p, s)).
    destruct (find _ _); simpl; [split|]; reflexivity.
Qed.

Ltac summary_split :=
  unfold vulns_summary; split; [|split; [|split; [|split]]].

Lemma vulns_summary_exists ts ops : forall d d',
  NoDup (map v_id (vulnerabilities d)) ->
  apply_ops ts ops d = Some d' ->
  exists news, vulns_summary ts ops d d' news.
Proof.
  induction ops as [|o ops IH] using rev_ind; intros d d' Hnd Hrun.
  { simpl in Hrun. injection Hrun as <-. exists []. unfold vulns_summary.
    rewrite app_nil_r. split; [|split; [|split; [|split]]]; try easy.
    symmetry. apply map_firsts_id. reflexivity. }
  apply apply_ops_snoc in Hrun. destruct Hrun as (d1 & Hrun1 & Hop).
  destruct (IH d d1 Hnd Hrun1) as (news & Hv & HndY & Hcl & Hnew & Hseq).
  pose proof (apply_op_vulns ts o d1 d' Hop) as Heff.
  assert (Hkeys : map key_of (vulnerabilities d1)
                  = map key_of (vulnerabilities d ++ news)).
  { rewrite Hv. apply map_firsts_keys, final_row_key. }
  assert (Hids : map v_id (vulnerabilities d1)
                 = map v_id (vulnerabilities d ++ news)).
  { rewrite Hv. apply map_firsts_ids, final_row_id. }
  assert (Hcl' : forall k, In k (map key_of (vulnerabilities d ++ news)) ->
            forall o' k', In o' (ops ++ [o]) -> op_key o' = Some k' ->
                          op_key o = Some k ->
                          In k' (map key_of (vulnerabilities d ++ news))).
  { intros k Hk o' k' Hin Hk' Hko. apply in_app_or in Hin.
    destruct Hin as [Hin | [<- | []]]; [now apply (Hcl o') | congruence]. }
  assert (Hnew' : forall r, In r news ->
            ~ In (key_of r) (map key_of (vulnerabilities d))
            /\ exists o', In o' (ops ++ [o]) /\ op_key o' = Some (key_of r)).
  { intros r Hr. destruct (Hnew r Hr) as [Hd (o' & Hin & Hk)].
    split; [assumption|]. exists o'. split; [|assumption].
    apply in_or_app. now left. }
  assert (Hext : forall o',
            (forall k, last_script (ops ++ [o']) k = last_script ops k) ->
            map_firsts (final_row ts ops) [] (vulnerabilities d ++ news)
            = map_firsts (final_row ts (ops ++ [o'])) []
                         (vulnerabilities d ++ news)).
  { intros o' E. apply map_firsts_ext.
    intros r _ _. unfold final_row. now rewrite E. }
  assert (Hfresh : ~ In (next_rowid (vulnerabilities_seq d1)
                                    (map v_id (vulnerabilities d1)))
                        (map v_id (vulnerabilities d ++ news))).
  { rewrite <- Hids. apply next_rowid_fresh. }
  destruct o as [ip m v os | ip p s | ip p s ev].
  - (* a device save leaves the table alone *)
    destruct Heff as [Hvs Hsq]. exists news. summary_split.
    + rewrite Hvs, Hv. apply Hext. intros k. now rewrite last_script_snoc.
    + assumption.
    + intros o' k' Hin Hk'. apply in_app_or in Hin.
      destruct Hin as [Hin | [<- | []]]; [now apply (Hcl o') | discriminate].
    + exact Hnew'.
    + intros E. rewrite Hsq. now apply Hseq.
  - (* an open port *)
    destruct (find _ (vulnerabilities d1)) as [r0|] eqn:Hfind.
    + destruct Heff as [Hvs Hsq]. exists news. summary_split.
      * rewrite Hvs, Hv. apply Hext. intros k. now rewrite last_script_snoc.
      * assumption.
      * intros o' k' Hin Hk'.
        apply (Hcl' (ip, p, s)) with (o' := o'); try assumption;
          try reflexivity.
        rewrite <- Hkeys. eapply find_key_some; eassumption.
      * exact Hnew'.
      * intros E. rewrite Hsq. now apply Hseq.
    + apply find_key_none in Hfind. rewrite Hkeys in Hfind.
      set (row := mkVuln (next_rowid (vulnerabilities_seq d1)
                                     (map v_id (vulnerabilities d1)))
                         ip p s "Open port detected" "Informational" ts)
        in *.
      assert (Hnone : last_script ops (key_of row) = None).
      { destruct (last_script ops (key_of row)) as [ev|] eqn:E;
          [|reflexivity].
        destruct (last_script_some _ _ _ E) as (o' & Hin & Hk).
        exfalso. apply Hfind. now apply (Hcl o'). }
      exists (news ++ [row])%list. summary_split.
      * rewrite Heff, Hv, app_assoc.
        rewrite (map_firsts_snoc_new _ row); [|exact Hfind | reflexivity].
        f_equal; [apply Hext; intros k; now rewrite last_script_snoc|].
        f_equal. rewrite final_row_snoc. unfold final_row.
        now rewrite Hnone.
      * rewrite app_assoc, map_app. simpl.
        apply NoDup_app; [assumption | repeat constructor; easy|].
        intros x Hx [<- | []]. exact (Hfresh Hx).
      * intros o' k' Hin Hk'. rewrite app_assoc, map_app.
        apply in_or_app. apply in_app_or in Hin.
        destruct Hin as [Hin | [<- | []]].
        -- left. now apply (Hcl o').
        -- right. injection Hk' as <-. now left.
      * intros r Hr. apply in_app_or in Hr. destruct Hr as [Hr | [<- | []]];
          [now apply Hnew'|]. split.
        -- intros Hin. apply Hfind. rewrite map_app. apply in_or_app.
           now left.
        -- exists (OpenPort ip p s). split; [|reflexivity].
           apply in_or_app. right. now left.
      * intros E. apply app_eq_nil in E. destruct E as [_ E]. discriminate.
  - (* a script finding *)
    destruct (find _ (vulnerabilities d1)) as [r0|] eqn:Hfind.
    + destruct Heff as [Hvs Hsq]. exists news. summary_split.
      * rewrite Hvs.
        rewrite (update_by_id_is_upd_first (ip, p, s) _ _ r0);
          [| now rewrite Hids | exact Hfind].
        rewrite Hv. apply upd_first_map_firsts.
        -- apply final_row_key.
        -- easy.
        -- intros r Hk. rewrite final_row_snoc, Hk, key_eqb_refl.
           unfold final_row. now destruct (last_script ops (key_of r)).
        -- intros r Hk. rewrite final_row_snoc.
           assert (E : key_eqb (ip, p, s) (key_of r) = false).
           { apply key_eqb_neq. congruence. }
           now rewrite E.
      * assumption.
      * intros o' k' Hin Hk'.
        apply (Hcl' (ip, p, s)) with (o' := o'); try assumption;
          try reflexivity.
        rewrite <- Hkeys. eapply find_key_some; eassumption.
      * exact Hnew'.
      * intros E. rewrite Hsq. now apply Hseq.
    + apply find_key_none in Hfind. rewrite Hkeys in Hfind.
      set (row := mkVuln (next_rowid (vulnerabilities_seq d1)
                                     (map v_id (vulnerabilities d1)))
                         ip p s ev "High" ts) in *.
      exists (news ++ [row])%list. summary_split.
      * rewrite Heff, Hv, app_assoc.
        rewrite (map_firsts_snoc_new _ row); [|exact Hfind | reflexivity].
        f_equal.
        -- apply map_firsts_ext.
           intros r Hin _. rewrite final_row_snoc.
           assert (E : key_eqb (ip, p, s) (key_of r) = false).
           { apply key_eqb_neq. intros E. apply Hfind. rewrite E.
             now apply in_map. }
           now rewrite E.
        -- f_equal. rewrite final_row_snoc.
           change (key_of row) with (ip, p, s). now rewrite key_eqb_refl.
      * rewrite app_assoc, map_app. simpl.
        apply NoDup_app; [assumption | repeat constructor; easy|].
        intros x Hx [<- | []]. exact (Hfresh Hx).
      * intros o' k' Hin Hk'. rewrite app_assoc, map_app.
        apply in_or_app. apply in_app_or in Hin.
        destruct Hin as [Hin | [<- | []]].
        -- left. now apply (Hcl o').
        -- right. injection Hk' as <-. now left.
      * intros r Hr. apply in_app_or in Hr. destruct Hr as [Hr | [<- | []]];
          [now apply Hnew'|]. split.
        -- intros Hin. apply Hfind. rewrite map_app. apply in_or_app.
           now left.
        -- exists (ScriptFinding ip p s ev). split; [|reflexivity].
           apply in_or_app. right. now left.
      * intros E. apply app_eq_nil in E. destruct E as [_ E]. discriminate.
Qed.

(** The same summary for the devices table. *)

Lemma final_device_ip ts ops r : d_ip (final_device ts ops r) = d_ip r.
Proof.
  unfold final_device. destruct (last_save ops (d_ip r)) as [[[m v] os]|];
    reflexivity.
Qed.

Lemma set_device_final ts ts' ops m v os r :
  set_device ts m v os (final_device ts' ops r) = set_device ts m v os r.
Proof.
  unfold final_device. destruct (last_save ops (d_ip r)) as [[[m' v'] os']|];
    reflexivity.
Qed.

Lemma final_device_snoc ts ops o r :
  final_device ts (ops ++ [o]) r =
  match o with
  | SaveDevice ip mac vendor os =>
      if String.eqb ip (d_ip r) then set_device ts mac vendor os r
      else final_device ts ops r
  | _ => final_device ts ops r
  end.
Proof.
  unfold final_device. rewrite last_save_snoc.
  destruct o as [ip m v os| |]; try reflexivity.
  destruct (String.eqb ip (d_ip r)); reflexivity.
Qed.

Lemma saves_snoc H ops o :
  saves H (ops ++ [o]) <->
  saves H ops \/ exists mac vendor os, o = SaveDevice H mac vendor os.
Proof.
  unfold saves. split.
  - intros (m & v & os & Hin). apply in_app_or in Hin.
    destruct Hin as [Hin | [Heq | []]].
    + left. now exists m, v, os.
    + right. exists m, v, os. now symmetry.
  - intros [(m & v & os & Hin) | (m & v & os & ->)]; exists m, v, os;
      apply in_or_app; [now left | right; now left].
Qed.

Lemma next_rowid_above seq ids : seq < next_rowid seq ids.
Proof.
  unfold next_rowid.
  assert (H : seq <= fold_right Z.max seq ids).
  { induction ids as [|y ids IH]; simpl; lia. }
  lia.
Qed.

Lemma devices_summary_exists ts ops : forall d d',
  apply_ops ts ops d = Some d' ->
  exists news, devices_summary ts ops d d' news.
Proof.
  induction ops as [|o ops IH] using rev_ind; intros d d' Hrun.
  { simpl in Hrun. injection Hrun as <-. exists []. unfold devices_summary.
    rewrite app_nil_r. split; [|split; [|split]]; try easy.
    - symmetry. apply map_id.
    - intros H (m & v & os & []). }
  apply apply_ops_snoc in Hrun. destruct Hrun as (d1 & Hrun1 & Hop).
  destruct (IH d d1 Hrun1) as (news & Hv & Hcl & Hnew & Hseq).
  pose proof (apply_op_devices ts o d1 d' Hop) as Heff.
  assert (Hips : ips d1 = map d_ip (devices d ++ news)).
  { unfold ips. rewrite Hv, map_map. apply map_ext. intros r.
    apply final_device_ip. }
  assert (Hnew' : forall r, In r news ->
            ~ In (d_ip r) (ips d) /\ saves (d_ip r) (ops ++ [o])).
  { intros r Hr. destruct (Hnew r Hr) as [Hd Hs]. split; [assumption|].
    apply saves_snoc. now left. }
  assert (Hother : (forall r, final_device ts (ops ++ [o]) r
                              = final_device ts ops r) ->
                   (forall H, saves H (ops ++ [o]) -> saves H ops) ->
                   devices d' = devices d1 ->
                   devices_seq d' = devices_seq d1 ->
                   devices_summary ts (ops ++ [o]) d d' news).
  { intros Hfd Hsv Hdv Hsq. split; [|split; [|split]].
    - rewrite Hdv, Hv. apply map_ext. intros r. now rewrite Hfd.
    - intros H Hs. apply Hcl, Hsv, Hs.
    - exact Hnew'.
    - now rewrite Hsq. }
  destruct o as [ip m v os | ip p s | ip p s ev].
  - subst d'. unfold update_device, insert_or_ignore_device.
    pose proof (next_rowid_above (devices_seq d1) (map d_id (devices d1)))
      as Habove.
    destruct (existsb (fun r => String.eqb (d_ip r) ip) (devices d1)) eqn:Hex.
    + exists news. split; [|split; [|split]].
      * simpl. rewrite Hv, map_map. apply map_ext. intros r.
        rewrite final_device_snoc, final_device_ip, set_device_final.
        now rewrite String.eqb_sym.
      * intros H Hs. apply saves_snoc in Hs.
        destruct Hs as [Hs | (m' & v' & os' & E)]; [now apply Hcl|].
        injection E as <- _ _ _. rewrite <- Hips. now apply existsb_ip.
      * exact Hnew'.
      * simpl. lia.
    + set (row := mkDevice (next_rowid (devices_seq d1)
                                       (map d_id (devices d1)))
                           ip None None None None None).
      exists (news ++ [row])%list. split; [|split; [|split]].
      * simpl. rewrite app_assoc, (map_app _ (devices d1)),
          (map_app _ (devices d ++ news)), Hv, map_map. f_equal.
        -- apply map_ext. intros r.
           rewrite final_device_snoc, final_device_ip, set_device_final.
           now rewrite String.eqb_sym.
        -- simpl. rewrite final_device_snoc. simpl.
           now rewrite String.eqb_refl.
      * intros H Hs. rewrite app_assoc, map_app. apply in_or_app.
        apply saves_snoc in Hs.
        destruct Hs as [Hs | (m' & v' & os' & E)]; [left; now apply Hcl|].
        injection E as <- _ _ _. right. now left.
      * intros r Hr. apply in_app_or in Hr.
        destruct Hr as [Hr | [<- | []]]; [now apply Hnew'|]. split.
        -- simpl. intros Hin.
           assert (Hin1 : In ip (ips d1)).
           { rewrite Hips, map_app. apply in_or_app. now left. }
           apply existsb_ip in Hin1. congruence.
        -- apply saves_snoc. right. now exists m, v, os.
      * simpl. lia.
  - destruct Heff as [Hdv Hsq]. exists news. apply Hother; try assumption.
    + intros r. now rewrite final_device_snoc.
    + intros H Hs. apply saves_snoc in Hs.
      destruct Hs as [Hs | (m' & v' & os' & E)]; [assumption | discriminate].
  - destruct Heff as [Hdv Hsq]. exists news. apply Hother; try assumption.
    + intros r. now rewrite final_device_snoc.
    + intros H Hs. apply saves_snoc in Hs.
      destruct Hs as [Hs | (m' & v' & os' & E)]; [assumption | discriminate].
Qed.

(** ** What a later pass stores for a host seen before *)

Lemma loop_end_app lines1 : forall st lines2,
  loop_end st (lines1 ++ lines2) = loop_end (loop_end st lines1) lines2.
Proof.
  induction lines1 as [|raw rest IH]; intros st lines2; [reflexivity|].
  simpl. apply IH.
Qed.

Lemma next_pstate_mac st raw :
  contains host_marker (strip raw) = false ->
  mac_search (strip raw) = None ->
  current_mac (next_pstate st raw) = current_mac st
  /\ current_vendor (next_pstate st raw) = current_vendor st.
Proof.
  intros Hh Hm. unfold next_pstate. rewrite Hh, Hm.
  destruct (is_empty (strip raw)); [now split|].
  destruct (os_search (strip raw)) as [[g1 g2]|]; [now split|].
  destruct (startswith (strip raw) ports_marker); [now split|].
  destruct (startswith (strip raw) script_marker); [now split|].
  destruct (is_noise (strip raw)); [now split|].
  destruct (in_ports st).
  - destruct (_ && _); now split.
  - destruct (in_script st); [|now split].
    destruct (_ && _); now split.
Qed.

Lemma loop_end_keeps_host lines : forall st,
  (forall l, In l lines ->
             contains host_marker l = false /\ mac_search (strip l) = None) ->
  current_ip (loop_end st lines) = current_ip st
  /\ current_mac (loop_end st lines) = current_mac st
  /\ current_vendor (loop_end st lines) = current_vendor st.
Proof.
  induction lines as [|raw rest IH]; intros st Hno; [now repeat split|].
  destruct (Hno raw (or_introl eq_refl)) as [Hh Hm].
  rewrite <- contains_host_marker_strip in Hh.
  simpl. destruct (IH (next_pstate st raw)) as (Hip & Hmac & Hven).
  { intros l Hl. apply Hno. now right. }
  rewrite Hip, Hmac, Hven, next_pstate_ip by assumption.
  destruct (next_pstate_mac st raw Hh Hm) as [-> ->]. now repeat split.
Qed.

Lemma update_device_rows ts mac vendor os ip d r :
  In r (devices (update_device ts mac vendor os ip d)) ->
  d_ip r = ip ->
  d_mac r = mac /\ d_vendor r = vendor /\ d_os r = os
  /\ d_status r = Some "up" /\ d_last_seen r = Some ts.
Proof.
  unfold update_device; simpl. intros Hin Hip.
  apply in_map_iff in Hin. destruct Hin as (r0 & Hr & _).
  destruct (String.eqb (d_ip r0) ip) eqn:E.
  - subst r. now repeat split.
  - subst r. apply String.eqb_neq in E. congruence.
Qed.

Lemma loop_ops_app lines1 : forall st lines2,
  loop_ops st (lines1 ++ lines2)
  = (loop_ops st lines1 ++ loop_ops (loop_end st lines1) lines2)%list.
Proof.
  induction lines1 as [|raw rest IH]; intros st lines2; [reflexivity|].
  simpl. rewrite IH. destruct (line_op st raw); reflexivity.
Qed.

Lemma last_save_app ops1 ops2 ip :
  last_save (ops1 ++ ops2) ip
  = match last_save ops2 ip with
    | Some x => Some x
    | None => last_save ops1 ip
    end.
Proof.
  induction ops1 as [|o ops1 IH]; simpl.
  - now destruct (last_save ops2 ip).
  - rewrite IH. now destruct (last_save ops2 ip).
Qed.

Lemma line_op_header st raw :
  contains host_marker raw = true ->
  line_op st raw
  = match truthy (current_ip st) with
    | Some ip => Some (SaveDevice ip (current_mac st) (current_vendor st)
                                  (current_os st))
    | None => None
    end
  /\ next_pstate st raw = fresh_pstate (header_ip (strip raw)).
Proof.
  intros Hh. rewrite <- contains_host_marker_strip in Hh.
  unfold line_op, next_pstate. rewrite Hh.
  destruct (is_empty (strip raw)) eqn:He; [|now split].
  apply is_empty_true in He. rewrite He in Hh. discriminate.
Qed.

Lemma line_op_no_save st raw o :
  contains host_marker raw = false ->
  line_op st raw = Some o ->
  forall ip, last_save [o] ip = None.
Proof.
  intros Hh. rewrite <- contains_host_marker_strip in Hh.
  unfold line_op. rewrite Hh.
  destruct (is_empty (strip raw)); [discriminate|].
  destruct (is_content (strip raw)); [|discriminate].
  destruct (in_ports st).
  - destruct (_ && _); [|discriminate].
    destruct (py_int _); [|discriminate]. now intros E; injection E as <-.
  - destruct (in_script st); [|discriminate].
    destruct (_ && _); [|discriminate]. now intros E; injection E as <-.
Qed.

(** After its last header, a host is saved no more. *)
Lemma no_later_save H lines : forall st,
  truthy (current_ip st) <> Some H ->
  (forall l, In l lines -> contains host_marker l = true ->
             header_ip (strip l) <> H) ->
  last_save (loop_ops st lines ++ final_op (loop_end st lines)) H = None.
Proof.
  induction lines as [|raw rest IH]; intros st Hip Hlater.
  - simpl. unfold final_op. destruct (truthy (current_ip st)) as [ip|] eqn:E;
      [|reflexivity].
    simpl. destruct (String.eqb ip H) eqn:Eq; [|reflexivity].
    apply String.eqb_eq in Eq. congruence.
  - assert (Hrest : forall l, In l rest -> contains host_marker l = true ->
                              header_ip (strip l) <> H).
    { intros l Hl. apply Hlater. now right. }
    destruct (contains host_marker raw) eqn:Hh.
    + destruct (line_op_header st raw Hh) as [Hop Hnext].
      assert (Htail : last_save (loop_ops (next_pstate st raw) rest
                                   ++ final_op (loop_end (next_pstate st raw)
                                                         rest)) H = None).
      { apply IH; [|exact Hrest]. rewrite Hnext.
        unfold fresh_pstate. cbn [current_ip].
        intros E. apply truthy_some in E. destruct E as [E _].
        injection E as E. apply (Hlater raw (or_introl eq_refl) Hh E). }
      cbn [loop_ops loop_end]. rewrite Hop.
      destruct (truthy (current_ip st)) as [ip|] eqn:E; [|exact Htail].
      cbn [app last_save]. rewrite Htail.
      destruct (String.eqb ip H) eqn:Eq; [|reflexivity].
      apply String.eqb_eq in Eq. congruence.
    + assert (Htail : last_save (loop_ops (next_pstate st raw) rest
                                   ++ final_op (loop_end (next_pstate st raw)
                                                         rest)) H = None).
      { apply IH; [|exact Hrest]. rewrite next_pstate_ip; [exact Hip|].
        now rewrite contains_host_marker_strip. }
      cbn [loop_ops loop_end].
      destruct (line_op st raw) as [o|] eqn:Eo; [|exact Htail].
      cbn [app last_save]. rewrite Htail.
      pose proof (line_op_no_save st raw o Hh Eo H) as Hno.
      simpl in Hno. exact Hno.
Qed.

(** The last save of a host carries what its last report accumulated. *)
Lemma last_report_saved H rest : forall st,
  truthy (current_ip st) = Some H ->
  (forall l, In l rest -> contains host_marker l = true ->
             header_ip (strip l) <> H) ->
  last_save (loop_ops st rest ++ final_op (loop_end st rest)) H
  = Some (current_mac (loop_end st (report_body rest)),
          current_vendor (loop_end st (report_body rest)),
          current_os (loop_end st (report_body rest))).
Proof.
  induction rest as [|raw rest IH]; intros st Hip Hlater.
  - simpl. unfold final_op. rewrite Hip. simpl. now rewrite String.eqb_refl.
  - assert (Hrest : forall l, In l rest -> contains host_marker l = true ->
                              header_ip (strip l) <> H).
    { intros l Hl. apply Hlater. now right. }
    cbn [report_body]. destruct (contains host_marker raw) eqn:Hh.
    + destruct (line_op_header st raw Hh) as [Hop Hnext].
      cbn [loop_ops loop_end]. rewrite Hop, Hip. cbn [app last_save].
      rewrite no_later_save;
        [|rewrite Hnext; unfold fresh_pstate; cbn [current_ip] | exact Hrest].
      * now rewrite String.eqb_refl.
      * intros E. apply truthy_some in E. destruct E as [E _].
        injection E as E. apply (Hlater raw (or_introl eq_refl) Hh E).
    + cbn [loop_ops loop_end].
      assert (Htail := IH (next_pstate st raw)).
      rewrite next_pstate_ip in Htail
        by now rewrite contains_host_marker_strip.
      specialize (Htail Hip Hrest).
      destruct (line_op st raw) as [o|]; [|exact Htail].
      cbn [app last_save]. now rewrite Htail.
Qed.

Lemma report_body_no_header lines l :
  In l (report_body lines) -> contains host_marker l = false.
Proof.
  induction lines as [|x lines IH]; [easy|].
  simpl. destruct (contains host_marker x) eqn:E; [easy|].
  intros [<- | Hin]; [exact E | now apply IH].
Qed.

Lemma next_pstate_os st raw :
  contains host_marker (strip raw) = false ->
  os_search (strip raw) = None ->
  current_os (next_pstate st raw) = current_os st.
Proof.
  intros Hh Ho. unfold next_pstate. rewrite Hh, Ho.
  destruct (is_empty (strip raw)); [reflexivity|].
  destruct (mac_search (strip raw)) as [[m v]|]; [reflexivity|].
  destruct (startswith (strip raw) ports_marker); [reflexivity|].
  destruct (startswith (strip raw) script_marker); [reflexivity|].
  destruct (is_noise (strip raw)); [reflexivity|].
  destruct (in_ports st).
  - destruct (_ && _); reflexivity.
  - destruct (in_script st); [|reflexivity].
    destruct (_ && _); reflexivity.
Qed.

Lemma loop_end_keeps_os lines : forall st,
  (forall l, In l lines ->
             contains host_marker l = false /\ os_search (strip l) = None) ->
  current_os (loop_end st lines) = current_os st.
Proof.
  induction lines as [|raw rest IH]; intros st Hno; [reflexivity|].
  destruct (Hno raw (or_introl eq_refl)) as [Hh Ho].
  rewrite <- contains_host_marker_strip in Hh.
  simpl. rewrite IH by (intros l Hl; apply Hno; now right).
  now apply next_pstate_os.
Qed.

Lemma next_pstate_mac_line st raw mac vendor :
  contains host_marker (strip raw) = false ->
  mac_search (strip raw) = Some (mac, vendor) ->
  current_ip (next_pstate st raw) = current_ip st
  /\ current_mac (next_pstate st raw) = Some mac
  /\ current_vendor (next_pstate st raw) = vendor.
Proof.
  intros Hh Hm. unfold next_pstate. rewrite Hh, Hm.
  destruct (is_empty (strip raw)) eqn:He; [|now repeat split].
  apply is_empty_true in He. rewrite He in Hm. discriminate.
Qed.

(** C6, as the code has it. On re-sighting of an ip, the values of the
    later pass overwrite the stored os, mac and vendor alike, wherever the
    report of that ip stands in the output (saved at the next host header
    or by the final flush): after the pass, the row of the ip holds what
    the loop accumulated over the lines of the last report of that ip, up
    to the next header.  When that report has no MAC line, the stored mac
    and vendor are null, whatever they were before; when it has one, they
    are the address and the vendor of its last MAC line; when it has no OS
    line, the stored os is null; status is 'up' and last_seen the time of
    the pass. *)
Theorem later_pass_overwrites_mac_vendor_os
        d nmap_output ts d' pre hdr rest :
  splitlines nmap_output = (pre ++ hdr :: rest)%list ->
  contains host_marker hdr = true ->
  header_ip (strip hdr) <> EmptyString ->
  (forall l, In l rest -> contains host_marker l = true ->
             header_ip (strip l) <> header_ip (strip hdr)) ->
  run [] d nmap_output ts = (Ok tt, d') ->
  let H := header_ip (strip hdr) in
  let body := report_body rest in
  let seen := loop_end (fresh_pstate H) body in
  (exists r, In r (devices d') /\ d_ip r = H)
  /\ (forall r, In r (devices d') -> d_ip r = H ->
        d_mac r = current_mac seen /\ d_vendor r = current_vendor seen
        /\ d_os r = current_os seen
        /\ d_status r = Some "up" /\ d_last_seen r = Some ts)
  /\ ((forall l, In l body -> mac_search (strip l) = None) ->
      current_mac seen = None /\ current_vendor seen = None)
  /\ (forall before line after mac vendor,
        body = (before ++ line :: after)%list ->
        mac_search (strip line) = Some (mac, vendor) ->
        (forall l, In l after -> mac_search (strip l) = None) ->
        current_mac seen = Some mac /\ current_vendor seen = vendor)
  /\ ((forall l, In l body -> os_search (strip l) = None) ->
      current_os seen = None).
Proof.
  intros Hlines Hh Hne Hlast Hrun H body seen.
  assert (Hbody : forall l, In l body -> contains host_marker l = false).
  { intros l. apply report_body_no_header. }
  apply run_ok_iff in Hrun.
  assert (Hsave : last_save (ops_of nmap_output) H
                  = Some (current_mac seen, current_vendor seen,
                          current_os seen)).
  { unfold ops_of, final_pstate. rewrite Hlines, loop_ops_app, loop_end_app.
    cbn [loop_ops loop_end].
    destruct (line_op_header (loop_end initial_pstate pre) hdr Hh)
      as [_ Hnext].
    rewrite Hnext. fold H.
    assert (Hpart := last_report_saved H rest (fresh_pstate H)
                       (truthy_of_nonempty _ Hne) Hlast).
    fold body in Hpart. fold seen in Hpart.
    rewrite <- app_assoc, last_save_app.
    destruct (line_op (loop_end initial_pstate pre) hdr) as [o|].
    - rewrite <- app_comm_cons, <- (app_nil_l (loop_ops _ rest ++ _)),
        app_comm_cons, last_save_app, Hpart. reflexivity.
    - now rewrite Hpart. }
  destruct (devices_summary_exists ts _ d d' Hrun) as (news & Hd & _).
  split; [|split; [|split; [|split]]].
  - destruct (apply_ops_ips ts _ _ _ Hrun) as (_ & _ & Hs).
    assert (Hin : In H (ips d')).
    { apply Hs. apply (header_saved nmap_output hdr H); auto.
      - rewrite Hlines. apply in_or_app. right. now left.
      - now rewrite contains_host_marker_strip. }
    unfold ips in Hin. apply in_map_iff in Hin.
    destruct Hin as (r & Hr & Hin). now exists r.
  - intros r Hin Hr. rewrite Hd in Hin. apply in_map_iff in Hin.
    destruct Hin as (y & <- & _). rewrite final_device_ip in Hr.
    unfold final_device. rewrite Hr, Hsave. now repeat split.
  - intros Hnomac.
    destruct (loop_end_keeps_host body (fresh_pstate H)) as (_ & Hm & Hv).
    { intros l Hl. split; [now apply Hbody | now apply Hnomac]. }
    fold seen in Hm, Hv. now rewrite Hm, Hv.
  - intros before line after mac vendor Hsplit Hmac Hafter.
    assert (Hline : contains host_marker (strip line) = false).
    { rewrite contains_host_marker_strip. apply Hbody. rewrite Hsplit.
      apply in_or_app. right. now left. }
    unfold seen. rewrite Hsplit, loop_end_app. cbn [loop_end].
    destruct (loop_end_keeps_host after
                (next_pstate (loop_end (fresh_pstate H) before) line))
      as (_ & Hm & Hv).
    { intros l Hl. split; [|now apply Hafter].
      apply Hbody. rewrite Hsplit. apply in_or_app. right. now right. }
    rewrite Hm, Hv.
    destruct (next_pstate_mac_line (loop_end (fresh_pstate H) before) line
                                   mac vendor Hline Hmac) as (_ & -> & ->).
    now split.
  - intros Hnoos. unfold seen. rewrite loop_end_keeps_os; [reflexivity|].
    intros l Hl. split; [now apply Hbody | now apply Hnoos].
Qed.

Lemma later_pass_overwrites_mac_vendor_os_witness :
  exists r,
    In r (devices (snd (run [] c6_db c9_output "2026-01-02T00:00:00")))
    /\ d_ip r = "10.0.0.5" /\ d_mac r = None /\ d_vendor r = None
    /\ d_os r = None.
Proof.
  destruct (later_pass_overwrites_mac_vendor_os
              c6_db c9_output "2026-01-02T00:00:00"
              (snd (run [] c6_db c9_output "2026-01-02T00:00:00"))
              [] "Nmap scan report for 10.0.0.5"
              ["PORT      STATE SERVICE"; "80/tcp open http";
               "Nmap scan report for 10.0.0.6"; "PORT      STATE SERVICE";
               "22/tcp open ssh"])
    as ((r & Hin & Hr) & Hrow & Hnomac & _ & Hnoos).
  - reflexivity.
  - reflexivity.
  - discriminate.
  - intros l Hl Hh.
    repeat (destruct Hl as [<- | Hl]; [discriminate|]). destruct Hl.
  - reflexivity.
  - assert (Hb : forall l,
               In l (report_body
                       ["PORT      STATE SERVICE"; "80/tcp open http";
                        "Nmap scan report for 10.0.0.6";
                        "PORT      STATE SERVICE"; "22/tcp open ssh"]) ->
               mac_search (strip l) = None /\ os_search (strip l) = None).
    { intros l Hl. simpl in Hl.
      repeat (destruct Hl as [<- | Hl]; [split; reflexivity|]). destruct Hl. }
    destruct (Hnomac (fun l Hl => proj1 (Hb l Hl))) as [Hm' Hv'].
    pose proof (Hnoos (fun l Hl => proj2 (Hb l Hl))) as Ho'.
    destruct (Hrow r Hin Hr) as (Hm & Hv & Ho & _).
    exists r. repeat split; [exact Hin | exact Hr | congruence ..].
Defined.

(** C6 as stated fails: a pass that captures no MAC line for an ip whose row
    holds a mac and a vendor leaves both null. *)
Lemma null_mac_overwrites_stored_mac :
  map d_mac (devices c6_db) = [Some "AA:BB:CC:DD:EE:FF"]
  /\ map d_vendor (devices c6_db) = [Some "Acme Corp"]
  /\ run [] c6_db c6_output "2026-01-02T00:00:00"
     = (Ok tt,
        mkDb [mkDevice 1 "10.0.0.5" None None None (Some "up")
                       (Some "2026-01-02T00:00:00")] 2 [] 0).
Proof. repeat split. Qed.

(** ** A second pass over the same output *)

Lemma apply_ops_completes_again ts ops : forall d d1,
  apply_ops ts ops d = Some d1 ->
  forall ts' d', exists d'', apply_ops ts' ops d' = Some d''.
Proof.
  induction ops as [|o ops IH]; intros d d1 Hrun ts' d'.
  - now exists d'.
  - simpl in *. destruct (apply_op ts o d) as [dx|] eqn:E; [|discriminate].
    assert (Hop : exists dy, apply_op ts' o d' = Some dy).
    { destruct o as [ip m v os | ip p s | ip p s ev]; simpl in *.
      - eexists; reflexivity.
      - destruct (sqlite_int64 p); [eexists; reflexivity | discriminate].
      - destruct (sqlite_int64 p); [eexists; reflexivity | discriminate]. }
    destruct Hop as (dy & ->). apply (IH dx d1 Hrun).
Qed.

Lemma vulns_summary_closed ts ops d d' news :
  vulns_summary ts ops d d' news ->
  (forall o k, In o ops -> op_key o = Some k ->
               In k (map key_of (vulnerabilities d))) ->
  news = [].
Proof.
  intros (_ & _ & _ & Hnew & _) Hclosed.
  destruct news as [|r news]; [reflexivity|].
  destruct (Hnew r (or_introl eq_refl)) as [Hno (o & Hin & Hk)].
  exfalso. apply Hno. now apply (Hclosed o).
Qed.

Lemma devices_summary_closed ts ops d d' news :
  devices_summary ts ops d d' news ->
  (forall H, saves H ops -> In H (ips d)) ->
  news = [].
Proof.
  intros (_ & _ & Hnew & _) Hclosed.
  destruct news as [|r news]; [reflexivity|].
  destruct (Hnew r (or_introl eq_refl)) as [Hno Hs].
  exfalso. apply Hno. now apply Hclosed.
Qed.

Lemma map_firsts_twice (R : vuln -> vuln -> Prop) g1 g2 vs : forall seen,
  (forall r, key_of (g1 r) = key_of r) ->
  (forall r, R r r) ->
  (forall r, R (g1 r) (g2 (g1 r))) ->
  Forall2 R (map_firsts g1 seen vs)
            (map_firsts g2 seen (map_firsts g1 seen vs)).
Proof.
  intros seen Hkey Hrefl Hstep. revert seen.
  induction vs as [|r vs IH]; intros seen; [constructor|].
  simpl. destruct (seen_key seen r) eqn:Hs.
  - rewrite Hs. constructor; [apply Hrefl | apply IH].
  - rewrite (seen_key_same_key seen r (g1 r) (Hkey r)), Hs, Hkey.
    constructor; [apply Hstep | apply IH].
Qed.

Lemma Forall2_eq {A} (l1 l2 : list A) : Forall2 eq l1 l2 -> l1 = l2.
Proof. induction 1; congruence. Qed.

Lemma final_row_twice ts1 ts2 ops r :
  let r1 := final_row ts1 ops r in
  let r2 := final_row ts2 ops r1 in
  same_but_timestamp r1 r2
  /\ (v_severity r1 = "Informational" -> r2 = r1)
  /\ (ts2 = ts1 -> r2 = r1).
Proof.
  cbv zeta. unfold final_row at 1 3.
  unfold final_row. destruct (last_script ops (key_of r)) as [ev|] eqn:E.
  - change (key_of (set_vuln ev "High" ts1 r)) with (key_of r). rewrite E.
    repeat split.
    + simpl. discriminate.
    + intros ->. reflexivity.
  - rewrite E. repeat split. now destruct r.
Qed.

Lemma final_device_twice ts1 ts2 ops r :
  let r1 := final_device ts1 ops r in
  let r2 := final_device ts2 ops r1 in
  same_but_last_seen r1 r2 /\ (ts2 = ts1 -> r2 = r1).
Proof.
  cbv zeta. unfold final_device.
  destruct (last_save ops (d_ip r)) as [[[m v] os]|] eqn:E.
  - change (d_ip (set_device ts1 m v os r)) with (d_ip r). rewrite E.
    split; [reflexivity|]. intros ->. reflexivity.
  - rewrite E. split; [now destruct r | reflexivity].
Qed.

Lemma Forall2_map_twice {A} (R : A -> A -> Prop) (g1 g2 : A -> A) l :
  (forall r, R (g1 r) (g2 (g1 r))) ->
  Forall2 R (map g1 l) (map g2 (map g1 l)).
Proof.
  intros H. induction l as [|r l IH]; simpl; constructor; auto.
Qed.

Lemma Forall2_weaken {A} (R1 R2 : A -> A -> Prop) l1 l2 :
  (forall x y, R1 x y -> R2 x y) -> Forall2 R1 l1 l2 -> Forall2 R2 l1 l2.
Proof. intros H. induction 1; constructor; auto. Qed.

Lemma second_pass_ops ts1 ts2 ops d d1 :
  wf_db d ->
  apply_ops ts1 ops d = Some d1 ->
  exists d2,
    apply_ops ts2 ops d1 = Some d2
    /\ Forall2 (fun r1 r2 => same_but_last_seen r1 r2
                             /\ (ts2 = ts1 -> r2 = r1))
               (devices d1) (devices d2)
    /\ Forall2 (fun r1 r2 => same_but_timestamp r1 r2
                             /\ (v_severity r1 = "Informational" -> r2 = r1)
                             /\ (ts2 = ts1 -> r2 = r1))
               (vulnerabilities d1) (vulnerabilities d2)
    /\ devices_seq d1 <= devices_seq d2
    /\ vulnerabilities_seq d2 = vulnerabilities_seq d1.
Proof.
  intros [_ Hnd] Hrun1.
  destruct (apply_ops_completes_again ts1 ops d d1 Hrun1 ts2 d1)
    as (d2 & Hrun2).
  exists d2. split; [exact Hrun2|].
  (* the vulnerabilities table *)
  destruct (vulns_summary_exists ts1 ops d d1 Hnd Hrun1)
    as (news1 & Hv1 & Hnd1 & Hcl1 & _ & _).
  assert (Hnd1' : NoDup (map v_id (vulnerabilities d1))).
  { rewrite Hv1, map_firsts_ids; [assumption | apply final_row_id]. }
  destruct (vulns_summary_exists ts2 ops d1 d2 Hnd1' Hrun2)
    as (news2 & Hsum2).
  assert (Hn2 : news2 = []).
  { apply (vulns_summary_closed ts2 ops d1 d2 news2 Hsum2).
    intros o k Hin Hk. rewrite Hv1, map_firsts_keys;
      [now apply (Hcl1 o) | apply final_row_key]. }
  destruct Hsum2 as (Hv2 & _ & _ & _ & Hseq2). subst news2.
  rewrite app_nil_r in Hv2.
  (* the devices table *)
  destruct (devices_summary_exists ts1 ops d d1 Hrun1)
    as (dnews1 & Hd1 & Hdcl1 & _ & _).
  destruct (devices_summary_exists ts2 ops d1 d2 Hrun2) as (dnews2 & Hdsum2).
  assert (Hdn2 : dnews2 = []).
  { apply (devices_summary_closed ts2 ops d1 d2 dnews2 Hdsum2).
    intros H Hs. unfold ips. rewrite Hd1, map_map.
    rewrite (map_ext _ d_ip (final_device_ip ts1 ops)). now apply Hdcl1. }
  destruct Hdsum2 as (Hd2 & _ & _ & Hdseq2). subst dnews2.
  rewrite app_nil_r in Hd2.
  split; [|split; [|split]].
  - rewrite Hd2, Hd1. apply Forall2_map_twice. intros r.
    apply final_device_twice.
  - rewrite Hv2, Hv1. apply map_firsts_twice.
    + apply final_row_key.
    + intros r. repeat split. now destruct r.
    + intros r. apply final_row_twice.
  - exact Hdseq2.
  - now apply Hseq2.
Qed.

(** Every save advances the counter of the devices table. *)
Lemma apply_ops_counter ts ops : forall d d',
  apply_ops ts ops d = Some d' ->
  devices_seq d <= devices_seq d'
  /\ ((exists H, saves H ops) -> devices_seq d < devices_seq d').
Proof.
  induction ops as [|o ops IH]; intros d d' Hrun; simpl in Hrun.
  - injection Hrun as <-. split; [lia|]. intros (H & m & v & os & []).
  - destruct (apply_op ts o d) as [dx|] eqn:E; [|discriminate].
    destruct (IH dx d' Hrun) as [Hle Hlt].
    pose proof (apply_op_devices ts o d dx E) as Heff.
    destruct o as [ip m v os | ip p s | ip p s ev].
    + assert (Hstep : devices_seq d < devices_seq dx).
      { subst dx. unfold update_device, insert_or_ignore_device.
        pose proof (next_rowid_above (devices_seq d) (map d_id (devices d))).
        destruct (existsb _ _); simpl; lia. }
      split; [lia | intros _; lia].
    + destruct Heff as [_ Hsq]. rewrite <- Hsq. split; [exact Hle|].
      intros (H & m & v & os & [Heq | Hin]); [discriminate|].
      apply Hlt. now exists H, m, v, os.
    + destruct Heff as [_ Hsq]. rewrite <- Hsq. split; [exact Hle|].
      intros (H & m & v & os & [Heq | Hin]); [discriminate|].
      apply Hlt. now exists H, m, v, os.
Qed.

Lemma count_by_keys k (l1 : list vuln) : forall l2,
  map key_of l1 = map key_of l2 ->
  length (filter (fun r => key_eqb (key_of r) k) l1)
  = length (filter (fun r => key_eqb (key_of r) k) l2).
Proof.
  induction l1 as [|r1 l1 IH]; intros [|r2 l2] E; try discriminate;
    [reflexivity|].
  cbn [map] in E.
  assert (E1 : key_of r1 = key_of r2) by congruence.
  assert (E2 : map key_of l1 = map key_of l2) by congruence.
  simpl. rewrite E1.
  destruct (key_eqb (key_of r2) k); simpl; now rewrite (IH l2 E2).
Qed.

Lemma filter_key_absent k (l : list vuln) :
  (forall r, In r l -> key_of r <> k) ->
  filter (fun r => key_eqb (key_of r) k) l = [].
Proof.
  induction l as [|r l IH]; intros H; [reflexivity|].
  simpl. rewrite (proj2 (key_eqb_neq _ _) (H r (or_introl eq_refl))).
  apply IH. intros r' Hr'. apply H. now right.
Qed.

Lemma find_app_present {A} (p : A -> bool) l1 l2 r :
  find p l1 = Some r -> find p (l1 ++ l2) = Some r.
Proof.
  induction l1 as [|x l1 IH]; simpl; [discriminate|].
  destruct (p x); [auto | exact IH].
Qed.

Lemma find_key_present k vs :
  In k (map key_of vs) ->
  exists r, find (fun r => key_eqb (key_of r) k) vs = Some r.
Proof.
  intros Hin. destruct (find _ vs) as [r|] eqn:E; [now exists r|].
  apply find_key_none in E. contradiction.
Qed.

(** A pass never adds a row for a key that has one, and script evidence
    for such a key rewrites its first row where it stands. *)
Lemma existing_key_updated_in_place ts ops d d' ip port service :
  wf_db d ->
  apply_ops ts ops d = Some d' ->
  (exists r, In r (vulnerabilities d) /\ has_key ip port service r = true) ->
  length (filter (has_key ip port service) (vulnerabilities d'))
  = length (filter (has_key ip port service) (vulnerabilities d))
  /\ forall ev,
       last_script ops (ip, port, service) = Some ev ->
       exists r,
         find (has_key ip port service) (vulnerabilities d) = Some r
         /\ find (has_key ip port service) (vulnerabilities d')
            = Some (set_vuln ev "High" ts r).
Proof.
  intros [_ Hnd] Hrun (r0 & Hin0 & Hk0).
  change (has_key ip port service)
    with (fun r => key_eqb (key_of r) (ip, port, service)) in *.
  simpl in Hk0. apply key_eqb_eq in Hk0.
  assert (Hpres : In (ip, port, service) (map key_of (vulnerabilities d))).
  { rewrite <- Hk0. now apply in_map. }
  destruct (vulns_summary_exists ts ops d d' Hnd Hrun)
    as (news & Hv & _ & _ & Hnew & _).
  split.
  - rewrite (count_by_keys _ (vulnerabilities d')
                           (vulnerabilities d ++ news)).
    + rewrite filter_app, length_app, (filter_key_absent _ news);
        [simpl; lia|].
      intros r Hr E. destruct (Hnew r Hr) as [Hno _].
      apply Hno. rewrite E. exact Hpres.
    + rewrite Hv. apply map_firsts_keys, final_row_key.
  - intros ev Hev. destruct (find_key_present _ _ Hpres) as (r & Hfind).
    exists r. split; [exact Hfind|].
    rewrite Hv, find_map_firsts; [|apply final_row_key | easy].
    rewrite (find_app_present _ _ news r Hfind). simpl. f_equal.
    apply find_some in Hfind. destruct Hfind as [_ Hk].
    apply key_eqb_eq in Hk. unfold final_row. now rewrite Hk, Hev.
Qed.

(** C1, as the code has it. Running parse_and_store_nmap a second time on
    the same output, against the store the first run left, ends normally
    and inserts no row: the tables keep their rows in place, every row that
    was Informational after the first run is exactly as it was, a row
    differs from its state after the first run at most in its time stamp
    (last_seen of a device, timestamp of a High finding), and no row
    changes at all when both runs read the same time.  The store is still
    not the same: every save of a host executes INSERT OR IGNORE, which
    advances the AUTOINCREMENT counter of the devices table although the
    row is ignored; the counter of the vulnerabilities table stays.  And
    when a pass has script evidence for a key (device_ip, port, service)
    that already has a row, the number of rows with that key stays the
    same and the first of them is rewritten in place with the evidence,
    severity High and the time of the pass. *)
Theorem second_pass_inserts_no_row d nmap_output ts1 ts2 d1 :
  wf_db d ->
  run [] d nmap_output ts1 = (Ok tt, d1) ->
  (exists d2,
      run [] d1 nmap_output ts2 = (Ok tt, d2)
      /\ Forall2 same_but_last_seen (devices d1) (devices d2)
      /\ Forall2 (fun r1 r2 =>
                    same_but_timestamp r1 r2
                    /\ (v_severity r1 = "Informational" -> r2 = r1))
                 (vulnerabilities d1) (vulnerabilities d2)
      /\ (ts2 = ts1 ->
          devices d2 = devices d1 /\ vulnerabilities d2 = vulnerabilities d1)
      /\ vulnerabilities_seq d2 = vulnerabilities_seq d1
      /\ devices_seq d1 <= devices_seq d2
      /\ ((exists H, saves H (ops_of nmap_output)) ->
          devices_seq d1 < devices_seq d2))
  /\ forall ip port service,
       (exists r, In r (vulnerabilities d)
                  /\ has_key ip port service r = true) ->
       length (filter (has_key ip port service) (vulnerabilities d1))
       = length (filter (has_key ip port service) (vulnerabilities d))
       /\ forall ev,
            last_script (ops_of nmap_output) (ip, port, service) = Some ev ->
            exists r,
              find (has_key ip port service) (vulnerabilities d) = Some r
              /\ find (has_key ip port service) (vulnerabilities d1)
                 = Some (set_vuln ev "High" ts1 r).
Proof.
  intros Hwf Hrun1. apply run_ok_iff in Hrun1. split.
  - destruct (second_pass_ops ts1 ts2 _ d d1 Hwf Hrun1)
      as (d2 & Hrun2 & Hdev & Hvul & Hdseq & Hvseq).
    exists d2. split; [now apply run_ok_iff|].
    split; [|split; [|split; [|split; [|split]]]].
    + eapply Forall2_weaken; [|exact Hdev]. now intros x y [H _].
    + eapply Forall2_weaken; [|exact Hvul]. now intros x y (H1 & H2 & _).
    + intros E. split.
      * symmetry. apply Forall2_eq. eapply Forall2_weaken; [|exact Hdev].
        intros x y [_ H]. symmetry. now apply H.
      * symmetry. apply Forall2_eq. eapply Forall2_weaken; [|exact Hvul].
        intros x y (_ & _ & H). symmetry. now apply H.
    + exact Hvseq.
    + exact Hdseq.
    + apply (apply_ops_counter ts2 _ d1 d2 Hrun2).
  - intros ip port service Hex.
    apply (existing_key_updated_in_place ts1 _ d d1 ip port service Hwf
                                         Hrun1 Hex).
Qed.

Lemma second_pass_inserts_no_row_witness :
  (exists d2,
      run [] c1_after_first c1_output "2026-01-03T00:00:00" = (Ok tt, d2)
      /\ Forall2 same_but_last_seen (devices c1_after_first) (devices d2)
      /\ Forall2 (fun r1 r2 =>
                    same_but_timestamp r1 r2
                    /\ (v_severity r1 = "Informational" -> r2 = r1))
                 (vulnerabilities c1_after_first) (vulnerabilities d2)
      /\ devices_seq c1_after_first < devices_seq d2)
  /\ length (filter (has_key "10.0.0.5" 445 "microsoft-ds")
                    (vulnerabilities c1_after_first)) = 1%nat.
Proof.
  destruct (second_pass_inserts_no_row
              c1_db c1_output "2026-01-02T00:00:00" "2026-01-03T00:00:00"
              c1_after_first)
    as [(d2 & Hrun & Hdev & Hvul & _ & _ & _ & Hlt) Hkey].
  - split; repeat constructor. simpl. tauto.
  - reflexivity.
  - split.
    + exists d2. repeat split; try assumption.
      apply Hlt. exists "10.0.0.5", None, None, None.
      right. right. left. reflexivity.
    + destruct (Hkey "10.0.0.5" 445 "microsoft-ds") as [Hlen _].
      * eexists. split; [left; reflexivity | reflexivity].
      * rewrite Hlen. reflexivity.
Defined.

(** C1 as stated fails: the second run rewrites last_seen of every device
    it saves, so with a later clock the devices rows are not exactly as
    after the first run; and it advances the counter of the devices table. *)
Lemma second_pass_refreshes_last_seen :
  run [] empty_db c6_output "2026-01-01T00:00:00"
  = (Ok tt,
     mkDb [mkDevice 1 "10.0.0.5" None None None (Some "up")
                    (Some "2026-01-01T00:00:00")] 1 [] 0)
  /\ run [] (mkDb [mkDevice 1 "10.0.0.5" None None None (Some "up")
                            (Some "2026-01-01T00:00:00")] 1 [] 0)
         c6_output "2026-01-02T00:00:00"
     = (Ok tt,
        mkDb [mkDevice 1 "10.0.0.5" None None None (Some "up")
                       (Some "2026-01-02T00:00:00")] 2 [] 0)
  /\ [mkDevice 1 "10.0.0.5" None None None (Some "up")
               (Some "2026-01-02T00:00:00")]
     <> [mkDevice 1 "10.0.0.5" None None None (Some "up")
                  (Some "2026-01-01T00:00:00")].
Proof. repeat split. discriminate. Qed.

(** ** The progress percentage *)

(** C8 fails on the code. A line with '% done' such as 'About 42.50% done;
    ETC: ...' does make the worker emit 42, and a percentage text that is
    missing, that [float] rejects or that reads as not-a-number is
    swallowed: only the line is reported and the loop goes on.  But a text
    that [float] reads as infinite ('inf', 'infinity', '1e999') makes
    [int] raise OverflowError, which the handler of ValueError and
    IndexError does not catch: the loop stops, no later line is read, and
    the finished signal carries an error message instead of the output.
    The same happens, with the error of the emit, for a finite percentage
    outside the 32 bits of the signal. *)
Theorem progress_percent_extraction emit_error_text :
  (forall output rest,
      Scan.run_lines emit_error_text output (c8_line :: rest)
      = Scan.progress "About 42.50% done; ETC: ..."
          :: Scan.scan_percent 42
          :: Scan.run_lines emit_error_text (output ++ c8_line) rest)
  /\ (forall output line rest,
         contains "Unknown property" line = false ->
         contains "% done" line = true ->
         match Scan.percent_token line with
         | Some tok =>
             Scan.py_float tok = None \/ Scan.py_float tok = Some Scan.NaN
         | None => True
         end ->
         Scan.run_lines emit_error_text output (line :: rest)
         = Scan.progress (strip line)
             :: Scan.run_lines emit_error_text (output ++ line) rest)
  /\ (forall output line rest tok negative,
         contains "Unknown property" line = false ->
         contains "% done" line = true ->
         Scan.percent_token line = Some tok ->
         Scan.py_float tok = Some (Scan.Infinity negative) ->
         Scan.run_lines emit_error_text output (line :: rest)
         = [Scan.progress (strip line); Scan.finished Scan.overflow_message])
  /\ (forall output line rest tok negative m e,
         contains "Unknown property" line = false ->
         contains "% done" line = true ->
         Scan.percent_token line = Some tok ->
         Scan.py_float tok = Some (Scan.Finite negative m e) ->
         let a := if 0 <=? e then m * 2 ^ e else m / 2 ^ (- e) in
         let n := if negative then - a else a in
         Scan.run_lines emit_error_text output (line :: rest)
         = if Scan.c_int n
           then Scan.progress (strip line) :: Scan.scan_percent n
                  :: Scan.run_lines emit_error_text (output ++ line) rest
           else [Scan.progress (strip line);
                 Scan.finished (Scan.error_message (emit_error_text n))])
  /\ Scan.run_lines emit_error_text ""
       [("Starting Nmap 7.94" ++ LF)%string; ("About inf% done" ++ LF)%string;
        c8_line]
     = [Scan.progress "Starting Nmap 7.94"; Scan.progress "About inf% done";
        Scan.finished Scan.overflow_message]
  /\ Scan.run_lines emit_error_text ""
       [("Starting Nmap 7.94" ++ LF)%string;
        ("About 1e999% done" ++ LF)%string; c8_line]
     = [Scan.progress "Starting Nmap 7.94"; Scan.progress "About 1e999% done";
        Scan.finished Scan.overflow_message]
  /\ Scan.run_lines emit_error_text ""
       [("Stats: n/a% done" ++ LF)%string; ("About nan% done" ++ LF)%string;
        c8_line]
     = [Scan.progress "Stats: n/a% done"; Scan.progress "About nan% done";
        Scan.progress "About 42.50% done; ETC: ...";
        Scan.scan_percent 42;
        Scan.finished ("Stats: n/a% done" ++ LF ++ "About nan% done" ++ LF
                       ++ c8_line)].
Proof.
  split; [|split; [|split; [|split; [|split; [|split]]]]].
  - intros output rest. reflexivity.
  - intros output line rest Hu Hd Htok.
    cbn [Scan.run_lines]. rewrite Hu, Hd. unfold Scan.percent_of.
    destruct (Scan.percent_token line) as [tok|]; [|reflexivity].
    destruct Htok as [-> | ->]; reflexivity.
  - intros output line rest tok negative Hu Hd Htok Hinf.
    cbn [Scan.run_lines]. rewrite Hu, Hd. unfold Scan.percent_of.
    now rewrite Htok, Hinf.
  - intros output line rest tok negative m e Hu Hd Htok Hfin a n.
    cbn [Scan.run_lines]. rewrite Hu, Hd. unfold Scan.percent_of.
    rewrite Htok, Hfin. cbn [Scan.int_of_float]. fold a. fold n.
    now destruct (Scan.c_int n).
  - reflexivity.
  - vm_compute. reflexivity.
  - reflexivity.
Qed.

(** * Further properties of the parser *)

Import Cases.

(** ** The state after a line does not depend on the store *)

Lemma bind_ret_state {A} (m : M A) (s s' : pstate) c c' :
  bind m (fun _ => ret s) c = (Ok s', c') -> s' = s.
Proof.
  unfold bind, ret. destruct (m c) as [[a|e] c1]; intros E; congruence.
Qed.

Lemma ports_rule_state ts st ip line c st' c' :
  ports_rule ts st ip line c = (Ok st', c') ->
  st' = if negb (is_port_row (split line)) && is_empty (strip line)
        then mkPstate (current_ip st) (current_mac st) (current_vendor st)
                      (current_os st) false (parsing_host_script_results st)
        else st.
Proof.
  unfold ports_rule. destruct (is_port_row (split line)); cbn [negb andb].
  - destruct (py_int _) as [n|].
    + apply bind_ret_state.
    + unfold ret. congruence.
  - destruct (is_empty (strip line)); unfold ret; congruence.
Qed.

Lemma script_rule_state ts st ip line c st' c' :
  script_rule ts st ip line c = (Ok st', c') ->
  st' = if negb (is_script_line line) && is_empty (strip line)
        then mkPstate (current_ip st) (current_mac st) (current_vendor st)
                      (current_os st) (parsing_ports_section st) false
        else st.
Proof.
  unfold script_rule. destruct (is_script_line line); cbn [negb andb].
  - apply bind_ret_state.
  - destruct (is_empty (strip line)); unfold ret; congruence.
Qed.

(** Whatever the storage layer refuses, a line that is processed leaves the
    loop in the state that the text alone determines. *)
Lemma parse_line_state ts st raw c st' c' :
  parse_line ts st raw c = (Ok st', c') -> st' = next_pstate st raw.
Proof.
  unfold parse_line, next_pstate, in_ports, in_script.
  destruct (is_empty (strip raw)); [unfold ret; congruence|].
  destruct (contains host_marker (strip raw)); [apply bind_ret_state|].
  destruct (mac_search (strip raw)) as [[m v]|]; [unfold ret; congruence|].
  destruct (os_search (strip raw)) as [[g1 g2]|]; [unfold ret; congruence|].
  destruct (startswith (strip raw) ports_marker); [unfold ret; congruence|].
  destruct (startswith (strip raw) script_marker); [unfold ret; congruence|].
  destruct (is_noise (strip raw)); [unfold ret; congruence|].
  destruct (if parsing_ports_section st then truthy (current_ip st) else None)
    as [ip|]; [apply ports_rule_state|].
  destruct (if parsing_host_script_results st then truthy (current_ip st)
            else None) as [ip|]; [apply script_rule_state|].
  unfold ret; congruence.
Qed.

Lemma parse_lines_state ts lines : forall st c st' c',
  parse_lines ts st lines c = (Ok st', c') -> st' = loop_end st lines.
Proof.
  induction lines as [|raw rest IH]; intros st c st' c' H; simpl in *.
  - unfold ret in H. congruence.
  - unfold bind in H.
    destruct (parse_line ts st raw c) as [[s1|e] c1] eqn:E; [|discriminate].
    apply parse_line_state in E. subst s1. eapply IH, H.
Qed.

(** ** The section flags *)

Lemma next_pstate_exclusive st raw :
  parsing_ports_section st && parsing_host_script_results st = false ->
  parsing_ports_section (next_pstate st raw)
  && parsing_host_script_results (next_pstate st raw) = false.
Proof.
  intros Hex. unfold next_pstate.
  destruct (is_empty (strip raw)); [exact Hex|].
  destruct (contains host_marker (strip raw)); [reflexivity|].
  destruct (mac_search (strip raw)) as [[m v]|]; [exact Hex|].
  destruct (os_search (strip raw)) as [[g1 g2]|]; [exact Hex|].
  destruct (startswith (strip raw) ports_marker); [reflexivity|].
  destruct (startswith (strip raw) script_marker); [reflexivity|].
  destruct (is_noise (strip raw)); [exact Hex|].
  destruct (in_ports st).
  - destruct (negb (is_port_row _) && _); [reflexivity | exact Hex].
  - destruct (in_script st); [|exact Hex].
    destruct (negb (is_script_line _) && _);
      [apply andb_false_r | exact Hex].
Qed.

Lemma loop_end_exclusive lines : forall st,
  parsing_ports_section st && parsing_host_script_results st = false ->
  parsing_ports_section (loop_end st lines)
  && parsing_host_script_results (loop_end st lines) = false.
Proof.
  induction lines as [|raw rest IH]; intros st Hex; [exact Hex|].
  simpl. apply IH, next_pstate_exclusive, Hex.
Qed.

(** X1. At every point of the loop, whatever lines were read and whatever
    the storage layer refused, the parser is in at most one section: the
    flags parsing_ports_section and parsing_host_script_results are never
    both set. *)
Theorem section_flags_never_both ts lines c st' c' :
  parse_lines ts initial_pstate lines c = (Ok st', c') ->
  parsing_ports_section st' && parsing_host_script_results st' = false.
Proof.
  intros H. apply parse_lines_state in H. subst st'.
  apply loop_end_exclusive. reflexivity.
Qed.

Lemma section_flags_never_both_witness :
  parsing_ports_section
    (mkPstate (Some "10.0.0.5") None None None false true)
  && parsing_host_script_results
       (mkPstate (Some "10.0.0.5") None None None false true) = false.
Proof.
  apply (section_flags_never_both
           "2026-01-01T00:00:00"
           ["Nmap scan report for 10.0.0.5"; "PORT      STATE SERVICE";
            "80/tcp open http"; "Host script results:"]
           (mkConn empty_db empty_db false [])
           (mkPstate (Some "10.0.0.5") None None None false true)
           (mkConn empty_db
                   (insert_vuln "10.0.0.5" 80 "http" "Open port detected"
                                "Informational" "2026-01-01T00:00:00"
                                empty_db) true [])).
  reflexivity.
Defined.

Lemma next_pstate_frame st raw :
  contains host_marker (strip raw) = false ->
  startswith (strip raw) ports_marker = false ->
  startswith (strip raw) script_marker = false ->
  parsing_ports_section (next_pstate st raw) = parsing_ports_section st
  /\ parsing_host_script_results (next_pstate st raw)
     = parsing_host_script_results st.
Proof.
  intros Hh Hp Hs. unfold next_pstate. rewrite Hh, Hp, Hs, strip_idem.
  destruct (is_empty (strip raw)) eqn:He; [now split|].
  destruct (mac_search (strip raw)) as [[m v]|]; [now split|].
  destruct (os_search (strip raw)) as [[g1 g2]|]; [now split|].
  destruct (is_noise (strip raw)); [now split|].
  rewrite !andb_false_r.
  destruct (in_ports st); [now split|].
  destruct (in_script st); now split.
Qed.

(** X2. A section ends only at a host header or at a section marker: a line
    that does not contain 'Nmap scan report for' and does not start with
    'PORT      STATE SERVICE' or 'Host script results:' leaves both section
    flags and the current ip as they are, whether it is blank, a row that
    fails the section's grammar, a closed or filtered port, or anything
    else.  The branches of the section rules that clear a flag on an empty
    line are never taken. *)
Theorem section_ends_only_at_header_or_marker ts st raw c st' c' :
  parse_line ts st raw c = (Ok st', c') ->
  contains host_marker (strip raw) = false ->
  startswith (strip raw) ports_marker = false ->
  startswith (strip raw) script_marker = false ->
  parsing_ports_section st' = parsing_ports_section st
  /\ parsing_host_script_results st' = parsing_host_script_results st
  /\ current_ip st' = current_ip st.
Proof.
  intros H Hh Hp Hs. apply parse_line_state in H. subst st'.
  destruct (next_pstate_frame st raw Hh Hp Hs) as [-> ->].
  rewrite next_pstate_ip by exact Hh. now repeat split.
Qed.

Lemma section_ends_only_at_header_or_marker_witness :
  parsing_ports_section c4_state = parsing_ports_section c4_state
  /\ parsing_host_script_results c4_state
     = parsing_host_script_results c4_state
  /\ current_ip c4_state = current_ip c4_state.
Proof.
  apply (section_ends_only_at_header_or_marker
           "2026-01-01T00:00:00" c4_state "443/tcp  filtered https"
           (mkConn empty_db empty_db false []) c4_state
           (mkConn empty_db empty_db false [])); reflexivity.
Defined.

(** ** Storage errors that the loop survives *)

Lemma save_device_commit_caught ts st ip c :
  exists c',
    try_except_sqlite (bind (save_device ts st ip) (fun _ => commit))
                      (ret tt) c = (Ok tt, c').
Proof.
  destruct c as [cm w t fs].
  unfold try_except_sqlite, save_device, exec_insert_or_ignore_device,
    exec_update_device, bind, ret, step_fault, write, begin, commit. simpl.
  destruct fs as [|[] [|[] [|[] fs]]]; simpl; eexists; reflexivity.
Qed.

Lemma escalation_caught ts ip port service evidence c :
  sqlite_int64 port = true ->
  exists c',
    try_except_sqlite
      (bind (exec_select_vuln_id ip port service)
            (fun existing_vuln =>
               bind match existing_vuln with
                    | Some id => exec_update_vuln evidence "High" ts id
                    | None =>
                        exec_insert_vuln ip port service evidence "High" ts
                    end
                    (fun _ => commit)))
      (ret tt) c = (Ok tt, c').
Proof.
  intros Hfit. destruct c as [cm w t fs].
  unfold try_except_sqlite, exec_select_vuln_id, exec_update_vuln,
    exec_insert_vuln, bind_int, bind, ret, step_fault, read, write, begin,
    commit.
  rewrite Hfit. simpl.
  destruct fs as [|[] [|[] [|[] fs]]]; simpl;
    destruct (select_vuln_id ip port service w); simpl;
      rewrite ?Hfit; simpl; eexists; reflexivity.
Qed.

(** X3. A storage error on the save of a device at a host header (on its
    INSERT OR IGNORE, its UPDATE or its COMMIT), or on the statements of a
    script finding (its SELECT, its INSERT or UPDATE, or its COMMIT), never
    leaves the loop: whatever the storage layer refuses, the header line is
    processed (the new host becomes current, accumulators and section flags
    are reset) and the script line is processed (state unchanged), so the
    following lines are read. *)
Theorem header_and_script_errors_are_caught ts st raw c :
  (contains host_marker (strip raw) = true ->
   exists c',
     parse_line ts st raw c
     = (Ok (mkPstate (Some (header_ip (strip raw))) None None None
                     false false), c'))
  /\ (forall ip,
         is_content (strip raw) = true ->
         parsing_ports_section st = false ->
         parsing_host_script_results st = true ->
         truthy (current_ip st) = Some ip ->
         sqlite_int64 (script_port (strip raw)) = true ->
         exists c', parse_line ts st raw c = (Ok st, c')).
Proof.
  split.
  - intros Hh. unfold parse_line. rewrite Hh.
    destruct (is_empty (strip raw)) eqn:He.
    { apply is_empty_true in He. rewrite He in Hh. discriminate. }
    destruct (truthy (current_ip st)) as [ip|].
    + destruct (save_device_commit_caught ts st ip c) as (c' & Hc).
      exists c'. unfold bind at 1. rewrite Hc. reflexivity.
    + exists c. reflexivity.
  - intros ip Hc Hps Hss Hip Hfit.
    rewrite (content_line_step ts st raw c Hc).
    unfold in_ports, in_script. rewrite Hps, Hss, Hip. unfold script_rule.
    destruct (is_script_line (strip raw)).
    + rewrite strip_idem.
      destruct (is_vulnerable (strip raw)).
      * destruct (escalation_caught ts ip (script_port (strip raw))
                    (script_service (strip raw)) (strip raw) c Hfit)
          as (c' & Hc').
        exists c'. unfold bind at 1. rewrite Hc'. reflexivity.
      * exists c. reflexivity.
    + destruct (is_empty (strip (strip raw))) eqn:He.
      * rewrite strip_idem in He. apply is_content_true in Hc.
        destruct Hc as (Hne & _). congruence.
      * exists c. reflexivity.
Qed.

Lemma header_and_script_errors_are_caught_witness :
  (exists c',
      parse_line "2026-01-01T00:00:00" c3_state
                 "Nmap scan report for 10.0.0.6"
                 (mkConn empty_db empty_db false [false; false; true])
      = (Ok (mkPstate (Some "10.0.0.6") None None None false false), c'))
  /\ exists c',
       parse_line "2026-01-01T00:00:00" c3_state
                  "|_http-vuln-cve2021-41773: VULNERABLE"
                  (mkConn empty_db empty_db false [false; false; true])
       = (Ok c3_state, c').
Proof.
  split.
  - apply (proj1 (header_and_script_errors_are_caught
                    "2026-01-01T00:00:00" c3_state
                    "Nmap scan report for 10.0.0.6"
                    (mkConn empty_db empty_db false [false; false; true]))).
    reflexivity.
  - apply (proj2 (header_and_script_errors_are_caught
                    "2026-01-01T00:00:00" c3_state
                    "|_http-vuln-cve2021-41773: VULNERABLE"
                    (mkConn empty_db empty_db false [false; false; true])) "10.0.0.5");
      reflexivity.
Defined.

(** ** What a completed pass keeps *)

Lemma map_firsts_origin g vs : forall seen r,
  In r (map_firsts g seen vs) ->
  exists y, In y vs /\ (r = y \/ r = g y).
Proof.
  induction vs as [|x vs IH]; intros seen r Hin; [easy|].
  simpl in Hin. destruct Hin as [<- | Hin].
  - exists x. split; [now left|]. destruct (seen_key seen x); auto.
  - destruct (IH _ r Hin) as (y & Hy & Hc). exists y. split; [now right|].
    exact Hc.
Qed.

Lemma saves_last_save H ops :
  saves H ops -> last_save ops H <> None.
Proof.
  intros (m & v & os & Hin). induction ops as [|o ops IH]; [easy|].
  simpl. destruct (last_save ops H) as [x|] eqn:E; [discriminate|].
  destruct Hin as [-> | Hin]; [now rewrite String.eqb_refl|].
  exfalso. now apply IH.
Qed.

(** X4. The parser stores no status but 'up': if every devices row is up
    before a completed pass, every devices row is up after it, the rows the
    pass created included. *)
Theorem pass_keeps_all_devices_up d nmap_output ts d' :
  (forall r, In r (devices d) -> d_status r = Some "up") ->
  run [] d nmap_output ts = (Ok tt, d') ->
  forall r, In r (devices d') -> d_status r = Some "up".
Proof.
  intros Hup Hrun r Hin. apply run_ok_iff in Hrun.
  destruct (devices_summary_exists ts _ d d' Hrun)
    as (news & Hd & _ & Hnew & _).
  rewrite Hd in Hin. apply in_map_iff in Hin. destruct Hin as (y & <- & Hy).
  unfold final_device.
  destruct (last_save (ops_of nmap_output) (d_ip y)) as [[[m v] os]|] eqn:E;
    [reflexivity|].
  apply in_app_or in Hy. destruct Hy as [Hy | Hy]; [now apply Hup|].
  destruct (Hnew y Hy) as [_ Hs]. apply saves_last_save in Hs. congruence.
Qed.

Lemma pass_keeps_all_devices_up_witness :
  forallb (fun r => match d_status r with
                    | Some s => String.eqb s "up"
                    | None => false
                    end)
          (devices (snd (run [] c6_db c9_output "2026-01-02T00:00:00")))
  = true.
Proof.
  apply forallb_forall. intros r Hin.
  rewrite (pass_keeps_all_devices_up
             c6_db c9_output "2026-01-02T00:00:00"
             (snd (run [] c6_db c9_output "2026-01-02T00:00:00"))).
  - reflexivity.
  - intros x [<- | []]. reflexivity.
  - reflexivity.
  - exact Hin.
Defined.

(** ** Every finding has its device *)

Lemma line_op_finding st raw o ip :
  line_op st raw = Some o -> finding_ip o = Some ip ->
  truthy (current_ip st) = Some ip.
Proof.
  unfold line_op, in_ports, in_script.
  destruct (is_empty (strip raw)); [discriminate|].
  destruct (contains host_marker (strip raw)).
  { destruct (truthy (current_ip st)); [|discriminate].
    intros E; injection E as <-. discriminate. }
  destruct (is_content (strip raw)); [|discriminate].
  destruct (parsing_ports_section st).
  - destruct (truthy (current_ip st)) as [ip'|].
    + destruct (_ && _); [|discriminate].
      destruct (py_int _); [|discriminate].
      intros E; injection E as <-. simpl. congruence.
    + destruct (parsing_host_script_results st); discriminate.
  - destruct (parsing_host_script_results st); [|discriminate].
    destruct (truthy (current_ip st)) as [ip'|]; [|discriminate].
    destruct (_ && _); [|discriminate].
    intros E; injection E as <-. simpl. congruence.
Qed.

Lemma loop_finding_saved lines : forall st o ip,
  In o (loop_ops st lines) -> finding_ip o = Some ip ->
  saves ip (loop_ops st lines)
  \/ truthy (current_ip (loop_end st lines)) = Some ip.
Proof.
  induction lines as [|raw rest IH]; intros st o ip Hin Hip; [easy|].
  assert (Htail : In o (loop_ops (next_pstate st raw) rest) ->
                  saves ip (loop_ops st (raw :: rest))
                  \/ truthy (current_ip (loop_end st (raw :: rest)))
                     = Some ip).
  { intros Hin'. destruct (IH _ o ip Hin' Hip) as [Hs | He].
    - left. apply loop_ops_skip, Hs.
    - right. exact He. }
  simpl in Hin. destruct (line_op st raw) as [o'|] eqn:E; [|now apply Htail].
  destruct Hin as [-> | Hin]; [|now apply Htail].
  apply (pending_saved (raw :: rest) st ip).
  eapply line_op_finding; eassumption.
Qed.

Lemma finding_saved nmap_output o ip :
  In o (ops_of nmap_output) -> finding_ip o = Some ip ->
  saves ip (ops_of nmap_output).
Proof.
  unfold ops_of. intros Hin Hip. apply in_app_or in Hin.
  destruct Hin as [Hin | Hin].
  - destruct (loop_finding_saved _ initial_pstate o ip Hin Hip) as [Hs | He].
    + apply saves_app_l, Hs.
    + unfold final_op, final_pstate. rewrite He.
      exists (current_mac (loop_end initial_pstate (splitlines nmap_output))),
        (current_vendor (loop_end initial_pstate (splitlines nmap_output))),
        (current_os (loop_end initial_pstate (splitlines nmap_output))).
      apply in_or_app. right. now left.
  - unfold final_op in Hin. destruct (truthy _); [|easy].
    destruct Hin as [<- | []]. discriminate.
Qed.

Lemma op_key_finding o k :
  op_key o = Some k -> finding_ip o = Some (fst (fst k)).
Proof.
  destruct o as [| ip p s | ip p s ev]; simpl; [discriminate | |];
    intros E; injection E as <-; reflexivity.
Qed.

(** X5. Every finding a completed pass inserts belongs to a stored device:
    a vulnerabilities row whose id was not in the table before the pass has
    a device_ip for which the devices table holds a row after the pass. *)
Theorem inserted_finding_has_device d nmap_output ts d' r :
  wf_db d ->
  run [] d nmap_output ts = (Ok tt, d') ->
  In r (vulnerabilities d') ->
  ~ In (v_id r) (map v_id (vulnerabilities d)) ->
  In (v_device_ip r) (map d_ip (devices d')).
Proof.
  intros [_ Hnd] Hrun Hin Hnew. apply run_ok_iff in Hrun.
  destruct (vulns_summary_exists ts _ d d' Hnd Hrun)
    as (news & Hv & _ & _ & Hnews & _).
  rewrite Hv in Hin. apply map_firsts_origin in Hin.
  destruct Hin as (y & Hy & Hc).
  assert (Hsame : v_id r = v_id y /\ key_of r = key_of y).
  { destruct Hc as [-> | ->]; [now split|].
    now rewrite final_row_id, final_row_key. }
  destruct Hsame as [Hid Hkey].
  apply in_app_or in Hy. destruct Hy as [Hy | Hy].
  { exfalso. apply Hnew. rewrite Hid. now apply in_map. }
  destruct (Hnews y Hy) as [_ (o & Ho & Hk)].
  apply op_key_finding in Hk.
  pose proof (finding_saved nmap_output o _ Ho Hk) as Hs.
  destruct (apply_ops_ips ts _ _ _ Hrun) as (_ & _ & Hsaved).
  replace (v_device_ip r) with (fst (fst (key_of y))).
  - apply Hsaved, Hs.
  - rewrite <- Hkey. reflexivity.
Qed.

Lemma inserted_finding_has_device_witness :
  In "10.0.0.5" (map d_ip (devices c1_after_first)).
Proof.
  apply (inserted_finding_has_device
           c1_db c1_output "2026-01-02T00:00:00" c1_after_first
           (mkVuln 2 "10.0.0.5" 80 "http" "Open port detected" "Informational"
                   "2026-01-02T00:00:00")).
  - split; repeat constructor. simpl. tauto.
  - reflexivity.
  - right. left. reflexivity.
  - simpl. intros [H | []]. discriminate H.
Defined.

(** * Properties of the scan worker *)

Import Scan Signals.

(** X6. Whatever the scanner prints, the worker emits exactly one finished
    signal and emits it last. *)
Theorem run_ends_with_one_finished emit_error_text output lines :
  exists before text,
    run_lines emit_error_text output lines
    = (before ++ [finished text])%list
    /\ forallb (fun s => negb (is_finished s)) before = true.
Proof.
  revert output. induction lines as [|line rest IH]; intros output.
  - exists [], output. now split.
  - simpl. destruct (contains "Unknown property" line); [apply IH|].
    destruct (contains "% done" line).
    + destruct (percent_of line) as [n| |].
      * destruct (c_int n).
        -- destruct (IH (output ++ line)) as (before & text & -> & Hb).
           exists (progress (strip line) :: scan_percent n :: before), text.
           now split.
        -- exists [progress (strip line)],
             (error_message (emit_error_text n)). now split.
      * destruct (IH (output ++ line)) as (before & text & -> & Hb).
        exists (progress (strip line) :: before), text. now split.
      * exists [progress (strip line)], overflow_message. now split.
    + destruct (IH (output ++ line)) as (before & text & -> & Hb).
      exists (progress (strip line) :: before), text. now split.
Qed.

Lemma progress_texts_app s1 s2 :
  progress_texts (s1 ++ s2) = (progress_texts s1 ++ progress_texts s2)%list.
Proof.
  induction s1 as [|s s1 IH]; [reflexivity|].
  simpl. destruct s; simpl; now rewrite IH.
Qed.

Lemma concat_kept_cons x line (ls : list string) :
  x ++ String.concat "" (line :: ls) = (x ++ line) ++ String.concat "" ls.
Proof.
  simpl. destruct ls as [|l ls].
  - simpl. induction x; simpl; [|congruence].
    induction line; simpl; congruence.
  - simpl. induction x; simpl; congruence.
Qed.

Lemma run_lines_kept emit_error_text output lines :
  forallb (fun line => negb (aborts line)) (kept lines) = true ->
  exists before,
    run_lines emit_error_text output lines
    = (before ++ [finished (output ++ String.concat "" (kept lines))])%list
    /\ progress_texts before = map strip (kept lines)
    /\ forallb (fun s => negb (is_finished s)) before = true.
Proof.
  revert output. induction lines as [|line rest IH]; intros output Hno.
  - exists []. simpl. split; [|now split].
    f_equal. f_equal. clear. induction output; simpl; congruence.
  - unfold kept in *. cbn [filter run_lines] in *.
    destruct (contains "Unknown property" line); cbn [negb] in *;
      [now apply IH|].
    cbn [forallb map] in *.
    apply andb_true_iff in Hno. destruct Hno as [Hline Hrest].
    destruct (IH (output ++ line) Hrest) as (before & Hrun & Hprog & Hfin).
    rewrite concat_kept_cons, Hrun.
    unfold aborts in Hline.
    destruct (contains "% done" line).
    + destruct (percent_of line) as [n| |]; [| |discriminate].
      * simpl in Hline. apply negb_true_iff, negb_false_iff in Hline.
        rewrite Hline.
        exists (progress (strip line) :: scan_percent n :: before).
        simpl. now rewrite Hprog.
      * exists (progress (strip line) :: before). simpl. now rewrite Hprog.
    + exists (progress (strip line) :: before). simpl. now rewrite Hprog.
Qed.

(** X7. When no '% done' line ends the loop (none carries an infinite
    percentage or one outside the 32 bits of the signal), the worker emits
    one progress signal for each line that does not contain 'Unknown
    property', in order and stripped, and the finished signal carries
    exactly those lines, concatenated as they were read; the lines with
    'Unknown property' leave no trace. *)
Theorem run_delivers_kept_lines emit_error_text output lines :
  forallb (fun line => negb (aborts line)) (kept lines) = true ->
  exists before,
    run_lines emit_error_text output lines
    = (before ++ [finished (output ++ String.concat "" (kept lines))])%list
    /\ progress_texts before = map strip (kept lines).
Proof.
  intros Hno.
  destruct (run_lines_kept emit_error_text output lines Hno)
    as (before & Hrun & Hprog & _).
  now exists before.
Qed.

Lemma run_delivers_kept_lines_witness :
  exists before,
    run_lines (fun _ => EmptyString) ""
              ["Starting Nmap 7.94" ++ LF; "Unknown property transform" ++ LF;
               c8_line]%string
    = (before ++ [finished ("Starting Nmap 7.94" ++ LF ++ c8_line)])%list
    /\ progress_texts before
       = ["Starting Nmap 7.94"; "About 42.50% done; ETC: ..."].
Proof.
  apply (run_delivers_kept_lines
           (fun _ => EmptyString)
           "" ["Starting Nmap 7.94" ++ LF; "Unknown property transform" ++ LF;
               c8_line]%string).
  reflexivity.
Defined.

(** X8. For every statistics line 'About p.ab% done' that nmap can print,
    with p from 0 to 100 and two decimals a, b, the percentage emitted is
    exactly p: the decimals are cut off, never rounded up, and no such line
    is dropped. *)
Theorem stats_line_percent emit_error_text p a b :
  (p <= 100)%nat -> (a <= 9)%nat -> (b <= 9)%nat ->
  run_lines emit_error_text "" [stats_line p a b]
  = [progress (strip (stats_line p a b)); scan_percent (Z.of_nat p);
     finished (stats_line p a b)].
Proof.
  intros Hp Ha Hb.
  assert (Hall : forallb (fun p =>
                   forallb (fun a =>
                     forallb (fun b =>
                       match run_lines emit_error_text "" [stats_line p a b]
                       with
                       | [progress t; scan_percent n; finished o] =>
                           String.eqb t (strip (stats_line p a b))
                           && (n =? Z.of_nat p)
                           && String.eqb o (stats_line p a b)
                       | _ => false
                       end) (seq 0 10)) (seq 0 10)) (seq 0 101) = true)
    by (vm_compute; reflexivity).
  rewrite forallb_forall in Hall.
  assert (Hpin : In p (seq 0 101)) by (apply in_seq; lia).
  specialize (Hall p Hpin). rewrite forallb_forall in Hall.
  assert (Hain : In a (seq 0 10)) by (apply in_seq; lia).
  specialize (Hall a Hain). rewrite forallb_forall in Hall.
  assert (Hbin : In b (seq 0 10)) by (apply in_seq; lia).
  specialize (Hall b Hbin).
  destruct (run_lines emit_error_text "" [stats_line p a b])
    as [|[t| |] [|[|n|] [|[| |o] [|]]]];
    try discriminate.
  apply andb_true_iff in Hall. destruct Hall as [Hall Ho].
  apply andb_true_iff in Hall. destruct Hall as [Ht Hn].
  apply String.eqb_eq in Ht, Ho. apply Z.eqb_eq in Hn. now subst.
Qed.

Lemma stats_line_percent_witness :
  run_lines (fun _ => EmptyString) "" [stats_line 99 9 9]
  = [progress (strip (stats_line 99 9 9)); scan_percent 99;
     finished (stats_line 99 9 9)].
Proof. apply (stats_line_percent (fun _ => EmptyString) 99 9 9); lia. Defined.

(** * The build script *)

(** X9. When the icon file is missing, the build does not only drop the
    icon option: it also drops '--noconsole', the argument that stands just
    before it, so the executable is built with a console window.  The other
    arguments are passed as they were, wherever the project lies. *)
Theorem missing_icon_drops_noconsole root_file pathsep :
  BuildExe.main root_file pathsep true false
  = BuildExe.Runs
      ["--name"; "CyberRangeScanner"; "--onefile";
       "--distpath"; root_file "dist";
       "--add-data"; root_file "icons" ++ pathsep ++ "icons";
       "--add-data"; root_file "icon.ico" ++ pathsep ++ ".";
       root_file "cyberrange_scanner.py"]
  /\ BuildExe.main root_file pathsep true true
     = BuildExe.Runs
         ["--name"; "CyberRangeScanner"; "--onefile"; "--noconsole";
          "--icon=" ++ root_file "icon.ico";
          "--distpath"; root_file "dist";
          "--add-data"; root_file "icons" ++ pathsep ++ "icons";
          "--add-data"; root_file "icon.ico" ++ pathsep ++ ".";
          root_file "cyberrange_scanner.py"].
Proof.
  split; [|reflexivity].
  unfold BuildExe.main, BuildExe.pyinstaller_args, BuildExe.icon_arg.
  cbn [negb app BuildExe.index].
  change (String.eqb "--name" ("--icon=" ++ root_file BuildExe.ICON_FILE))
    with false.
  change (String.eqb BuildExe.APP_NAME
                     ("--icon=" ++ root_file BuildExe.ICON_FILE)) with false.
  change (String.eqb "--onefile" ("--icon=" ++ root_file BuildExe.ICON_FILE))
    with false.
  change (String.eqb "--noconsole"
                     ("--icon=" ++ root_file BuildExe.ICON_FILE)) with false.
  rewrite String.eqb_refl. reflexivity.
Qed.

(** * The command of a scan *)

Import StartScan.

Lemma stripped_pieces_clean pieces :
  Forall (fun t => t <> EmptyString /\ strip t = t) (stripped_pieces pieces).
Proof.
  unfold stripped_pieces. apply Forall_forall. intros t Hin.
  apply in_map_iff in Hin. destruct Hin as (x & <- & Hx).
  apply filter_In in Hx. destruct Hx as [_ Hne].
  split; [|apply strip_idem].
  intros E. rewrite E in Hne. discriminate.
Qed.

(** X10. When start_scan launches a scan, every target it parsed out of the
    target text is non-empty and free of surrounding white space; and the
    command that is run names the unsplit target text as an argument of its
    own before the parsed targets, so a single target is named twice and a
    list of targets is passed both whole and split. *)
Theorem scan_command_targets templates reports_file timestamp f
        target name parts :
  start_scan templates reports_file timestamp f = Some (target, name, parts) ->
  target = strip (target_input f) /\ target <> EmptyString
  /\ scan_command target parts
     = (["nmap"; "-v"; "--stats-every"; "1s"; target]
        ++ parse_targets target
        ++ scan_flags templates reports_file timestamp f)%list
  /\ Forall (fun t => t <> EmptyString /\ strip t = t) (parse_targets target)
  /\ (contains "," target = false -> contains " " target = false ->
      parse_targets target = [target]).
Proof.
  unfold start_scan.
  destruct (is_empty (strip (target_input f))) eqn:He; [discriminate|].
  intros E. injection E as <- <- <-.
  assert (Hne : strip (target_input f) <> EmptyString).
  { intros E. rewrite E in He. discriminate. }
  repeat split; try assumption.
  - unfold parse_targets.
    destruct (contains "," _); [apply stripped_pieces_clean|].
    destruct (contains " " _); [apply stripped_pieces_clean|].
    constructor; [|constructor]. split; [assumption | apply strip_idem].
  - intros Hc Hs. unfold parse_targets. now rewrite Hc, Hs.
Qed.

Lemma scan_command_targets_witness :
  scan_command "10.0.0.5, 10.0.0.6 ,,"
               ["10.0.0.5"; "10.0.0.6"; "-T4"; "-F"; "-O";
                "--version-intensity 9"]
  = ["nmap"; "-v"; "--stats-every"; "1s"; "10.0.0.5, 10.0.0.6 ,,";
     "10.0.0.5"; "10.0.0.6"; "-T4"; "-F"; "-O"; "--version-intensity 9"].
Proof.
  destruct (scan_command_targets
              [("Quick Scan", ["-T4"; "-F"])] (fun n => n) "20260101_000000"
              two_targets_form "10.0.0.5, 10.0.0.6 ,," "Quick Scan"
              ["10.0.0.5"; "10.0.0.6"; "-T4"; "-F"; "-O";
               "--version-intensity 9"]) as (_ & _ & Hcmd & _).
  - reflexivity.
  - rewrite Hcmd. reflexivity.
Defined.

(** * Searching a table *)

Import TablePage.

Lemma prefix_iff a : forall b,
  String.prefix a b = true <-> exists suf, b = a ++ suf.
Proof.
  induction a as [|x a IH]; intros b.
  - split; [intros _; now exists b | intros _; now destruct b].
  - destruct b as [|y b]; simpl.
    + split; [discriminate | intros (suf & E); discriminate].
    + destruct (ascii_dec x y) as [->|Hne].
      * rewrite IH. split; intros (suf & E); exists suf; simpl; congruence.
      * split; [discriminate | intros (suf & E)]. simpl in E. congruence.
Qed.

Lemma contains_iff a : forall b,
  contains a b = true <-> exists pre suf, b = pre ++ a ++ suf.
Proof.
  induction b as [|y b IH].
  - simpl. split.
    + intros E. apply is_empty_true in E. subst a. now exists "", "".
    + intros (pre & suf & E). destruct pre; [|discriminate].
      destruct a; [reflexivity | discriminate].
  - change (contains a (String y b))
      with (String.prefix a (String y b) || contains a b).
    rewrite orb_true_iff, prefix_iff, IH. split.
    + intros [(suf & E) | (pre & suf & E)].
      * now exists "", suf.
      * exists (String y pre), suf. simpl. now rewrite E.
    + intros (pre & suf & E). destruct pre as [|p pre].
      * left. now exists suf.
      * right. exists pre, suf. simpl in E. congruence.
Qed.

Lemma append_assoc_str (a b c : string) : (a ++ b) ++ c = a ++ b ++ c.
Proof. induction a; simpl; congruence. Qed.

Lemma contains_trans a b c :
  contains a b = true -> contains b c = true -> contains a c = true.
Proof.
  rewrite !contains_iff.
  intros (p1 & s1 & ->) (p2 & s2 & ->).
  exists (p2 ++ p1), (s1 ++ s2).
  now rewrite !append_assoc_str.
Qed.

Lemma lower_app a b : lower (a ++ b) = lower a ++ lower b.
Proof. induction a; simpl; congruence. Qed.

Lemma contains_lower a b :
  contains a b = true -> contains (lower a) (lower b) = true.
Proof.
  rewrite !contains_iff. intros (p & s & ->).
  exists (lower p), (lower s). now rewrite !lower_app.
Qed.

Lemma lower_char_idem c : lower_char (lower_char c) = lower_char c.
Proof. destruct c as [[] [] [] [] [] [] [] []]; reflexivity. Qed.

Lemma lower_idem s : lower (lower s) = lower s.
Proof. induction s; simpl; [reflexivity|]. now rewrite lower_char_idem, IHs. Qed.

Lemma row_matches_narrow old new cells :
  contains old new = true ->
  row_matches new cells = true -> row_matches old cells = true.
Proof.
  intros Hsub. unfold row_matches. rewrite !existsb_exists.
  intros (cell & Hin & Hm). exists cell. split; [exact Hin|].
  eapply contains_trans; [apply contains_lower, Hsub | exact Hm].
Qed.

(** X11. On text of the alphabet of this file (code points below 256,
    where lower-casing maps character by character), narrowing a search
    never brings a row back: when the new search text contains the old one
    (letters were added before or after it), every row that the old text
    hid is hidden by the new text.  Beyond that alphabet this fails: the
    lower case of a Greek capital sigma depends on what follows it. *)
Theorem narrower_search_hides_more old new rows :
  contains old new = true ->
  Forall2 (fun hidden_old hidden_new =>
             hidden_old = true -> hidden_new = true)
          (filter_table old rows) (filter_table new rows).
Proof.
  intros Hsub. unfold filter_table.
  induction rows as [|cells rows IH]; simpl; constructor; [|exact IH].
  intros Hold. apply negb_true_iff in Hold. apply negb_true_iff.
  destruct (row_matches new cells) eqn:E; [|reflexivity].
  rewrite (row_matches_narrow old new cells Hsub E) in Hold. discriminate.
Qed.

Lemma narrower_search_hides_more_witness :
  Forall2 (fun hidden_old hidden_new =>
             hidden_old = true -> hidden_new = true)
          (filter_table "10.0" [["10.0.0.5"; "up"]; ["192.168.1.1"; "up"]])
          (filter_table "10.0.0" [["10.0.0.5"; "up"]; ["192.168.1.1"; "up"]]).
Proof.
  apply (narrower_search_hides_more "10.0" "10.0.0"). reflexivity.
Defined.

Lemma contains_empty s : contains EmptyString s = true.
Proof. destruct s; reflexivity. Qed.

(** X12. A search ignores case in the search text and in the cells, and an
    empty search text hides no row that has a cell. *)
Theorem search_ignores_case_and_empty_shows_all text rows :
  filter_table (lower text) rows = filter_table text rows
  /\ filter_table text (map (map lower) rows) = filter_table text rows
  /\ filter_table EmptyString rows
     = map (fun cells => match cells with [] => true | _ => false end) rows.
Proof.
  unfold filter_table, row_matches. repeat split.
  - apply map_ext. intros cells. now rewrite lower_idem.
  - rewrite map_map. apply map_ext. intros cells. f_equal.
    induction cells as [|c cells IH]; [reflexivity|].
    simpl. now rewrite lower_idem, IH.
  - apply map_ext. intros [|c cells]; [reflexivity|].
    simpl. now rewrite contains_empty.
Qed.

(** * From the worker to the parser *)

Lemma splitlines_go_line body : forall cur rest,
  all_chars (fun c => negb (islinebreak c)) body = true ->
  splitlines_go cur (body ++ String "010" rest)
  = (cur ++ body) :: splitlines_go EmptyString rest.
Proof.
  induction body as [|c body IH]; intros cur rest Hall.
  - simpl. replace (cur ++ "") with cur by (clear; induction cur; simpl; congruence).
    destruct rest; reflexivity.
  - simpl in Hall. apply andb_true_iff in Hall. destruct Hall as [Hc Hall].
    apply negb_true_iff in Hc.
    change ((String c body) ++ String "010" rest)
      with (String c (body ++ String "010" rest)).
    cbn [splitlines_go]. rewrite Hc, (IH _ _ Hall). f_equal.
    clear. induction cur; simpl; congruence.
Qed.

Lemma splitlines_concat bodies :
  Forall (fun b => all_chars (fun c => negb (islinebreak c)) b = true)
         bodies ->
  splitlines (String.concat "" (map (fun b => b ++ LF) bodies)) = bodies.
Proof.
  unfold splitlines. induction 1 as [|b bodies Hb _ IH]; [reflexivity|].
  assert (E : String.concat "" (map (fun b => b ++ LF) (b :: bodies))
              = b ++ String "010"
                       (String.concat "" (map (fun b => b ++ LF) bodies))).
  { simpl. destruct (map (fun b0 => b0 ++ LF) bodies) as [|l ls] eqn:Em.
    - reflexivity.
    - simpl. unfold LF. rewrite append_assoc_str. reflexivity. }
  rewrite E, (splitlines_go_line b "" _ Hb), IH. reflexivity.
Qed.

Lemma kept_map_lf bodies :
  kept (map (fun b => b ++ LF) bodies)
  = map (fun b => b ++ LF)
        (filter (fun b => negb (contains "Unknown property" (b ++ LF)))
                bodies).
Proof.
  unfold kept. induction bodies as [|b bodies IH]; [reflexivity|].
  simpl. destruct (negb (contains "Unknown property" (b ++ LF))); simpl;
    now rewrite IH.
Qed.

(** X13. The parser reads the lines the worker kept: when the scanner
    prints lines ended by a line feed, with no other line boundary inside,
    and no '% done' line ends the loop (none carries an infinite percentage
    or one outside the 32 bits of the signal), the text that the
    worker hands over with finished, split into lines as
    parse_and_store_nmap splits it, is the list of the printed lines
    without those that contain 'Unknown property', in order. *)
Theorem parser_reads_kept_lines emit_error_text bodies :
  Forall (fun b => all_chars (fun c => negb (islinebreak c)) b = true)
         bodies ->
  forallb (fun line => negb (aborts line))
          (kept (map (fun b => b ++ LF) bodies)) = true ->
  exists before text,
    run_lines emit_error_text "" (map (fun b => b ++ LF) bodies)
    = (before ++ [finished text])%list
    /\ splitlines text
       = filter (fun b => negb (contains "Unknown property" (b ++ LF)))
                bodies.
Proof.
  intros Hclean Hno.
  destruct (run_lines_kept emit_error_text "" _ Hno) as (before & Hrun & _).
  exists before, (String.concat "" (kept (map (fun b => b ++ LF) bodies))).
  split; [exact Hrun|].
  rewrite kept_map_lf. apply splitlines_concat.
  apply Forall_forall. intros b Hb. apply filter_In in Hb.
  rewrite Forall_forall in Hclean. now apply Hclean.
Qed.

Lemma parser_reads_kept_lines_witness :
  exists before text,
    run_lines (fun _ => EmptyString) ""
              (map (fun b => b ++ LF)
                      ["Nmap scan report for 10.0.0.5";
                       "Unknown property transform"; "";
                       "PORT      STATE SERVICE"; "80/tcp open http"])
    = (before ++ [finished text])%list
    /\ splitlines text
       = ["Nmap scan report for 10.0.0.5"; "";
          "PORT      STATE SERVICE"; "80/tcp open http"].
Proof.
  apply (parser_reads_kept_lines
           (fun _ => EmptyString)
           ["Nmap scan report for 10.0.0.5"; "Unknown property transform";
            ""; "PORT      STATE SERVICE"; "80/tcp open http"]).
  - repeat constructor.
  - reflexivity.
Defined.

(** * More on what a pass stores *)

(** X14. Only three kinds of lines reach the store: host headers, content
    lines read in the ports section and content lines read in the
    host-script section, the last two with a current ip.  Every other line
    (blank, MAC address, OS hint, section marker, progress chatter, or a
    content line outside a section or before any host) executes no
    statement: the connection is exactly as before, whatever the storage
    layer would have refused. *)
Theorem other_lines_execute_nothing ts st raw c :
  contains host_marker (strip raw) = false ->
  is_content (strip raw) = false
  \/ (in_ports st = None /\ in_script st = None) ->
  parse_line ts st raw c = (Ok (next_pstate st raw), c).
Proof.
  intros Hh Hcase. unfold parse_line, next_pstate.
  fold (in_ports st). fold (in_script st). rewrite Hh.
  destruct (is_empty (strip raw)) eqn:He; [reflexivity|].
  destruct (mac_search (strip raw)) as [[m v]|] eqn:Hm; [reflexivity|].
  destruct (os_search (strip raw)) as [[g1 g2]|] eqn:Ho; [reflexivity|].
  destruct (startswith (strip raw) ports_marker) eqn:Hp; [reflexivity|].
  destruct (startswith (strip raw) script_marker) eqn:Hs; [reflexivity|].
  destruct (is_noise (strip raw)) eqn:Hn; [reflexivity|].
  destruct Hcase as [Hc | [Hip His]].
  - unfold is_content in Hc. rewrite He, Hh, Hm, Ho, Hp, Hs, Hn in Hc.
    discriminate.
  - rewrite Hip, His. reflexivity.
Qed.

Lemma other_lines_execute_nothing_witness :
  parse_line "2026-01-01T00:00:00" c4_state
             "MAC Address: AA:BB:CC:DD:EE:FF (Acme Corp)"
             (mkConn empty_db empty_db false [true])
  = (Ok (mkPstate (Some "10.0.0.5") (Some "AA:BB:CC:DD:EE:FF")
                  (Some "Acme Corp") None true false),
     mkConn empty_db empty_db false [true]).
Proof.
  apply (other_lines_execute_nothing
           "2026-01-01T00:00:00" c4_state
           "MAC Address: AA:BB:CC:DD:EE:FF (Acme Corp)"
           (mkConn empty_db empty_db false [true])).
  - reflexivity.
  - left. reflexivity.
Defined.

(** X15. One '% done' line can cost the whole output.  The first kept line
    whose percentage ends the loop (an infinite one, on which [int] raises
    OverflowError that the inner handler does not catch, or a finite one
    outside the 32 bits of the signal, on which the emit raises) stops the
    worker: the lines up to it are reported, no later line is read, and
    the single finished signal carries the error message of that line
    instead of the text gathered so far; for an infinite percentage the
    message is 'An error occurred during Nmap scan: cannot convert float
    infinity to integer'. *)
Theorem infinite_percentage_discards_output
        emit_error_text output lines1 line lines2 msg :
  forallb (fun l => negb (aborts l)) (kept lines1) = true ->
  contains "Unknown property" line = false ->
  abort_text emit_error_text line = Some msg ->
  exists before,
    run_lines emit_error_text output (lines1 ++ line :: lines2)
    = (before ++ [finished msg])%list
    /\ progress_texts before = map strip (kept lines1 ++ [line])
    /\ forallb (fun s => negb (is_finished s)) before = true
    /\ (overflows line = true -> msg = overflow_message).
Proof.
  intros Hno Hu Hmsg. revert output.
  induction lines1 as [|l lines1 IH]; intros output.
  - exists [progress (strip line)]. cbn [app run_lines kept filter map].
    rewrite Hu. unfold abort_text, overflows in *.
    destruct (contains "% done" line); [|discriminate].
    destruct (percent_of line) as [n| |]; [|discriminate|].
    + destruct (c_int n); [discriminate|]. injection Hmsg as <-.
      repeat split. discriminate.
    + injection Hmsg as <-. now repeat split.
  - unfold kept in *. cbn [app run_lines filter] in *.
    destruct (contains "Unknown property" l); cbn [negb] in *;
      [now apply IH|].
    cbn [forallb] in Hno. apply andb_true_iff in Hno.
    destruct Hno as [Hl Hrest]. unfold aborts in Hl.
    destruct (contains "% done" l).
    + destruct (percent_of l) as [n| |]; [| |discriminate].
      * simpl in Hl. apply negb_true_iff, negb_false_iff in Hl. rewrite Hl.
        destruct (IH Hrest (output ++ l)) as (before & -> & Hp & Hf & Hm).
        exists (progress (strip l) :: scan_percent n :: before).
        simpl. rewrite Hp. now repeat split.
      * destruct (IH Hrest (output ++ l)) as (before & -> & Hp & Hf & Hm).
        exists (progress (strip l) :: before).
        simpl. rewrite Hp. now repeat split.
    + destruct (IH Hrest (output ++ l)) as (before & -> & Hp & Hf & Hm).
      exists (progress (strip l) :: before).
      simpl. rewrite Hp. now repeat split.
Qed.

Lemma infinite_percentage_discards_output_witness :
  run_lines (fun _ => EmptyString) ""
            ["Nmap scan report for 10.0.0.5" ++ LF;
             "About inf% done" ++ LF; "80/tcp open http" ++ LF]%string
  = [progress "Nmap scan report for 10.0.0.5"; progress "About inf% done";
     finished overflow_message].
Proof.
  destruct (infinite_percentage_discards_output
              (fun _ => EmptyString) ""
              ["Nmap scan report for 10.0.0.5" ++ LF]%string
              ("About inf% done" ++ LF)%string
              ["80/tcp open http" ++ LF]%string overflow_message)
    as (before & Hrun & _).
  - reflexivity.
  - reflexivity.
  - reflexivity.
  - reflexivity.
Defined.

(** * The ip of a host header *)

Lemma all_chars_app q a b :
  all_chars q (a ++ b) = all_chars q a && all_chars q b.
Proof.
  induction a as [|c a IH]; [reflexivity|].
  simpl. now rewrite IH, andb_assoc.
Qed.

Lemma split_go_tokens s : forall tok,
  match tok with
  | Some t => all_chars (fun c => negb (isspace c)) t = true
  | None => True
  end ->
  Forall (fun t => all_chars (fun c => negb (isspace c)) t = true)
         (split_go tok s).
Proof.
  induction s as [|c s IH]; intros tok Htok.
  - destruct tok; repeat constructor. exact Htok.
  - simpl. destruct (isspace c) eqn:Hc.
    + destruct tok; [constructor; [exact Htok|]|]; now apply IH.
    + apply IH. destruct tok as [t|]; simpl.
      * rewrite all_chars_app, Htok. simpl. now rewrite Hc.
      * now rewrite Hc.
Qed.

Lemma lstrip_by_all q p s :
  all_chars q s = true -> all_chars q (lstrip_by p s) = true.
Proof.
  induction s as [|c s IH]; [reflexivity|].
  simpl. intros H. apply andb_true_iff in H. destruct H as [Hc Hs].
  destruct (p c); [now apply IH | simpl; now rewrite Hc, Hs].
Qed.

Lemma rstrip_by_all q p s :
  all_chars q s = true -> all_chars q (rstrip_by p s) = true.
Proof.
  induction s as [|c s IH]; [reflexivity|].
  simpl. intros H. apply andb_true_iff in H. destruct H as [Hc Hs].
  destruct (p c && is_empty (rstrip_by p s)); [reflexivity|].
  simpl. now rewrite Hc, IH.
Qed.

Lemma rstrip_by_keeps_head p s :
  match rstrip_by p s with
  | EmptyString => True
  | String c _ => exists rest, s = String c rest
  end.
Proof.
  destruct s as [|c s]; [exact I|].
  simpl. destruct (p c && is_empty (rstrip_by p s)); [exact I|].
  now exists s.
Qed.

Lemma rstrip_by_end p s :
  rstrip_by p s = EmptyString \/ ends_outside p (rstrip_by p s) = true.
Proof.
  induction s as [|c s IH]; [now left|].
  simpl. destruct (p c) eqn:Hc; simpl.
  - destruct (rstrip_by p s) as [|d r] eqn:E; [now left|].
    right. destruct IH as [IH | IH]; [discriminate | exact IH].
  - right. destruct (rstrip_by p s) as [|d r] eqn:E.
    + simpl. now rewrite Hc.
    + destruct IH as [IH | IH]; [discriminate | exact IH].
Qed.

Lemma last_Forall {A} (P : A -> Prop) l d :
  Forall P l -> P d -> P (last l d).
Proof.
  induction 1 as [|x l Hx Hl IH]; intros Hd; [exact Hd|].
  simpl. destruct l; [exact Hx | now apply IH].
Qed.

(** X16. The ip that a host header makes current holds no white space and
    neither begins nor ends with a parenthesis: it is the last word of the
    line with every leading and trailing '(' and ')' removed (and is empty
    when that word consists of parentheses only). *)
Theorem header_ip_is_clean line :
  all_chars (fun c => negb (isspace c)) (header_ip line) = true
  /\ match header_ip line with
     | EmptyString => True
     | String c _ =>
         char_in c "()" = false
         /\ ends_outside (fun c => char_in c "()") (header_ip line) = true
     end.
Proof.
  unfold header_ip, strip_chars. split.
  - apply rstrip_by_all, lstrip_by_all, last_Forall; [|reflexivity].
    apply split_go_tokens. exact I.
  - set (w := last (split line) "").
    pose proof (lstrip_by_head (fun c => char_in c "()") w) as Hhead.
    pose proof (rstrip_by_keeps_head (fun c => char_in c "()")
                  (lstrip_by (fun c => char_in c "()") w)) as Hkeep.
    pose proof (rstrip_by_end (fun c => char_in c "()")
                  (lstrip_by (fun c => char_in c "()") w)) as Hend.
    destruct (rstrip_by _ _) as [|c r]; [exact I|].
    destruct Hkeep as (rest & E). rewrite E in Hhead. split; [exact Hhead|].
    destruct Hend as [Hend | Hend]; [discriminate | exact Hend].
Qed.

(** * The end of a scan *)

Import App.

Lemma new_host_adds_a_row d nmap_output ts d' raw :
  run [] d nmap_output ts = (Ok tt, d') ->
  In raw (splitlines nmap_output) ->
  contains host_marker raw = true ->
  header_ip (strip raw) <> EmptyString ->
  ~ In (header_ip (strip raw)) (map d_ip (devices d)) ->
  (length (devices d) < length (devices d'))%nat.
Proof.
  intros Hrun Hin Hh Hne Hnew. apply run_ok_iff in Hrun.
  destruct (devices_summary_exists ts _ d d' Hrun) as (news & Hd & Hcl & _).
  assert (Hs : saves (header_ip (strip raw)) (ops_of nmap_output)).
  { eapply header_saved; eauto. now rewrite contains_host_marker_strip. }
  apply Hcl in Hs. rewrite map_app in Hs. apply in_app_or in Hs.
  destruct Hs as [Hs | Hs]; [contradiction|].
  rewrite Hd, length_map, length_app.
  destruct news; [destruct Hs | simpl; lia].
Qed.

(** X17. finish_scan records the scan with the full output before anything
    is parsed, and reloads the table pages before the parse as well: when
    the output names a host that the store does not know yet, the Devices
    page still lists the devices as they were before the scan, while the
    dashboard, refreshed after the parse, already counts more discovered
    devices than the page lists. *)
Theorem pages_are_loaded_before_the_parse
        target scan_type now ts a nmap_output raw :
  let r := finish_scan false [] target scan_type now ts a nmap_output in
  parse_outcome r = Ok tt ->
  In raw (splitlines nmap_output) ->
  contains host_marker raw = true ->
  header_ip (strip raw) <> EmptyString ->
  ~ In (header_ip (strip raw)) (map d_ip (devices (store a))) ->
  scans (after r)
  = (scans a ++ [mkScan (next_rowid (scans_seq a) (map s_id (scans a)))
                        target scan_type now nmap_output])%list
  /\ shown_devices r = devices_page a
  /\ shown_vulnerabilities r = vulnerabilities_page a
  /\ (length (shown_devices r) < discovered_devices (shown_stats r))%nat.
Proof.
  cbv zeta. unfold finish_scan, save_scan_results. simpl store.
  destruct (run [] (store a) nmap_output ts) as [res d'] eqn:Hrun.
  simpl. intros Hok Hin Hh Hne Hnew. subst res.
  repeat split.
  unfold devices_page. rewrite length_map. simpl.
  eapply new_host_adds_a_row; eassumption.
Qed.

Lemma pages_are_loaded_before_the_parse_witness :
  shown_devices (finish_scan false [] "10.0.0.5" "Quick Scan"
                             "2026-01-02T00:00:00" "2026-01-02T00:00:01"
                             (mkApp [] 0 empty_db) c7_output) = []
  /\ discovered_devices
       (shown_stats (finish_scan false [] "10.0.0.5" "Quick Scan"
                                 "2026-01-02T00:00:00" "2026-01-02T00:00:01"
                                 (mkApp [] 0 empty_db) c7_output)) = 1%nat.
Proof.
  destruct (pages_are_loaded_before_the_parse
              "10.0.0.5" "Quick Scan" "2026-01-02T00:00:00"
              "2026-01-02T00:00:01" (mkApp [] 0 empty_db) c7_output
              "Nmap scan report for 10.0.0.5") as (_ & Hdev & _ & _).
  - reflexivity.
  - left. reflexivity.
  - reflexivity.
  - discriminate.
  - simpl. tauto.
  - rewrite Hdev. split; reflexivity.
Defined.

(** * What holds however a pass ends *)

Import Invariant.

Section PassInvariant.
Variable ts : string.
Variable P : db -> Prop.
Hypothesis P_insert_device : forall ip d,
  P d -> P (insert_or_ignore_device ip d).
Hypothesis P_update_device : forall mac vendor os ip d,
  P d -> P (update_device ts mac vendor os ip d).
Hypothesis P_insert_vuln : forall ip port service out sev d,
  P d -> select_vuln_id ip port service d = None ->
  P (insert_vuln ip port service out sev ts d).
Hypothesis P_update_vuln : forall out id d,
  P d -> P (update_vuln out "High" ts id d).

Ltac run_statements :=
  unfold try_except_sqlite, save_device, exec_insert_or_ignore_device,
    exec_update_device, exec_select_vuln_id, exec_insert_vuln,
    exec_update_vuln, bind_int, bind, ret, raise, step_fault, read, write,
    begin, commit; simpl.

Ltac conclude :=
  let E := fresh "E" in
  intros E [? ?]; injection E as <- <-; split; simpl; auto.

Lemma save_device_holds st ip c r c' :
  save_device ts st ip c = (r, c') -> conn_holds P c -> conn_holds P c'.
Proof.
  destruct c as [cm w t fs]. run_statements.
  destruct fs as [|[] [|[] fs]]; simpl; conclude.
Qed.

Lemma commit_holds c r c' :
  commit c = (r, c') -> conn_holds P c -> conn_holds P c'.
Proof.
  destruct c as [cm w t fs]. run_statements.
  destruct t; simpl; [|conclude].
  destruct fs as [|[] fs]; simpl; conclude.
Qed.

Lemma save_and_commit_holds st ip c r c' :
  try_except_sqlite (bind (save_device ts st ip) (fun _ => commit))
                    (ret tt) c = (r, c') ->
  conn_holds P c -> conn_holds P c'.
Proof.
  destruct c as [cm w t fs]. run_statements.
  destruct fs as [|[] [|[] [|[] fs]]]; simpl; conclude.
Qed.

Lemma ports_rule_holds st ip line c r c' :
  ports_rule ts st ip line c = (r, c') -> conn_holds P c -> conn_holds P c'.
Proof.
  destruct c as [cm w t fs]. unfold ports_rule.
  destruct (is_port_row (split line)).
  - destruct (py_int _) as [n|]; [|run_statements; conclude].
    destruct (String.eqb _ "open"); [|run_statements; conclude].
    run_statements. destruct (sqlite_int64 n) eqn:Hfit; simpl; [|conclude].
    destruct fs as [|[] fs]; simpl; try conclude;
      destruct (select_vuln_id ip n _ w) eqn:Hsel; simpl; rewrite ?Hfit;
        simpl; try conclude;
        destruct fs as [|[] fs]; simpl; conclude.
  - destruct (is_empty (strip line)); run_statements; conclude.
Qed.

Lemma script_rule_holds st ip line c r c' :
  script_rule ts st ip line c = (r, c') -> conn_holds P c -> conn_holds P c'.
Proof.
  destruct c as [cm w t fs]. unfold script_rule.
  destruct (is_script_line line).
  - destruct (is_vulnerable (strip line)); [|run_statements; conclude].
    run_statements. destruct (sqlite_int64 _) eqn:Hfit; simpl; [|conclude].
    destruct fs as [|[] fs]; simpl; try conclude;
      destruct (select_vuln_id ip _ _ w) eqn:Hsel; simpl; rewrite ?Hfit;
        simpl; try conclude;
        destruct fs as [|[] fs]; simpl; try conclude;
          destruct fs as [|[] fs]; simpl; conclude.
  - destruct (is_empty (strip line)); run_statements; conclude.
Qed.

Lemma parse_line_holds st raw c r c' :
  parse_line ts st raw c = (r, c') -> conn_holds P c -> conn_holds P c'.
Proof.
  unfold parse_line.
  destruct (is_empty (strip raw)); [unfold ret; conclude|].
  destruct (contains host_marker (strip raw)).
  { destruct (truthy (current_ip st)) as [ip|].
    - unfold bind at 1.
      destruct (try_except_sqlite _ _ c) as [[u|e] c1] eqn:E;
        intros E' Hc; injection E' as <- <-;
        eapply save_and_commit_holds; eassumption.
    - unfold bind, ret. conclude. }
  destruct (mac_search (strip raw)) as [[m v]|]; [unfold ret; conclude|].
  destruct (os_search (strip raw)) as [[g1 g2]|]; [unfold ret; conclude|].
  destruct (startswith (strip raw) ports_marker); [unfold ret; conclude|].
  destruct (startswith (strip raw) script_marker); [unfold ret; conclude|].
  destruct (is_noise (strip raw)); [unfold ret; conclude|].
  destruct (if parsing_ports_section st then truthy (current_ip st) else None)
    as [ip|]; [apply ports_rule_holds|].
  destruct (if parsing_host_script_results st then truthy (current_ip st)
            else None) as [ip|]; [apply script_rule_holds|].
  unfold ret; conclude.
Qed.

Lemma parse_lines_holds lines : forall st c r c',
  parse_lines ts st lines c = (r, c') -> conn_holds P c -> conn_holds P c'.
Proof.
  induction lines as [|raw rest IH]; intros st c r c'; simpl.
  - unfold ret. intros E Hc. now injection E as <- <-.
  - unfold bind. destruct (parse_line ts st raw c) as [[s1|e] c1] eqn:E.
    + intros E' Hc. eapply IH; [exact E'|]. eapply parse_line_holds; eauto.
    + intros E' Hc. injection E' as <- <-. eapply parse_line_holds; eauto.
Qed.

(** Whatever is refused and however the call ends, what the four writes
    keep is kept by the call. *)
Lemma run_holds fs d nmap_output r d' :
  P d -> run fs d nmap_output ts = (r, d') -> P d'.
Proof.
  intros Hd. unfold run, parse_and_store_nmap, bind at 1.
  assert (H0 : conn_holds P (mkConn d d false fs)) by now split.
  destruct (parse_lines ts initial_pstate (splitlines nmap_output)
                        (mkConn d d false fs)) as [[st|e] c1] eqn:E.
  - pose proof (parse_lines_holds _ _ _ _ _ E H0) as H1.
    unfold bind.
    destruct (match truthy (current_ip st) with
              | Some ip => save_device ts st ip
              | None => ret tt
              end c1) as [[u|e] c2] eqn:E2.
    + assert (H2 : conn_holds P c2).
      { destruct (truthy (current_ip st)) as [ip|].
        - eapply save_device_holds; eassumption.
        - unfold ret in E2. injection E2 as _ <-. exact H1. }
      destruct (commit c2) as [r3 c3] eqn:E3.
      pose proof (commit_holds _ _ _ E3 H2) as [H3 _].
      intros E'. now injection E' as <- <-.
    + assert (H2 : conn_holds P c2).
      { destruct (truthy (current_ip st)) as [ip|].
        - eapply save_device_holds; eassumption.
        - unfold ret in E2. discriminate. }
      destruct H2 as [H2 _]. intros E'. now injection E' as <- <-.
  - pose proof (parse_lines_holds _ _ _ _ _ E H0) as [H1 _].
    intros E'. now injection E' as <- <-.
Qed.
End PassInvariant.

Lemma rows_kept_refl d : rows_kept d d.
Proof. split; exists []; now rewrite app_nil_r. Qed.

(** X18. A pass keeps every row where it is, whatever the storage layer
    refuses and however the pass ends: the devices table on disk after the
    call starts with the rows it had, with the same id and ip, and the
    vulnerabilities table with the rows it had, with the same id,
    device_ip, port and service.  Rows are only rewritten in place or
    appended, never removed or reordered. *)
Theorem pass_keeps_rows_in_place fs d nmap_output ts :
  rows_kept d (snd (run fs d nmap_output ts)).
Proof.
  destruct (run fs d nmap_output ts) as [r d'] eqn:Hrun. simpl.
  revert Hrun. apply (run_holds ts (rows_kept d)); [| | | |apply rows_kept_refl].
  - intros ip x [(ad & Hd) Hv]. unfold insert_or_ignore_device.
    destruct (existsb _ _); [split; [now exists ad | exact Hv]|].
    split; [|exact Hv].
    simpl. exists (ad ++ [(next_rowid (devices_seq x) (map d_id (devices x)),
                          ip)])%list.
    now rewrite map_app, Hd, app_assoc.
  - intros m v os ip x [(ad & Hd) Hv]. split; [|exact Hv].
    exists ad. rewrite <- Hd. unfold update_device; simpl.
    rewrite map_map. apply map_ext. intros r0.
    destruct (String.eqb (d_ip r0) ip); reflexivity.
  - intros ip p s out sev x [Hd (av & Hv)] _. split; [exact Hd|].
    simpl. exists (av ++ [(next_rowid (vulnerabilities_seq x)
                                      (map v_id (vulnerabilities x)),
                           ip, p, s)])%list.
    now rewrite map_app, Hv, app_assoc.
  - intros out id x [Hd (av & Hv)]. split; [exact Hd|].
    exists av. rewrite <- Hv. unfold update_vuln; simpl.
    rewrite map_map. apply map_ext. intros r1.
    destruct (v_id r1 =? id); reflexivity.
Qed.

(** X19. A pass keeps the store well formed, whatever the storage layer
    refuses and however the pass ends: if no two devices rows share an ip
    and no two vulnerabilities rows share an id before the call, the same
    holds of the store on disk after it. *)
Theorem pass_keeps_store_well_formed fs d nmap_output ts :
  wf_db d -> wf_db (snd (run fs d nmap_output ts)).
Proof.
  intros Hwf. destruct (run fs d nmap_output ts) as [r d'] eqn:Hrun. simpl.
  revert Hrun. apply (run_holds ts wf_db); [| | | |exact Hwf].
  - intros ip x [Hip Hid]. split.
    + change (NoDup (ips (insert_or_ignore_device ip x))).
      rewrite ips_insert_or_ignore. destruct (existsb _ _) eqn:Hex;
        [exact Hip|].
      apply NoDup_app; [exact Hip | repeat constructor; easy|].
      intros y Hy [<- | []]. apply existsb_ip in Hy. congruence.
    + unfold insert_or_ignore_device. destruct (existsb _ _); exact Hid.
  - intros m v os ip x [Hip Hid]. split; [|exact Hid].
    change (NoDup (ips (update_device ts m v os ip x))).
    now rewrite ips_update_device.
  - intros ip p s out sev x [Hip Hid] _. split; [exact Hip|].
    simpl. rewrite map_app. simpl.
    apply NoDup_app; [exact Hid | repeat constructor; easy|].
    intros y Hy [<- | []]. apply (next_rowid_fresh _ _ Hy).
  - intros out id x [Hip Hid]. split; [exact Hip|].
    unfold update_vuln; simpl. rewrite map_map.
    rewrite (map_ext _ v_id); [exact Hid|].
    intros r1. destruct (v_id r1 =? id); reflexivity.
Qed.

Lemma pass_keeps_store_well_formed_witness :
  wf_db (snd (run [false; false; true; false] c1_db c1_output
                  "2026-01-02T00:00:00")).
Proof.
  apply (pass_keeps_store_well_formed [false; false; true; false] c1_db
                                      c1_output "2026-01-02T00:00:00").
  split; repeat constructor. simpl. tauto.
Defined.

(** X20. A pass keeps the natural key unique, whatever the storage layer
    refuses and however the pass ends: if no two vulnerabilities rows share
    (device_ip, port, service) before the call, no two share it on disk
    after, however often the output reports the same port or the same
    script evidence. *)
Theorem pass_keeps_natural_key_unique fs d nmap_output ts :
  natural_key_unique d ->
  natural_key_unique (snd (run fs d nmap_output ts)).
Proof.
  intros Hnd. destruct (run fs d nmap_output ts) as [r d'] eqn:Hrun. simpl.
  revert Hrun.
  apply (run_holds ts natural_key_unique); [| | | |exact Hnd];
    unfold natural_key_unique.
  - intros ip x Hx. unfold insert_or_ignore_device.
    destruct (existsb _ _); exact Hx.
  - intros m v os ip x Hx. exact Hx.
  - intros ip p s out sev x Hx Hsel. simpl. rewrite map_app. simpl.
    apply NoDup_app; [exact Hx | repeat constructor; easy|].
    intros k Hk [<- | []].
    apply in_map_iff in Hk. destruct Hk as (r0 & Hr & Hin).
    pose proof (proj1 (select_vuln_id_none ip p s x) Hsel r0 Hin) as Hno.
    unfold has_key in Hno. injection Hr as E1 E2 E3.
    rewrite E1, E2, E3, !String.eqb_refl, Z.eqb_refl in Hno. discriminate.
  - intros out id x Hx. unfold update_vuln; simpl. rewrite map_map.
    rewrite (map_ext _ (fun w => (v_device_ip w, v_port w, v_service w)));
      [exact Hx|].
    intros r1. destruct (v_id r1 =? id); reflexivity.
Qed.

Lemma pass_keeps_natural_key_unique_witness :
  natural_key_unique
    (snd (run [false; true] c1_db (c1_output ++ c1_output)
              "2026-01-02T00:00:00")).
Proof.
  apply (pass_keeps_natural_key_unique
           [false; true] c1_db (c1_output ++ c1_output)
           "2026-01-02T00:00:00").
  repeat constructor. simpl. tauto.
Defined.

(** X21. A pass never lowers a finding, whatever the storage layer refuses
    and however the pass ends: every vulnerabilities row present before the
    call is found on disk after it with the same id, device_ip, port and
    service, either exactly as it was or with severity 'High' and the time
    of the pass; in particular a row that was High is still High, even
    when the pass only reports its port as open. *)
Theorem pass_never_downgrades fs d nmap_output ts r :
  In r (vulnerabilities d) ->
  never_lowered ts r (snd (run fs d nmap_output ts)).
Proof.
  intros Hin. destruct (run fs d nmap_output ts) as [res d'] eqn:Hrun. simpl.
  revert Hrun. apply (run_holds ts (never_lowered ts r)).
  - intros ip x Hx. unfold never_lowered, insert_or_ignore_device in *.
    destruct (existsb _ _); exact Hx.
  - intros m v os ip x Hx. exact Hx.
  - intros ip p s out sev x (r' & Hr' & Hrest) _.
    exists r'. split; [|exact Hrest]. simpl. apply in_or_app. now left.
  - intros out id x (r' & Hr' & Hid & Hkey & Hc & Hhigh).
    exists (if v_id r' =? id then set_vuln out "High" ts r' else r').
    split.
    { unfold update_vuln; simpl.
      apply (in_map (fun w => if v_id w =? id
                              then set_vuln out "High" ts w else w)), Hr'. }
    destruct (v_id r' =? id); [|now repeat split].
    repeat split; [exact Hid | exact Hkey | now right].
  - exists r. now repeat split; auto.
Qed.

Lemma pass_never_downgrades_witness :
  never_lowered "2026-01-02T00:00:00"
    (mkVuln 1 "10.0.0.5" 80 "http" "|_http-vuln-cve2021-41773: VULNERABLE"
            "High" "2026-01-01T00:00:00")
    (snd (run [false; true] high_finding_db c7_output "2026-01-02T00:00:00")).
Proof.
  apply (pass_never_downgrades [false; true] high_finding_db c7_output
                               "2026-01-02T00:00:00").
  left. reflexivity.
Defined.
